(** * CustomerPortal: the subscription sign-up flow of [NewSubscription]

    A shallow embedding of the React component [NewSubscription]
    (src/lib/axios.ts, second document): its state, its handlers
    [fetchPublications], [fetchSubscriptions], [handleSubscribeClick],
    [handlePayNow], the guard [isSubscribed] and the "Pay Now" control it
    renders, together with the parts of the browser the handlers talk to
    (the [localStorage] cell "payments", the clock, toasts, window events,
    the router and the HTTP client).

    Conventions.
    - A JavaScript string is its sequence of UTF-16 code units.
    - A JavaScript number is given by a rational, in lowest terms: the
      one its decimal text denotes.  [JSON.parse] reads a numeral as the
      nearest double, and [JSON.stringify] writes a double as its
      shortest decimal.
    - A handler is a computation in the monad [M]: it reads and writes the
      [World], may throw, and what it has written before a throw stays
      written (as in JavaScript).
    - A state setter takes effect at once: React renders again before the
      next event is handled, so a handler sees the state of the latest
      render.
    - An [async] function runs synchronously up to its [await]; the rest
      runs when the awaited request settles.  Each such function is
      therefore two definitions: the part before the [await], which
      registers the request as in flight, and a [_settled] part, which
      takes the reply. *)

From Stdlib Require Import List ZArith NArith QArith Qround Bool Lia String Ascii.
From Stdlib Require DecimalString DecimalZ DecimalPos.
Import ListNotations.

Set Implicit Arguments.

(* ===================================================================== *)
(** * JavaScript strings *)
(* ===================================================================== *)

Module Js.

(** A string value: UTF-16 code units. *)
Definition str := list N.

(** A source literal (the literals of this file are ASCII). *)
Definition lit (s : string) : str :=
  map N_of_ascii (list_ascii_of_string s).

Definition str_dec : forall a b : str, {a = b} + {a <> b} :=
  list_eq_dec N.eq_dec.

(** [a === b] on two strings. *)
Definition str_eqb (a b : str) : bool :=
  if str_dec a b then true else false.

(** ECMAScript WhiteSpace and LineTerminator code points, the ones
    [String.prototype.trim] strips. *)
Definition is_space (c : N) : bool :=
  (  (c =? 0x09) || (c =? 0x0A) || (c =? 0x0B) || (c =? 0x0C) || (c =? 0x0D)
  || (c =? 0x20) || (c =? 0xA0) || (c =? 0x1680)
  || ((0x2000 <=? c) && (c <=? 0x200A))
  || (c =? 0x2028) || (c =? 0x2029) || (c =? 0x202F) || (c =? 0x205F)
  || (c =? 0x3000) || (c =? 0xFEFF))%N.

Fixpoint trimStart (s : str) : str :=
  match s with
  | c :: rest => if is_space c then trimStart rest else s
  | [] => []
  end.

Definition trimEnd (s : str) : str := rev (trimStart (rev s)).

(** [s.trim()] *)
Definition trim (s : str) : str := trimEnd (trimStart s).

(** Truthiness of a string: only the empty string is falsy. *)
Definition truthy (s : str) : bool :=
  match s with [] => false | _ :: _ => true end.

(** [encodeURIComponent] throws [URIError] on a lone surrogate; this is
    the test it makes. *)
Fixpoint well_formed (s : str) : bool :=
  match s with
  | [] => true
  | c :: rest =>
      if ((0xD800 <=? c) && (c <=? 0xDBFF))%N then
        match rest with
        | d :: rest' =>
            ((0xDC00 <=? d) && (d <=? 0xDFFF))%N && well_formed rest'
        | [] => false
        end
      else if ((0xDC00 <=? c) && (c <=? 0xDFFF))%N then false
      else well_formed rest
  end.

(** [n.toString()] for an integer [n]. *)
Definition of_Z (n : Z) : str :=
  lit (DecimalString.NilZero.string_of_int (Z.to_int n)).

End Js.

Arguments Js.lit : simpl never.

(* ===================================================================== *)
(** * The [Date] object *)
(* ===================================================================== *)

(** Time values are milliseconds since the epoch; a date object holds a
    time value within [maxTime] of the epoch, or [NaN] (the Invalid Date),
    which is [None] here.  The functions are the abstract operations and
    methods of ECMAScript, section "Date Objects". *)
Module JsDate.

Local Open Scope Z_scope.

Definition msPerDay : Z := 86400000.
Definition msPerHour : Z := 3600000.
Definition msPerMinute : Z := 60000.
Definition msPerSecond : Z := 1000.

Definition Day (t : Z) : Z := t / msPerDay.
Definition TimeWithinDay (t : Z) : Z := t mod msPerDay.

Definition isLeap (y : Z) : bool :=
  if negb (y mod 4 =? 0) then false
  else if negb (y mod 100 =? 0) then true
  else (y mod 400 =? 0).

Definition DaysInYear (y : Z) : Z := if isLeap y then 366 else 365.

Definition DayFromYear (y : Z) : Z :=
  365 * (y - 1970) + (y - 1969) / 4 - (y - 1901) / 100 + (y - 1601) / 400.

(** The largest [y] with [DayFromYear y <= Day t]: an estimate from the
    mean length of a year, corrected by at most one. *)
Definition YearFromTime (t : Z) : Z :=
  let d := Day t in
  let y := 1970 + (400 * d) / 146097 in
  if d <? DayFromYear y then y - 1
  else if DayFromYear (y + 1) <=? d then y + 1
  else y.

Definition InLeapYear (t : Z) : bool := isLeap (YearFromTime t).

Definition DayWithinYear (t : Z) : Z := Day t - DayFromYear (YearFromTime t).

(** Day number, within its year, of the first day of month [m] (0..11). *)
Definition monthStart (m : Z) (leap : bool) : Z :=
  let l := if leap then 1 else 0 in
  if m =? 0 then 0 else if m =? 1 then 31 else if m =? 2 then 59 + l
  else if m =? 3 then 90 + l else if m =? 4 then 120 + l
  else if m =? 5 then 151 + l else if m =? 6 then 181 + l
  else if m =? 7 then 212 + l else if m =? 8 then 243 + l
  else if m =? 9 then 273 + l else if m =? 10 then 304 + l
  else 334 + l.

Definition MonthFromTime (t : Z) : Z :=
  let d := DayWithinYear t in
  let l := if InLeapYear t then 1 else 0 in
  if d <? 31 then 0 else if d <? 59 + l then 1 else if d <? 90 + l then 2
  else if d <? 120 + l then 3 else if d <? 151 + l then 4
  else if d <? 181 + l then 5 else if d <? 212 + l then 6
  else if d <? 243 + l then 7 else if d <? 273 + l then 8
  else if d <? 304 + l then 9 else if d <? 334 + l then 10
  else 11.

Definition DateFromTime (t : Z) : Z :=
  DayWithinYear t - monthStart (MonthFromTime t) (InLeapYear t) + 1.

Definition HourFromTime (t : Z) : Z := (t / msPerHour) mod 24.
Definition MinFromTime (t : Z) : Z := (t / msPerMinute) mod 60.
Definition SecFromTime (t : Z) : Z := (t / msPerSecond) mod 60.
Definition msFromTime (t : Z) : Z := t mod msPerSecond.

Definition MakeDay (year month date : Z) : Z :=
  let ym := year + month / 12 in
  let mn := month mod 12 in
  DayFromYear ym + monthStart mn (isLeap ym) + date - 1.

Definition MakeDate (day time : Z) : Z := day * msPerDay + time.

(** The time zone of the browser: [LocalTZA t isUTC] is the offset, in
    milliseconds, of local time from UTC at [t], where [t] is read as a
    UTC time value when [isUTC] holds and as a local one otherwise. *)
Definition TimeZone := Z -> bool -> Z.

Definition LocalTime (tz : TimeZone) (t : Z) : Z := t + tz t true.
Definition UTC (tz : TimeZone) (t : Z) : Z := t - tz t false.

(** The range of [Date]: 100,000,000 days either side of the epoch. *)
Definition maxTime : Z := 8640000000000000.

(** [TimeClip]: a number of milliseconds as a date object holds it. *)
Definition TimeClip (t : Z) : option Z :=
  if Z.abs t <=? maxTime then Some t else None.

(** [new Date(value)] for a number, [None] being [NaN]. *)
Definition ofValue (value : option Z) : option Z :=
  match value with
  | Some t => TimeClip t
  | None => None
  end.

(** [x + k] for a number [x], [None] being [NaN]. *)
Definition plus (x : option Z) (k : Z) : option Z :=
  match x with
  | Some n => Some (n + k)
  | None => None
  end.

(** [d.getDate()] for a date object holding [d]. *)
Definition getDate (tz : TimeZone) (d : option Z) : option Z :=
  match d with
  | Some t => Some (DateFromTime (LocalTime tz t))
  | None => None
  end.

(** [d.setDate(dt)]: the time value the object holds afterwards, which is
    also what the call returns. *)
Definition setDate (tz : TimeZone) (d : option Z) (dt : option Z) : option Z :=
  match d, dt with
  | Some t, Some dt =>
      let lt := LocalTime tz t in
      let newDate :=
        MakeDate (MakeDay (YearFromTime lt) (MonthFromTime lt) dt)
                 (TimeWithinDay lt) in
      TimeClip (UTC tz newDate)
  | _, _ => None
  end.

(** [n] in decimal, left-padded with zeros to [width] digits ([0 <= n]). *)
Definition pad (width : nat) (n : Z) : Js.str :=
  let digits := Js.of_Z n in
  repeat 48%N (width - List.length digits) ++ digits.

(** The ISO text of a time value [t]. *)
Definition isoString (t : Z) : Js.str :=
  let y := YearFromTime t in
  let year :=
    if (0 <=? y) && (y <=? 9999) then pad 4 y
    else (if y <? 0 then Js.lit "-" else Js.lit "+") ++ pad 6 (Z.abs y) in
  year ++ Js.lit "-" ++ pad 2 (MonthFromTime t + 1)
       ++ Js.lit "-" ++ pad 2 (DateFromTime t)
       ++ Js.lit "T" ++ pad 2 (HourFromTime t)
       ++ Js.lit ":" ++ pad 2 (MinFromTime t)
       ++ Js.lit ":" ++ pad 2 (SecFromTime t)
       ++ Js.lit "." ++ pad 3 (msFromTime t) ++ Js.lit "Z".

(** [d.toISOString()]: the text, or [None] when the call throws
    [RangeError], the date being invalid. *)
Definition toISOString (d : option Z) : option Js.str :=
  match d with
  | Some t => Some (isoString t)
  | None => None
  end.

End JsDate.

(* ===================================================================== *)
(** * Numbers *)
(* ===================================================================== *)

(** The two conversions between decimal texts and doubles that
    [JSON.parse] and [JSON.stringify] make: [StringToNumber] and
    [Number::toString] of ECMAScript.  A finite double is the rational
    [m * 2 ^ u] with [|m| <= 2 ^ 53] and [-1074 <= u <= 971]; the sign of
    a zero is not kept, since both zeros are written "0". *)
Module JsNumber.
Local Open Scope Z_scope.

(** [x / y] rounded to the nearest integer, a tie going to the even one
    ([0 <= x], [0 < y]). *)
Definition div_nearest_even (x y : Z) : Z :=
  let q := x / y in
  let r := x mod y in
  if 2 * r <? y then q
  else if y <? 2 * r then q + 1
  else if Z.even q then q else q + 1.

(** [floor (log2 (a / d))] for [0 < a], [0 < d]. *)
Definition exponent (a d : Z) : Z :=
  let e := Z.log2 a - Z.log2 d in
  let below := if 0 <=? e then a <? d * 2 ^ e else a * 2 ^ (- e) <? d in
  if below then e - 1 else e.

(** [m * 2 ^ u], in lowest terms. *)
Definition dyadic (m u : Z) : Q :=
  Qred (if 0 <=? u then inject_Z (m * 2 ^ u) else Qmake m (Z.to_pos (2 ^ (- u)))).

(** The double nearest to a positive rational [a / d] (round to nearest,
    ties to even); [None] when it is [Infinity]. *)
Definition nearest (a d : Z) : option Q :=
  let u := Z.max (exponent a d - 52) (-1074) in
  let m := if 0 <=? u then div_nearest_even a (d * 2 ^ u)
           else div_nearest_even (a * 2 ^ (- u)) d in
  if (0 <=? u) && (2 ^ 1024 <=? m * 2 ^ u) then None else Some (dyadic m u).

(** The double a numeral denoting [q] is read as; [None] is [Infinity]
    or [-Infinity]. *)
Definition toNumber (q : Q) : option Q :=
  match Qnum q with
  | Z0 => Some 0%Q
  | Zpos n => nearest (Zpos n) (Zpos (Qden q))
  | Zneg n => option_map Qopp (nearest (Zpos n) (Zpos (Qden q)))
  end.

Definition pow10 (n : Z) : Q :=
  if 0 <=? n then inject_Z (10 ^ n) else Qmake 1 (Z.to_pos (10 ^ (- n))).

(** The [n] with [10 ^ (n - 1) <= v < 10 ^ n], for [0 < v]: an estimate
    from the binary logarithm, corrected upwards. *)
Fixpoint magnitude_from (fuel : nat) (v : Q) (n : Z) : Z :=
  match fuel with
  | O => n
  | S fuel' => if Qle_bool (pow10 n) v then magnitude_from fuel' v (n + 1) else n
  end.

Definition magnitude (v : Q) : Z :=
  let e := Z.log2 (Qnum v) - Z.log2 (Zpos (Qden v)) in
  magnitude_from 4 v ((e - 1) * 30102 / 100000 - 1).

(** Whether the numeral [c] reads back as the double [v]. *)
Definition reads_as (v c : Q) : bool :=
  match toNumber c with Some v' => Qeq_bool v' v | None => false end.

(** The decimal with the fewest significant digits that reads back as
    [v], for [0 < v]; of two with that many digits the one nearer to [v],
    and the even one if they are as near.  Seventeen digits always
    do. *)
Fixpoint shortest_from (fuel : nat) (v : Q) (n k : Z) : Q :=
  match fuel with
  | O => v
  | S fuel' =>
      let scale := pow10 (n - k) in
      let s := Qfloor (v / scale) in
      let lo := (inject_Z s * scale)%Q in
      let hi := (inject_Z (s + 1) * scale)%Q in
      match reads_as v lo, reads_as v hi with
      | true, false => lo
      | false, true => hi
      | true, true =>
          match ((v - lo) ?= (hi - v))%Q with
          | Lt => lo
          | Gt => hi
          | Eq => if Z.even s then lo else hi
          end
      | false, false => shortest_from fuel' v n (k + 1)
      end
  end.

Definition shortest (v : Q) : Q := Qred (shortest_from 17 v (magnitude v) 1).

(** [Number::toString] of a finite double, as the rational the text
    denotes. *)
Definition toString (v : Q) : Q :=
  match Qnum v with
  | Z0 => 0%Q
  | Zpos _ => shortest v
  | Zneg _ => Qred (- shortest (- v))
  end.

End JsNumber.

(* ===================================================================== *)
(** * Data model *)
(* ===================================================================== *)

(** The value of a JSON text: what the text says, a numeral being the
    rational it denotes and an object the list of its members as
    written.  A numeral for minus zero ([-0], [-0.0], ...) is told apart
    from the numerals for zero, as [JSON.parse] tells them apart. *)
Unset Elimination Schemes.
Inductive json : Type :=
| JNull
| JBool (b : bool)
| JNum (n : Q)
| JStr (s : Js.str)
| JArr (items : list json)
| JObj (fields : list (Js.str * json))
| JNegZero.
Set Elimination Schemes.

(** [JSON.parse] and [JSON.stringify], between the value of a text and
    the JavaScript value it is read as. *)
Module Json.

(** A JavaScript value of the kind [JSON.parse] returns.  A number is a
    finite double or, as [None], an infinity; the two zeros are one
    here, [JSON.stringify] writing both as [0].  An object is its own
    properties in order of creation. *)
Unset Elimination Schemes.
Inductive value : Type :=
| Null
| Bool (b : bool)
| Num (n : option Q)
| Str (s : Js.str)
| Arr (items : list value)
| Obj (properties : list (Js.str * value)).
Set Elimination Schemes.

(** [CreateDataProperty]: a key already there keeps its place and takes
    the new value. *)
Fixpoint define {A} (k : Js.str) (v : A) (props : list (Js.str * A))
  : list (Js.str * A) :=
  match props with
  | [] => [(k, v)]
  | (k', v') :: rest =>
      if Js.str_eqb k k' then (k, v) :: rest else (k', v') :: define k v rest
  end.

(** The object built from the members of an object literal, read from
    left to right. *)
Definition object_of {A} (members : list (Js.str * A)) : list (Js.str * A) :=
  fold_left (fun props m => define (fst m) (snd m) props) members [].

Fixpoint digits (s : Js.str) (acc : N) : option N :=
  match s with
  | [] => Some acc
  | c :: rest =>
      if ((48 <=? c) && (c <=? 57))%N
      then digits rest (10 * acc + (c - 48))%N
      else None
  end.

(** The array index a property key denotes, if any: the canonical decimal
    of an integer from 0 to 2^32 - 2. *)
Definition array_index (k : Js.str) : option N :=
  match k with
  | [] => None
  | 48%N :: _ :: _ => None
  | _ =>
      match digits k 0%N with
      | Some n => if (n <=? 4294967294)%N then Some n else None
      | None => None
      end
  end.

Fixpoint insert_index {A} (n : N) (p : A) (sorted : list (N * A))
  : list (N * A) :=
  match sorted with
  | [] => [(n, p)]
  | (m, q) :: rest =>
      if (n <? m)%N then (n, p) :: sorted else (m, q) :: insert_index n p rest
  end.

(** [OrdinaryOwnPropertyKeys]: the properties whose keys are array
    indices in ascending order, then the others in order of creation. *)
Definition own_properties {A} (props : list (Js.str * A)) : list (Js.str * A) :=
  map snd
    (fold_left (fun sorted p =>
                  match array_index (fst p) with
                  | Some n => insert_index n p sorted
                  | None => sorted
                  end) props [])
  ++ filter (fun p => match array_index (fst p) with
                      | Some _ => false
                      | None => true
                      end) props.

(** [JSON.parse(text)] for a text of value [v]. *)
Fixpoint parse (v : json) : value :=
  match v with
  | JNull => Null
  | JBool b => Bool b
  | JNum q => Num (JsNumber.toNumber q)
  | JNegZero => Num (Some 0)
  | JStr s => Str s
  | JArr items => Arr (map parse items)
  | JObj members =>
      Obj (object_of
             (map (fun m => match m with (k, x) => (k, parse x) end) members))
  end.

(** The value of the text [JSON.stringify(v)]: an infinity is written
    [null]. *)
Fixpoint stringify (v : value) : json :=
  match v with
  | Null => JNull
  | Bool b => JBool b
  | Num (Some d) => JNum (JsNumber.toString d)
  | Num None => JNull
  | Str s => JStr s
  | Arr items => JArr (map stringify items)
  | Obj props =>
      JObj (own_properties
              (map (fun p => match p with (k, x) => (k, stringify x) end) props))
  end.

(** What a text of value [v] says after it has been read and written
    again. *)
Definition reread (v : json) : json := stringify (parse v).

End Json.

(** [interface Publication] *)
Module Publication.
Record t : Type := make
  { _id : Js.str;
    name : Js.str;
    language : Js.str;
    monthlyPrice : Q }.
End Publication.

(** [interface Subscription]; [PublicationRef] is its anonymous member
    type [{ _id: string }]. *)
Module PublicationRef.
Record t : Type := make { _id : Js.str }.
End PublicationRef.

Module Subscription.
Record t : Type := make
  { publication : PublicationRef.t;
    customerName : Js.str }.
End Subscription.

(** ["qr" | "cod"] *)
Inductive PaymentMethod : Type := qr | cod.

(** The object literal [newPayment] of [handlePayNow]; [status] is the
    constant ["paid"]. *)
Module Payment.
Record t : Type := make
  { id : Js.str;
    subscriptionName : Js.str;
    amount : Q;
    dueDate : Js.str;
    status : Js.str;
    paidDate : Js.str }.

(** The object as a JavaScript value, keys in the order of the
    literal. *)
Definition value (p : t) : Json.value :=
  Json.Obj [ (Js.lit "id", Json.Str (id p));
             (Js.lit "subscriptionName", Json.Str (subscriptionName p));
             (Js.lit "amount", Json.Num (JsNumber.toNumber (amount p)));
             (Js.lit "dueDate", Json.Str (dueDate p));
             (Js.lit "status", Json.Str (status p));
             (Js.lit "paidDate", Json.Str (paidDate p)) ].

(** What [JSON.stringify] writes for the object. *)
Definition to_json (p : t) : json :=
  JObj [ (Js.lit "id", JStr (id p));
         (Js.lit "subscriptionName", JStr (subscriptionName p));
         (Js.lit "amount", Json.stringify (Json.Num (JsNumber.toNumber (amount p))));
         (Js.lit "dueDate", JStr (dueDate p));
         (Js.lit "status", JStr (status p));
         (Js.lit "paidDate", JStr (paidDate p)) ].
End Payment.

(** The body of the subscribe POST. *)
Module SubscribeBody.
Record t : Type := make
  { customerName : Js.str;
    publicationId : Js.str;
    amount : Q }.
End SubscribeBody.

(** The [useState] cells of the component. *)
Record State : Type := mkState
  { publications : list Publication.t;
    subscriptions : list Subscription.t;
    selectedPub : option Publication.t;
    showModal : bool;
    customerNameInput : Js.str;
    paymentMethod : PaymentMethod;
    loading : bool }.

(** The state of a freshly mounted component. *)
Definition initialState : State :=
  {| publications := []; subscriptions := []; selectedPub := None;
     showModal := false; customerNameInput := []; paymentMethod := qr;
     loading := false |}.

(* ===================================================================== *)
(** * The browser around the component *)
(* ===================================================================== *)

(** What the [localStorage] key "payments" holds, told apart by what
    [JSON.parse(localStorage.getItem("payments") || "[]")] makes of it. *)
Inductive Cell : Type :=
| Absent            (** no such key: [getItem] returns [null] *)
| EmptyText         (** the empty string: falsy, and not a JSON text *)
| Garbled           (** a non-empty string that [JSON.parse] rejects *)
| Holds (v : json)  (** a JSON text of value [v] *).

(** Whether the stored string is a JSON text. *)
Definition valid_json (c : Cell) : bool :=
  match c with Holds _ => true | _ => false end.

(** The ledger a cell stands for: the array it holds; a missing or empty
    value counts as the empty array, anything else is no ledger. *)
Definition ledger (c : Cell) : option (list json) :=
  match c with
  | Absent | EmptyText => Some []
  | Holds (JArr items) => Some items
  | _ => None
  end.

(** How a failed axios call reports: without a response (network error,
    timeout), or with the server's response, whose body may carry a
    [message]. *)
Inductive AxiosError : Type :=
| NoResponse
| ErrorResponse (message : option Js.str).

(** What a [catch (error: any)] clause of the component can receive. *)
Inductive JsError : Type :=
| OfAxios (e : AxiosError)
| SyntaxError          (** [JSON.parse] on a malformed text *)
| TypeError            (** [existingPayments.push] on a non-array *)
| QuotaExceededError   (** [localStorage.setItem] on a full store *)
| URIError             (** [encodeURIComponent] on a lone surrogate *)
| RangeError           (** [toISOString] on an invalid date *).

(** [error.response?.data?.message] *)
Definition response_message (error : JsError) : option Js.str :=
  match error with
  | OfAxios (ErrorResponse message) => message
  | _ => None
  end.

(** [value || fallback] for an optional string: [undefined] and the empty
    string are both falsy. *)
Definition or_else (value : option Js.str) (fallback : Js.str) : Js.str :=
  match value with
  | Some s => if Js.truthy s then s else fallback
  | None => fallback
  end.

(** [data || []] for an optional array: every array is truthy. *)
Definition or_empty {A : Type} (data : option (list A)) : list A :=
  match data with Some l => l | None => [] end.

(** What the component does to the outside, in order of occurrence. *)
Inductive Event : Type :=
| toast_error (message : Js.str)
| toast_success (message : Js.str)
| console_error (label : Js.str) (error : JsError)
| get_publications
    (** [axios.get(API_BASE + "/customer/publications")] *)
| get_subscriptions (customerName : Js.str)
    (** [axios.get(API_BASE + "/customer/subscriptions?customerName="
        + encodeURIComponent(customerName))] *)
| post_subscribe (body : SubscribeBody.t)
    (** [axios.post(API_BASE + "/customer/subscriptions/subscribe", body)] *)
| dispatchEvent (type : Js.str)
| navigate (path : Js.str).

(** A request in flight, with what its continuation holds in its closure:
    [handlePayNow] keeps the [selectedPub] and [customerNameInput] of the
    render it was called from. *)
Inductive Request : Type :=
| CatalogRequest
| LookupRequest
| SubscribeRequest (selectedPub : Publication.t) (customerNameInput : Js.str).

(** How a promise settles. *)
Inductive Settled (A : Type) : Type :=
| Fulfilled (data : A)
| Rejected (error : AxiosError).
Arguments Fulfilled {A} data.
Arguments Rejected {A} error.

(** The reply to a request; [None] as the data of a GET is a falsy
    [response.data]. *)
Inductive Reply : Type :=
| CatalogReply (r : Settled (option (list Publication.t)))
| LookupReply (r : Settled (option (list Subscription.t)))
| SubscribeReply (r : Settled unit).

Record World : Type := mkWorld
  { ui : State;                 (** the component *)
    payments : Cell;            (** [localStorage], key "payments" *)
    storageFull : bool;         (** whether [setItem] is refused *)
    clock : nat -> Z;           (** the successive readings of the clock,
                                    in milliseconds since the epoch *)
    reads : nat;                (** how many have been taken *)
    tz : JsDate.TimeZone;
    log : list Event;           (** oldest first *)
    inflight : list Request;    (** oldest first *)
    mounted : bool }.

Definition with_ui (f : State -> State) (w : World) : World :=
  {| ui := f (ui w); payments := payments w; storageFull := storageFull w;
     clock := clock w; reads := reads w; tz := tz w; log := log w;
     inflight := inflight w; mounted := mounted w |}.

Definition with_payments (c : Cell) (w : World) : World :=
  {| ui := ui w; payments := c; storageFull := storageFull w;
     clock := clock w; reads := reads w; tz := tz w; log := log w;
     inflight := inflight w; mounted := mounted w |}.

Definition with_reads (n : nat) (w : World) : World :=
  {| ui := ui w; payments := payments w; storageFull := storageFull w;
     clock := clock w; reads := n; tz := tz w; log := log w;
     inflight := inflight w; mounted := mounted w |}.

Definition with_log (l : list Event) (w : World) : World :=
  {| ui := ui w; payments := payments w; storageFull := storageFull w;
     clock := clock w; reads := reads w; tz := tz w; log := l;
     inflight := inflight w; mounted := mounted w |}.

Definition with_inflight (l : list Request) (w : World) : World :=
  {| ui := ui w; payments := payments w; storageFull := storageFull w;
     clock := clock w; reads := reads w; tz := tz w; log := log w;
     inflight := l; mounted := mounted w |}.

Definition with_mounted (b : bool) (w : World) : World :=
  {| ui := ui w; payments := payments w; storageFull := storageFull w;
     clock := clock w; reads := reads w; tz := tz w; log := log w;
     inflight := inflight w; mounted := b |}.

Definition with_storage (c : Cell) (full : bool) (w : World) : World :=
  {| ui := ui w; payments := c; storageFull := full;
     clock := clock w; reads := reads w; tz := tz w; log := log w;
     inflight := inflight w; mounted := mounted w |}.

(* ===================================================================== *)
(** * Handlers as computations *)
(* ===================================================================== *)

(** How a computation ends: normally, or by throwing. *)
Inductive Outcome (A : Type) : Type :=
| Return (a : A)
| Throw (error : JsError).
Arguments Return {A} a.
Arguments Throw {A} error.

(** A computation over the world.  The world is threaded through a throw:
    what was written before it stays written. *)
Definition M (A : Type) : Type := World -> Outcome A * World.

Definition ret {A} (a : A) : M A := fun w => (Return a, w).

Definition bind {A B} (c : M A) (k : A -> M B) : M B :=
  fun w =>
    match c w with
    | (Return a, w') => k a w'
    | (Throw e, w') => (Throw e, w')
    end.

Definition throw {A} (e : JsError) : M A := fun w => (Throw e, w).

(** [try { c } catch (error) { handler error }] *)
Definition try_catch {A} (c : M A) (handler : JsError -> M A) : M A :=
  fun w =>
    match c w with
    | (Return a, w') => (Return a, w')
    | (Throw e, w') => handler e w'
    end.

(** [try { c } finally { cleanup }]: the cleanup runs either way; the
    outcome is that of [c] unless the cleanup itself throws. *)
Definition try_finally {A} (c : M A) (cleanup : M unit) : M A :=
  fun w =>
    let (o, w') := c w in
    match cleanup w' with
    | (Return _, w'') => (o, w'')
    | (Throw e, w'') => (Throw e, w'')
    end.

Declare Scope js_scope.
Delimit Scope js_scope with js.
Notation "x <- c ;; k" := (bind c (fun x => k))
  (at level 61, c at next level, right associativity) : js_scope.
Notation "c ;; k" := (bind c (fun _ => k))
  (at level 61, right associativity) : js_scope.
Local Open Scope js_scope.

Definition modify (f : World -> World) : M unit := fun w => (Return tt, f w).
Definition gets {A} (f : World -> A) : M A := fun w => (Return (f w), w).

(** The world a computation leaves, and how it ended. *)
Definition exec {A} (c : M A) (w : World) : World := snd (c w).
Definition outcome {A} (c : M A) (w : World) : Outcome A := fst (c w).

(** ** The [useState] setters *)

(** The state with one cell replaced. *)
Definition set_publications (v : list Publication.t) (s : State) : State :=
  {| publications := v;
     subscriptions := subscriptions s;
     selectedPub := selectedPub s;
     showModal := showModal s;
     customerNameInput := customerNameInput s;
     paymentMethod := paymentMethod s;
     loading := loading s |}.

Definition set_subscriptions (v : list Subscription.t) (s : State) : State :=
  {| publications := publications s;
     subscriptions := v;
     selectedPub := selectedPub s;
     showModal := showModal s;
     customerNameInput := customerNameInput s;
     paymentMethod := paymentMethod s;
     loading := loading s |}.

Definition set_selectedPub (v : option Publication.t) (s : State) : State :=
  {| publications := publications s;
     subscriptions := subscriptions s;
     selectedPub := v;
     showModal := showModal s;
     customerNameInput := customerNameInput s;
     paymentMethod := paymentMethod s;
     loading := loading s |}.

Definition set_showModal (v : bool) (s : State) : State :=
  {| publications := publications s;
     subscriptions := subscriptions s;
     selectedPub := selectedPub s;
     showModal := v;
     customerNameInput := customerNameInput s;
     paymentMethod := paymentMethod s;
     loading := loading s |}.

Definition set_customerNameInput (v : Js.str) (s : State) : State :=
  {| publications := publications s;
     subscriptions := subscriptions s;
     selectedPub := selectedPub s;
     showModal := showModal s;
     customerNameInput := v;
     paymentMethod := paymentMethod s;
     loading := loading s |}.

Definition set_paymentMethod (v : PaymentMethod) (s : State) : State :=
  {| publications := publications s;
     subscriptions := subscriptions s;
     selectedPub := selectedPub s;
     showModal := showModal s;
     customerNameInput := customerNameInput s;
     paymentMethod := v;
     loading := loading s |}.

Definition set_loading (v : bool) (s : State) : State :=
  {| publications := publications s;
     subscriptions := subscriptions s;
     selectedPub := selectedPub s;
     showModal := showModal s;
     customerNameInput := customerNameInput s;
     paymentMethod := paymentMethod s;
     loading := v |}.

Definition setPublications (v : list Publication.t) : M unit :=
  modify (with_ui (set_publications v)).

Definition setSubscriptions (v : list Subscription.t) : M unit :=
  modify (with_ui (set_subscriptions v)).

Definition setSelectedPub (v : option Publication.t) : M unit :=
  modify (with_ui (set_selectedPub v)).

Definition setShowModal (v : bool) : M unit :=
  modify (with_ui (set_showModal v)).

Definition setCustomerNameInput (v : Js.str) : M unit :=
  modify (with_ui (set_customerNameInput v)).

Definition setPaymentMethod (v : PaymentMethod) : M unit :=
  modify (with_ui (set_paymentMethod v)).

Definition setLoading (v : bool) : M unit :=
  modify (with_ui (set_loading v)).

(** ** The browser's operations *)

Definition emit (e : Event) : M unit :=
  modify (fun w => with_log (log w ++ [e]) w).

(** An axios call: the request leaves, and stays in flight until its reply
    comes. *)
Definition send (e : Event) (r : Request) : M unit :=
  emit e ;; modify (fun w => with_inflight (inflight w ++ [r]) w).

(** [await promise] once the promise has settled. *)
Definition await {A} (r : Settled A) : M A :=
  match r with
  | Fulfilled data => ret data
  | Rejected error => throw (OfAxios error)
  end.

(** One reading of the clock: [Date.now()], or the time value of a
    [new Date()]. *)
Definition now : M Z :=
  fun w => (Return (clock w (reads w)), with_reads (S (reads w)) w).

(** [encodeURIComponent(s)], for whether it throws. *)
Definition encodeURIComponent (s : Js.str) : M unit :=
  if Js.well_formed s then ret tt else throw URIError.

(** [new Date()]: a date object holding the reading of the clock. *)
Definition new_Date : M (option Z) :=
  t <- now ;;
  ret (JsDate.TimeClip t).

(** [d.toISOString()] *)
Definition toISOString (d : option Z) : M Js.str :=
  match JsDate.toISOString d with
  | Some text => ret text
  | None => throw RangeError
  end.

(** [JSON.parse(localStorage.getItem("payments") || "[]")] *)
Definition parse_payments : M Json.value :=
  c <- gets payments ;;
  match c with
  | Absent | EmptyText => ret (Json.Arr [])
  | Garbled => throw SyntaxError
  | Holds v => ret (Json.parse v)
  end.

(** [existingPayments.push(newPayment)]: the array as it is afterwards. *)
Definition push (existingPayments : Json.value) (newPayment : Json.value)
    : M Json.value :=
  match existingPayments with
  | Json.Arr items => ret (Json.Arr (items ++ [newPayment]))
  | _ => throw TypeError
  end.

(** [localStorage.setItem("payments", JSON.stringify(v))] *)
Definition store_payments (v : Json.value) : M unit :=
  full <- gets storageFull ;;
  if full then throw QuotaExceededError
  else modify (with_payments (Holds (Json.stringify v))).

(* ===================================================================== *)
(** * The component [NewSubscription] *)
(* ===================================================================== *)

(** ** [fetchPublications] *)

Definition fetchPublications_catch (error : JsError) : M unit :=
  emit (console_error (Js.lit "Error fetching publications:") error) ;;
  emit (toast_error
          (or_else (response_message error)
                   (Js.lit "Failed to fetch available publications"))).

Definition fetchPublications : M unit :=
  try_catch (send get_publications CatalogRequest) fetchPublications_catch.

Definition fetchPublications_settled
    (r : Settled (option (list Publication.t))) : M unit :=
  try_catch
    (data <- await r ;;
     setPublications (or_empty data))
    fetchPublications_catch.

(** ** [fetchSubscriptions] *)

Definition fetchSubscriptions_catch (error : JsError) : M unit :=
  emit (console_error (Js.lit "Error fetching subscriptions:") error) ;;
  emit (toast_error
          (or_else (response_message error)
                   (Js.lit "Failed to fetch subscriptions"))).

Definition fetchSubscriptions (name : Js.str) : M unit :=
  if negb (Js.truthy (Js.trim name)) then
    setSubscriptions []
  else
    try_catch
      (encodeURIComponent name ;;
       send (get_subscriptions name) LookupRequest)
      fetchSubscriptions_catch.

Definition fetchSubscriptions_settled
    (r : Settled (option (list Subscription.t))) : M unit :=
  try_catch
    (data <- await r ;;
     setSubscriptions (or_empty data))
    fetchSubscriptions_catch.

(** ** [handleSubscribeClick] *)

Definition handleSubscribeClick (pub : Publication.t) : M unit :=
  setSelectedPub (Some pub) ;;
  setShowModal true.

(** ** [handlePayNow] *)

(** The text of [dueDate], given the reading of the [new Date()] that
    receives [setDate] and the reading of the one that receives
    [getDate]; [None] when [toISOString] throws. *)
Definition dueDateAt (zone : JsDate.TimeZone) (t_set t_get : Z)
    : option Js.str :=
  JsDate.toISOString
    (JsDate.ofValue
       (JsDate.setDate zone (JsDate.TimeClip t_set)
          (JsDate.plus (JsDate.getDate zone (JsDate.TimeClip t_get)) 30))).

(** The object literal [newPayment], given the four readings of the clock
    it takes: [Date.now()], the two of [dueDate], and the [new Date()] of
    [paidDate]; [None] when one of the dates is invalid. *)
Definition paymentAt (zone : JsDate.TimeZone) (selectedPub : Publication.t)
    (t_id t_set t_get t_paid : Z) : option Payment.t :=
  match dueDateAt zone t_set t_get,
        JsDate.toISOString (JsDate.TimeClip t_paid) with
  | Some dueDate, Some paidDate =>
      Some {| Payment.id := Js.of_Z t_id;
              Payment.subscriptionName := Publication.name selectedPub;
              Payment.amount := Publication.monthlyPrice selectedPub;
              Payment.dueDate := dueDate;
              Payment.status := Js.lit "paid";
              Payment.paidDate := paidDate |}
  | _, _ => None
  end.

(** The literal as the handler evaluates it: the readings are taken in
    the order of the members, and a [toISOString] that throws ends the
    evaluation. *)
Definition newPayment (selectedPub : Publication.t) : M Payment.t :=
  zone <- gets tz ;;
  t_id <- now ;;
  d_set <- new_Date ;;
  d_get <- new_Date ;;
  dueDate <- toISOString
               (JsDate.ofValue
                  (JsDate.setDate zone d_set
                     (JsDate.plus (JsDate.getDate zone d_get) 30))) ;;
  d_paid <- new_Date ;;
  paidDate <- toISOString d_paid ;;
  ret {| Payment.id := Js.of_Z t_id;
         Payment.subscriptionName := Publication.name selectedPub;
         Payment.amount := Publication.monthlyPrice selectedPub;
         Payment.dueDate := dueDate;
         Payment.status := Js.lit "paid";
         Payment.paidDate := paidDate |}.

Definition handlePayNow_catch (error : JsError) : M unit :=
  emit (console_error (Js.lit "Subscription error:") error) ;;
  emit (toast_error
          (or_else (response_message error) (Js.lit "Subscription failed"))).

(** The call, up to the [await] of the POST.  Nothing between [try] and
    the [await] can throw, so the [try] has nothing to say here. *)
Definition handlePayNow : M unit :=
  customerNameInput <- gets (fun w => customerNameInput (ui w)) ;;
  selectedPub <- gets (fun w => selectedPub (ui w)) ;;
  if negb (Js.truthy (Js.trim customerNameInput)) then
    emit (toast_error (Js.lit "Please enter your name"))
  else
    match selectedPub with
    | None => ret tt
    | Some pub =>
        setLoading true ;;
        send (post_subscribe
                {| SubscribeBody.customerName := Js.trim customerNameInput;
                   SubscribeBody.publicationId := Publication._id pub;
                   SubscribeBody.amount := Publication.monthlyPrice pub |})
             (SubscribeRequest pub customerNameInput)
    end.

(** The rest of the [try] block, after the [await]. *)
Definition handlePayNow_confirmed
    (selectedPub : Publication.t) (customerNameInput : Js.str) : M unit :=
  payment <- newPayment selectedPub ;;
  existingPayments <- parse_payments ;;
  existingPayments <- push existingPayments (Payment.value payment) ;;
  store_payments existingPayments ;;
  emit (dispatchEvent (Js.lit "billsUpdated")) ;;
  emit (toast_success
          (Js.lit "Subscribed to " ++ Publication.name selectedPub
             ++ Js.lit " successfully!")) ;;
  setShowModal false ;;
  fetchSubscriptions customerNameInput ;;
  emit (navigate (Js.lit "/payments")).

Definition handlePayNow_settled
    (selectedPub : Publication.t) (customerNameInput : Js.str)
    (r : Settled unit) : M unit :=
  try_finally
    (try_catch
       (await r ;;
        handlePayNow_confirmed selectedPub customerNameInput)
       handlePayNow_catch)
    (setLoading false).

(** ** [isSubscribed] and the "Pay Now" control *)

Definition isSubscribed (s : State) (pubId : Js.str) : bool :=
  existsb
    (fun sub =>
       Js.str_eqb (PublicationRef._id (Subscription.publication sub)) pubId)
    (subscriptions s).

(** The button at the bottom of the dialog. *)
Record Control : Type := mkControl
  { disabled : bool;
    label : Js.str }.

(** The dialog is rendered when [showModal && selectedPub]; the control is
    part of it. *)
Definition dialog (s : State) : option Publication.t :=
  if showModal s then selectedPub s else None.

Definition payNowControl (s : State) : option Control :=
  match dialog s with
  | Some pub =>
      Some {| disabled := loading s || isSubscribed s (Publication._id pub);
              label :=
                if loading s then Js.lit "Processing..."
                else if isSubscribed s (Publication._id pub)
                     then Js.lit "Already Subscribed"
                     else Js.lit "Pay Now" |}
  | None => None
  end.

(* ===================================================================== *)
(** * The flow as a transition system *)
(* ===================================================================== *)

(** What can happen to a mounted component: the user acts on what is
    rendered, a request in flight settles, or the rest of the application
    writes the storage. *)
Inductive Action : Type :=
| Mount                                  (** [useEffect(..., [])] *)
| ClickSubscribe (i : nat)               (** the button of the [i]-th item *)
| CloseDialog                            (** the close button *)
| ChangeName (value : Js.str)            (** [onChange] of the name field *)
| ChoosePayment (m : PaymentMethod)      (** the radio buttons *)
| ClickPayNow                            (** [onClick] of the control *)
| Settle (i : nat) (reply : Reply)       (** the [i]-th request settles *)
| StorageChanged (c : Cell) (full : bool).

Fixpoint remove_at {A} (i : nat) (l : list A) : list A :=
  match l, i with
  | [], _ => []
  | _ :: rest, O => rest
  | x :: rest, S j => x :: remove_at j rest
  end.

(** The continuation a reply wakes up, when the reply is of the kind the
    request expects. *)
Definition continuation (req : Request) (reply : Reply) : option (M unit) :=
  match req, reply with
  | CatalogRequest, CatalogReply r => Some (fetchPublications_settled r)
  | LookupRequest, LookupReply r => Some (fetchSubscriptions_settled r)
  | SubscribeRequest pub input, SubscribeReply r =>
      Some (handlePayNow_settled pub input r)
  | _, _ => None
  end.

(** The handler an action runs in a world, if the action is possible
    there. *)
Definition react (a : Action) (w : World) : option (M unit) :=
  match a with
  | Mount =>
      if mounted w then None
      else Some (modify (with_mounted true) ;; fetchPublications)
  | ClickSubscribe i =>
      match nth_error (publications (ui w)) i with
      | Some pub => Some (handleSubscribeClick pub)
      | None => None
      end
  | CloseDialog =>
      match dialog (ui w) with
      | Some _ => Some (setShowModal false)
      | None => None
      end
  | ChangeName value =>
      match dialog (ui w) with
      | Some _ => Some (setCustomerNameInput value ;; fetchSubscriptions value)
      | None => None
      end
  | ChoosePayment m =>
      match dialog (ui w) with
      | Some _ => Some (setPaymentMethod m)
      | None => None
      end
  | ClickPayNow =>
      match payNowControl (ui w) with
      | Some c => if disabled c then None else Some handlePayNow
      | None => None
      end
  | Settle i reply =>
      match nth_error (inflight w) i with
      | Some req =>
          match continuation req reply with
          | Some k =>
              Some (modify (fun w => with_inflight (remove_at i (inflight w)) w) ;; k)
          | None => None
          end
      | None => None
      end
  | StorageChanged c full => Some (modify (with_storage c full))
  end.

Definition step (a : Action) (w : World) : option (Outcome unit * World) :=
  match react a w with
  | Some handler => Some (handler w)
  | None => None
  end.

(** A world in which the component has just been created. *)
Definition fresh (w : World) : Prop :=
  ui w = initialState /\ log w = [] /\ inflight w = [] /\ mounted w = false.

Inductive reachable : World -> Prop :=
| reachable_fresh : forall w, fresh w -> reachable w
| reachable_step : forall w a o w',
    reachable w -> step a w = Some (o, w') -> reachable w'.

(** Running a list of actions; [None] when one of them is not possible or
    its handler throws. *)
Fixpoint run (actions : list Action) (w : World) : option World :=
  match actions with
  | [] => Some w
  | a :: rest =>
      match step a w with
      | Some (Return _, w') => run rest w'
      | _ => None
      end
  end.

(** ** Counting *)

Definition is_dispatch (type : Js.str) (e : Event) : bool :=
  match e with
  | dispatchEvent t => Js.str_eqb t type
  | _ => false
  end.

Definition is_request (e : Event) : bool :=
  match e with
  | get_publications | get_subscriptions _ | post_subscribe _ => true
  | _ => false
  end.

Definition is_toast_error (e : Event) : bool :=
  match e with toast_error _ => true | _ => false end.

Definition is_subscribe (r : Request) : bool :=
  match r with SubscribeRequest _ _ => true | _ => false end.

Definition is_catalog (r : Request) : bool :=
  match r with CatalogRequest => true | _ => false end.

Definition count {A} (p : A -> bool) (l : list A) : nat :=
  List.length (filter p l).

(** The events a step has added to the log. *)
Definition added (before after : World) : list Event :=
  skipn (List.length (log before)) (log after).

(** ** A world to try things in *)

Definition dailyTimes : Publication.t :=
  {| Publication._id := Js.lit "p1"; Publication.name := Js.lit "Daily Times";
     Publication.language := Js.lit "en"; Publication.monthlyPrice := 100 |}.

Definition utc : JsDate.TimeZone := fun _ _ => 0%Z.

(** A stopped clock at 2024-01-15T10:00:00.000Z. *)
Definition world0 (c : Cell) : World :=
  {| ui := initialState; payments := c; storageFull := false;
     clock := fun _ => 1705312800000%Z; reads := 0; tz := utc;
     log := []; inflight := []; mounted := false |}.

Definition asha : Js.str := Js.lit "Asha".

Definition scenarioA : list Action :=
  [ Mount; Settle 0 (CatalogReply (Fulfilled (Some [dailyTimes])));
    ClickSubscribe 0; ChangeName asha;
    Settle 0 (LookupReply (Fulfilled (Some [])));
    ClickPayNow; Settle 0 (SubscribeReply (Fulfilled tt)) ].

(* ===================================================================== *)
(** * Notions the statements use, and worlds to state them at *)
(* ===================================================================== *)

(** A world in which Asha is shown as subscribed to the Daily Times and
    the dialog is open on it. *)
Definition ashaSubscribed : World :=
  with_ui (fun _ =>
    {| publications := [dailyTimes];
       subscriptions :=
         [ {| Subscription.publication := {| PublicationRef._id := Js.lit "p1" |};
              Subscription.customerName := asha |} ];
       selectedPub := Some dailyTimes; showModal := true;
       customerNameInput := asha; paymentMethod := qr; loading := false |})
    (world0 Absent).

(** The message a failed call shows: the server's when there is a
    non-empty one, else the fallback of the call. *)
Definition shown (error : AxiosError) (fallback : Js.str) : Js.str :=
  match error with
  | ErrorResponse (Some message) =>
      match message with [] => fallback | _ :: _ => message end
  | _ => fallback
  end.

(** The events a call of [fetchSubscriptions] adds to the log. *)
Definition lookup_events (name : Js.str) : list Event :=
  if negb (Js.truthy (Js.trim name)) then []
  else if Js.well_formed name then [get_subscriptions name]
  else [ console_error (Js.lit "Error fetching subscriptions:") URIError;
         toast_error (Js.lit "Failed to fetch subscriptions") ].

(** The payment record of the specification for a subscription to [pub]
    created at [t]: due thirty days on, paid at once. *)
Definition paymentRecord (zone : JsDate.TimeZone) (pub : Publication.t)
    (t : Z) : Payment.t :=
  {| Payment.id := Js.of_Z t;
     Payment.subscriptionName := Publication.name pub;
     Payment.amount := Publication.monthlyPrice pub;
     Payment.dueDate :=
       JsDate.isoString
         (JsDate.UTC zone (JsDate.LocalTime zone t + 30 * JsDate.msPerDay));
     Payment.status := Js.lit "paid";
     Payment.paidDate := JsDate.isoString t |}.

(** The payment [handlePayNow] builds in world [w], from the next four
    readings of its clock; [None] when one of its dates is invalid. *)
Definition paymentIn (w : World) (pub : Publication.t) : option Payment.t :=
  paymentAt (tz w) pub
    (clock w (reads w)) (clock w (1 + reads w))
    (clock w (2 + reads w)) (clock w (3 + reads w)).

(** Whether the dates of that payment are within the range of [Date]. *)
Definition dates_in_range (w : World) : bool :=
  match dueDateAt (tz w) (clock w (1 + reads w)) (clock w (2 + reads w)),
        JsDate.toISOString (JsDate.TimeClip (clock w (3 + reads w))) with
  | Some _, Some _ => true
  | _, _ => false
  end.

(** The readings of the clock the literal takes: the one of [paidDate] is
    not taken when [dueDate] is out of range. *)
Definition readings (w : World) : nat :=
  match dueDateAt (tz w) (clock w (1 + reads w)) (clock w (2 + reads w)) with
  | Some _ => 4
  | None => 3
  end.

(** The world in which a confirmed subscription is recorded as [payment]
    after the entries [items], up to the lookup that follows.  The
    entries are written as [JSON.stringify] writes what [JSON.parse] has
    read of them. *)
Definition recorded (w : World) (pub : Publication.t) (payment : Payment.t)
    (items : list json) : World :=
  with_ui (set_showModal false)
    (with_log
       (log w ++
        [ dispatchEvent (Js.lit "billsUpdated");
          toast_success
            (Js.lit "Subscribed to " ++ Publication.name pub
               ++ Js.lit " successfully!") ])
       (with_payments
          (Holds (JArr (map Json.reread items ++ [Payment.to_json payment])))
          (with_reads (4 + reads w) w))).

(** What stops the local write after a confirmed POST, if anything: the
    first of the calls that throws. *)
Definition write_error (w : World) : option JsError :=
  if negb (dates_in_range w) then Some RangeError
  else
    match payments w with
    | Garbled => Some SyntaxError
    | Holds (JArr _) | Absent | EmptyText =>
        if storageFull w then Some QuotaExceededError else None
    | Holds _ => Some TypeError
    end.

(** The ledger cell that [JSON.parse] rejects, with a stopped clock. *)
Definition garbledLedger : World :=
  with_ui (fun _ =>
    {| publications := [dailyTimes]; subscriptions := [];
       selectedPub := Some dailyTimes; showModal := true;
       customerNameInput := asha; paymentMethod := qr; loading := true |})
    (world0 Garbled).

(** The same with the empty string in the cell. *)
Definition emptyLedgerText : World :=
  with_payments EmptyText garbledLedger.

(** A ledger with one older entry in it. *)
Definition oneOlderEntry : World :=
  with_payments (Holds (JArr [JStr (Js.lit "older")])) garbledLedger.

(** A ledger with three entries that are not written back as they
    are. *)
Definition unevenEntries : World :=
  with_payments
    (Holds (JArr [ JNum 9007199254740993; JNum (inject_Z (10 ^ 400));
                   JNegZero ]))
    garbledLedger.

(** An empty ledger and a clock stopped at the last instant of [Date]. *)
Definition lastDay : World :=
  {| ui := ui garbledLedger; payments := Absent; storageFull := false;
     clock := fun _ => JsDate.maxTime; reads := 0; tz := utc;
     log := []; inflight := []; mounted := true |}.

(** The dialog open on the Daily Times, [input] typed in the name field. *)
Definition typed (input : Js.str) : World :=
  with_ui (fun _ =>
    {| publications := [dailyTimes]; subscriptions := [];
       selectedPub := Some dailyTimes; showModal := true;
       customerNameInput := input; paymentMethod := qr; loading := false |})
    (world0 Absent).

(** "Pay Now" clicked with "Asha" typed: the POST is in flight. *)
Definition submitted : World := exec handlePayNow (typed asha).

Definition subscribedToP1 : Subscription.t :=
  {| Subscription.publication := {| PublicationRef._id := Js.lit "p1" |};
     Subscription.customerName := asha |}.

(** The lookup started by typing the name answers after "Pay Now" was
    clicked. *)
Definition lateLookup : list Action :=
  [ Mount; Settle 0 (CatalogReply (Fulfilled (Some [dailyTimes])));
    ClickSubscribe 0; ChangeName asha; ClickPayNow;
    Settle 0 (LookupReply (Fulfilled (Some [subscribedToP1]))) ].

(** [w'] differs from [w] at most in cells no invariant below looks at,
    and has [extra] added to the requests in flight. *)
Definition frames (w w' : World) (extra : list Request) : Prop :=
  loading (ui w') = loading (ui w)
  /\ publications (ui w') = publications (ui w)
  /\ mounted w' = mounted w
  /\ inflight w' = inflight w ++ extra.

(** [loading] says whether a subscribe POST is in flight, of which there
    is at most one; the catalog is fetched once, and the list is empty
    until its reply has come. *)
Record Inv (w : World) : Prop := mkInv
  { inv_loading :
      count is_subscribe (inflight w) = if loading (ui w) then 1%nat else 0%nat;
    inv_catalog :
      (count is_catalog (inflight w) <= if mounted w then 1 else 0)%nat;
    inv_empty :
      mounted w = false \/ count is_catalog (inflight w) = 1%nat ->
      publications (ui w) = [] }.

(** The dialog open on the Daily Times and "Pay Now" just clicked. *)
Definition submitting : list Action :=
  [ Mount; Settle 0 (CatalogReply (Fulfilled (Some [dailyTimes])));
    ClickSubscribe 0; ChangeName asha;
    Settle 0 (LookupReply (Fulfilled (Some []))); ClickPayNow ].

(** The server refuses the submission after the late lookup has shown the
    publication as subscribed. *)
Definition refusedAfterLateLookup : list Action :=
  lateLookup ++
  [ Settle 0 (SubscribeReply
                (Rejected (ErrorResponse (Some (Js.lit "Already active"))))) ].

(* ===================================================================== *)
(** * The HTTP client instance [axiosInstance] *)
(* ===================================================================== *)

(** The first document of src/lib/axios.ts: the axios instance with its
    two interceptors.  [localStorage] and the request headers are objects
    used as maps from names to strings. *)
Module AxiosInstance.

Definition Dict : Type := Js.str -> option Js.str.

Definition empty : Dict := fun _ => None.

(** [d[k] = v] *)
Definition put (k v : Js.str) (d : Dict) : Dict :=
  fun k' => if Js.str_dec k' k then Some v else d k'.

(** [localStorage.removeItem(k)] *)
Definition del (k : Js.str) (d : Dict) : Dict :=
  fun k' => if Js.str_dec k' k then None else d k'.

Definition BASE_URL : Js.str :=
  Js.lit "https://everydaynewsbackend.onrender.com/api".

(** A request configuration, as far as the instance looks at it. *)
Record Config : Type := mkConfig
  { baseURL : Js.str;
    withCredentials : bool;
    headers : Dict;
    url : Js.str }.

(** The configuration of a request for [url] made through the instance:
    the defaults given to [axios.create]. *)
Definition create (url : Js.str) : Config :=
  {| baseURL := BASE_URL;
     withCredentials := true;
     headers := put (Js.lit "Content-Type") (Js.lit "application/json") empty;
     url := url |}.

(** What the interceptors reach of the browser. *)
Record Browser : Type := mkBrowser
  { localStorage : Dict;
    href : Js.str           (** [window.location.href] *) }.

(** A response, and the error of a failed request: [status] is
    [error.response?.status]. *)
Record Response : Type := mkResponse
  { code : Z;
    data : Js.str }.

Record Error : Type := mkError
  { status : option Z;
    reason : Js.str }.

Inductive Promise (A : Type) : Type :=
| Resolve (a : A)
| Reject (error : Error).
Arguments Resolve {A} a.
Arguments Reject {A} error.

(** The request interceptor: [(config) => { ...; return config; }]. *)
Definition onRequest (b : Browser) (config : Config) : Config :=
  match localStorage b (Js.lit "jwt_token") with
  | Some token =>
      if Js.truthy token then
        {| baseURL := baseURL config;
           withCredentials := withCredentials config;
           headers :=
             put (Js.lit "Authorization") (Js.lit "Bearer " ++ token)
                 (headers config);
           url := url config |}
      else config
  | None => config
  end.

(** Its error side: [(error) => Promise.reject(error)]. *)
Definition onRequestError (error : Error) : Promise Config := Reject error.

(** The response interceptor: [(response) => response]. *)
Definition onResponse (response : Response) : Response := response.

(** Its error side. *)
Definition onResponseError (error : Error) (b : Browser)
    : Browser * Promise Response :=
  match status error with
  | Some s =>
      if Z.eqb s 401 then
        ({| localStorage :=
              del (Js.lit "user_data")
                  (del (Js.lit "jwt_token") (localStorage b));
            href := Js.lit "/login" |},
         Reject error)
      else (b, Reject error)
  | None => (b, Reject error)
  end.

(** A request through the instance: the request interceptor, the
    exchange with the server, which answers what is sent, and the
    response interceptor. *)
Definition request (server : Config -> Promise Response) (config : Config)
    (b : Browser) : Browser * Promise Response :=
  match server (onRequest b config) with
  | Resolve response => (b, Resolve (onResponse response))
  | Reject error => onResponseError error b
  end.

(** What is sent for [config] from browser [b]. *)
Definition sent (config : Config) (b : Browser) : Config := onRequest b config.

End AxiosInstance.

(* ===================================================================== *)
(** * What the steps of the flow can be *)
(* ===================================================================== *)

(** ** Events and actions by kind *)

Definition is_post (e : Event) : bool :=
  match e with post_subscribe _ => true | _ => false end.

Definition is_navigate (e : Event) : bool :=
  match e with navigate _ => true | _ => false end.

Definition is_toast_success (e : Event) : bool :=
  match e with toast_success _ => true | _ => false end.

Definition is_get_publications (e : Event) : bool :=
  match e with get_publications => true | _ => false end.

(** An action of the component, as opposed to the rest of the application
    writing the storage. *)
Definition by_component (a : Action) : bool :=
  match a with StorageChanged _ _ => false | _ => true end.

(** What can happen between a submission and its reply: anything but a
    reply to a submission and a write of the storage from outside. *)
Definition meanwhile (a : Action) : bool :=
  match a with
  | Settle _ (SubscribeReply _) | StorageChanged _ _ => false
  | _ => true
  end.

(** The reply that confirms a submission. *)
Definition confirms (a : Action) : bool :=
  match a with
  | Settle _ (SubscribeReply (Fulfilled _)) => true
  | _ => false
  end.

(** A string with something in it and no white space at either end. *)
Definition outer_space_free (s : Js.str) : bool :=
  match s with
  | [] => false
  | c :: _ => negb (Js.is_space c) && negb (Js.is_space (last s c))
  end.

(** A body made from one of the publications [pubs]. *)
Definition listed (pubs : list Publication.t) (body : SubscribeBody.t) : Prop :=
  exists p, In p pubs
            /\ SubscribeBody.publicationId body = Publication._id p
            /\ SubscribeBody.amount body = Publication.monthlyPrice p.

(** What every request of the flow has to be like. *)
Definition sound_request (pubs : list Publication.t) (e : Event) : Prop :=
  match e with
  | post_subscribe body =>
      outer_space_free (SubscribeBody.customerName body) = true
      /\ listed pubs body
  | get_subscriptions name =>
      Js.trim name <> [] /\ Js.well_formed name = true
  | _ => True
  end.

(** ** The steps, one by one *)

(** The world a possible step leaves, for each way an action can go.  In
    the replies, [w0] is the world with the request taken out of those in
    flight. *)
Inductive leaves (w : World) : Action -> World -> Prop :=
| leaves_mount :
    mounted w = false ->
    leaves w Mount
      (with_inflight (inflight w ++ [CatalogRequest])
         (with_log (log w ++ [get_publications]) (with_mounted true w)))
| leaves_select : forall i pub,
    nth_error (publications (ui w)) i = Some pub ->
    leaves w (ClickSubscribe i)
      (with_ui (set_showModal true) (with_ui (set_selectedPub (Some pub)) w))
| leaves_close : forall pub,
    dialog (ui w) = Some pub ->
    leaves w CloseDialog (with_ui (set_showModal false) w)
| leaves_name : forall pub value,
    dialog (ui w) = Some pub ->
    leaves w (ChangeName value)
      (exec (fetchSubscriptions value)
            (with_ui (set_customerNameInput value) w))
| leaves_method : forall pub m,
    dialog (ui w) = Some pub ->
    leaves w (ChoosePayment m) (with_ui (set_paymentMethod m) w)
| leaves_refused : forall pub,
    dialog (ui w) = Some pub ->
    loading (ui w) = false ->
    isSubscribed (ui w) (Publication._id pub) = false ->
    Js.trim (customerNameInput (ui w)) = [] ->
    leaves w ClickPayNow
      (with_log (log w ++ [toast_error (Js.lit "Please enter your name")]) w)
| leaves_posted : forall pub,
    dialog (ui w) = Some pub ->
    loading (ui w) = false ->
    isSubscribed (ui w) (Publication._id pub) = false ->
    Js.trim (customerNameInput (ui w)) <> [] ->
    leaves w ClickPayNow
      (with_inflight
         (inflight w ++ [SubscribeRequest pub (customerNameInput (ui w))])
         (with_log
            (log w ++
             [ post_subscribe
                 {| SubscribeBody.customerName :=
                      Js.trim (customerNameInput (ui w));
                    SubscribeBody.publicationId := Publication._id pub;
                    SubscribeBody.amount := Publication.monthlyPrice pub |} ])
            (with_ui (set_loading true) w)))
| leaves_catalog : forall i data,
    nth_error (inflight w) i = Some CatalogRequest ->
    leaves w (Settle i (CatalogReply (Fulfilled data)))
      (with_ui (set_publications (or_empty data))
         (with_inflight (remove_at i (inflight w)) w))
| leaves_catalog_failed : forall i error,
    nth_error (inflight w) i = Some CatalogRequest ->
    leaves w (Settle i (CatalogReply (Rejected error)))
      (with_log
         (log w ++
          [ console_error (Js.lit "Error fetching publications:")
              (OfAxios error);
            toast_error
              (shown error (Js.lit "Failed to fetch available publications")) ])
         (with_inflight (remove_at i (inflight w)) w))
| leaves_lookup : forall i data,
    nth_error (inflight w) i = Some LookupRequest ->
    leaves w (Settle i (LookupReply (Fulfilled data)))
      (with_ui (set_subscriptions (or_empty data))
         (with_inflight (remove_at i (inflight w)) w))
| leaves_lookup_failed : forall i error,
    nth_error (inflight w) i = Some LookupRequest ->
    leaves w (Settle i (LookupReply (Rejected error)))
      (with_log
         (log w ++
          [ console_error (Js.lit "Error fetching subscriptions:")
              (OfAxios error);
            toast_error (shown error (Js.lit "Failed to fetch subscriptions")) ])
         (with_inflight (remove_at i (inflight w)) w))
| leaves_rejected : forall i pub input error,
    nth_error (inflight w) i = Some (SubscribeRequest pub input) ->
    leaves w (Settle i (SubscribeReply (Rejected error)))
      (with_ui (set_loading false)
         (with_log
            (log w ++
             [ console_error (Js.lit "Subscription error:") (OfAxios error);
               toast_error (shown error (Js.lit "Subscription failed")) ])
            (with_inflight (remove_at i (inflight w)) w)))
| leaves_unrecorded : forall i pub input e,
    nth_error (inflight w) i = Some (SubscribeRequest pub input) ->
    write_error w = Some e ->
    leaves w (Settle i (SubscribeReply (Fulfilled tt)))
      (with_ui (set_loading false)
         (with_log
            (log w ++
             [ console_error (Js.lit "Subscription error:") e;
               toast_error (Js.lit "Subscription failed") ])
            (with_reads (readings w + reads w)
               (with_inflight (remove_at i (inflight w)) w))))
| leaves_recorded : forall i pub input payment items,
    nth_error (inflight w) i = Some (SubscribeRequest pub input) ->
    paymentIn w pub = Some payment ->
    ledger (payments w) = Some items ->
    storageFull w = false ->
    leaves w (Settle i (SubscribeReply (Fulfilled tt)))
      (with_ui (set_loading false)
         (with_log
            (log (exec (fetchSubscriptions input)
                       (recorded (with_inflight (remove_at i (inflight w)) w)
                                 pub payment items))
               ++ [navigate (Js.lit "/payments")])
            (exec (fetchSubscriptions input)
                  (recorded (with_inflight (remove_at i (inflight w)) w)
                            pub payment items))))
| leaves_storage : forall c full,
    leaves w (StorageChanged c full) (with_storage c full w).

(** ** What holds of every reachable world *)

(** The books of the flow: the catalog is asked for once, at mounting;
    every "billsUpdated" event comes with its success notification and its
    navigation, and after a POST that has settled; every request sent is
    sound, and the publication of the dialog is one of the list. *)
Record Books (w : World) : Prop := mkBooks
  { books_catalog :
      count is_get_publications (log w) = if mounted w then 1%nat else 0%nat;
    books_success :
      count is_toast_success (log w)
      = count (is_dispatch (Js.lit "billsUpdated")) (log w)
      /\ count is_navigate (log w)
         = count (is_dispatch (Js.lit "billsUpdated")) (log w);
    books_posts :
      (count (is_dispatch (Js.lit "billsUpdated")) (log w)
       + count is_subscribe (inflight w)
       <= count is_post (log w))%nat;
    books_requests :
      Forall (sound_request (publications (ui w))) (log w);
    books_selected :
      forall p, selectedPub (ui w) = Some p -> In p (publications (ui w));
    books_inflight :
      forall p input, In (SubscribeRequest p input) (inflight w) ->
                      Js.trim input <> [] }.

(** ** Worlds for the statements that follow *)

(** The world scenario A ends in. *)
Definition afterScenarioA : World :=
  Eval vm_compute in
    match run scenarioA (world0 Absent) with
    | Some w => w
    | None => world0 Absent
    end.

(** Two lookups in flight, the dialog open. *)
Definition twoLookups : World :=
  with_inflight [LookupRequest; LookupRequest] (typed asha).

(** A browser with a session, and the server that refuses it. *)
Definition loggedIn : AxiosInstance.Browser :=
  {| AxiosInstance.localStorage :=
       AxiosInstance.put (Js.lit "jwt_token") (Js.lit "abc")
         (AxiosInstance.put (Js.lit "user_data") (Js.lit "{}")
            (AxiosInstance.put (Js.lit "payments") (Js.lit "[]")
               AxiosInstance.empty));
     AxiosInstance.href := Js.lit "/payments" |}.

Definition unauthorized : AxiosInstance.Config ->
                          AxiosInstance.Promise AxiosInstance.Response :=
  fun _ => AxiosInstance.Reject
             {| AxiosInstance.status := Some 401%Z;
                AxiosInstance.reason := Js.lit "Unauthorized" |}.

(* ===================================================================== *)
(** * The model at work *)
(* ===================================================================== *)

Example trim_ex : Js.trim (Js.lit "  Asha ") = Js.lit "Asha".
Proof. reflexivity. Qed.
Example of_Z_ex : Js.of_Z 1700000000000 = Js.lit "1700000000000".
Proof. reflexivity. Qed.

Example isoString_ex :
  JsDate.isoString 1709210096789 = Js.lit "2024-02-29T12:34:56.789Z".
Proof. vm_compute. reflexivity. Qed.
Example isoString_ex2 :
  JsDate.isoString (-1) = Js.lit "1969-12-31T23:59:59.999Z".
Proof. vm_compute. reflexivity. Qed.
Example isoString_ex3 :
  JsDate.isoString 1735689600000 = Js.lit "2025-01-01T00:00:00.000Z".
Proof. vm_compute. reflexivity. Qed.
Example isoString_ex4 :
  JsDate.isoString 1735689599999 = Js.lit "2024-12-31T23:59:59.999Z".
Proof. vm_compute. reflexivity. Qed.
Example isoString_ex5 :
  JsDate.isoString 951782400000 = Js.lit "2000-02-29T00:00:00.000Z".
Proof. vm_compute. reflexivity. Qed.
Example isoString_ex6 :
  JsDate.isoString 4107542400000 = Js.lit "2100-03-01T00:00:00.000Z".
Proof. vm_compute. reflexivity. Qed.

(** The last day of [Date], and the day after. *)
Example toISOString_last :
  JsDate.toISOString (JsDate.TimeClip 8640000000000000)
  = Some (Js.lit "+275760-09-13T00:00:00.000Z")
  /\ JsDate.toISOString (JsDate.TimeClip 8640000000000001) = None.
Proof. split; vm_compute; reflexivity. Qed.

(** Thirty days after the last day there is no date. *)
Example dueDate_out_of_range :
  dueDateAt utc 8640000000000000 8640000000000000 = None
  /\ dueDateAt utc 1705312800000 1705312800000
     = Some (Js.lit "2024-02-14T10:00:00.000Z").
Proof. split; vm_compute; reflexivity. Qed.

(** A numeral is read as the nearest double and written as the shortest
    decimal that reads as that double; a numeral beyond the doubles is
    read as an infinity and written [null]. *)
Example reread_numbers :
  Json.reread (JNum 9007199254740993) = JNum 9007199254740992
  /\ Json.reread (JNum (inject_Z (10 ^ 400))) = JNull
  /\ Json.reread (JNum 0.1) = JNum 0.1
  /\ Json.reread (JNum 0.1000000000000000055511151231257827) = JNum 0.1
  /\ Json.reread (JNum 123456789012345678901) = JNum 123456789012345680000
  /\ Json.reread (JNum 100) = JNum 100
  /\ Json.reread (JNum (-149.99)) = JNum (-149.99)
  /\ Json.reread JNegZero = JNum 0.
Proof. repeat split; vm_compute; reflexivity. Qed.

(** An object is written with its array indices first, and a key written
    twice keeps its first place and its last value. *)
Example reread_object :
  Json.reread
    (JObj [ (Js.lit "b", JNum 1); (Js.lit "10", JNum 2); (Js.lit "2", JNum 3);
            (Js.lit "b", JNum 4); (Js.lit "01", JNum 5) ])
  = JObj [ (Js.lit "2", JNum 3); (Js.lit "10", JNum 2);
           (Js.lit "b", JNum 4); (Js.lit "01", JNum 5) ].
Proof. vm_compute. reflexivity. Qed.

(** Scenario A of the specification: one publication, "Asha", no
    subscription yet.  The control is enabled before the click; after the
    POST has succeeded the ledger holds one record and one "billsUpdated"
    event was dispatched. *)
Example scenarioA_run :
  exists before after,
    run (firstn 5 scenarioA) (world0 Absent) = Some before
    /\ payNowControl (ui before) =
         Some {| disabled := false; label := Js.lit "Pay Now" |}
    /\ run scenarioA (world0 Absent) = Some after
    /\ ledger (payments after) =
         Some [Payment.to_json (paymentRecord utc dailyTimes 1705312800000)]
    /\ count (is_dispatch (Js.lit "billsUpdated")) (log after) = 1%nat.
Proof.
  do 2 eexists. split; [vm_compute; reflexivity |].
  split; [vm_compute; reflexivity |].
  split; [vm_compute; reflexivity |].
  split; vm_compute; reflexivity.
Qed.

(** The readings of the clock matter one by one: when midnight of a
    month's last day falls between the reading that receives [setDate]
    and the one that receives [getDate], the due date is the day of
    creation. *)
Example dueDate_across_midnight :
  dueDateAt utc 1706745599999 1706745600000
  = Some (Js.lit "2024-01-31T23:59:59.999Z")
  /\ JsDate.isoString 1706745599999 = Js.lit "2024-01-31T23:59:59.999Z"
  /\ JsDate.isoString 1706745600000 = Js.lit "2024-02-01T00:00:00.000Z".
Proof. repeat split; vm_compute; reflexivity. Qed.

(** Scenario B: the name field is emptied. *)
Example scenarioB_run :
  exists w,
    run [ChangeName []] ashaSubscribed = Some w
    /\ subscriptions (ui w) = []
    /\ log w = [] /\ inflight w = [].
Proof. eexists. repeat split. Qed.

(* ===================================================================== *)
(** * Facts about dates *)
(* ===================================================================== *)

Section DateFacts.
Import JsDate.
Local Open Scope Z_scope.

Lemma MonthFromTime_range (t : Z) : 0 <= MonthFromTime t <= 11.
Proof.
  unfold MonthFromTime.
  repeat match goal with
         | |- context [if ?b then _ else _] => destruct b
         end; lia.
Qed.

(** The estimate of [YearFromTime] is off by at most one. *)
Lemma year_estimate_low (d : Z) :
  DayFromYear (1970 + 400 * d / 146097 - 1) <= d.
Proof. unfold DayFromYear. Z.div_mod_to_equations. lia. Qed.

Lemma year_estimate_high (d : Z) :
  d < DayFromYear (1970 + 400 * d / 146097 + 2).
Proof. unfold DayFromYear. Z.div_mod_to_equations. lia. Qed.

(** The year found is the right one. *)
Lemma YearFromTime_spec (t : Z) :
  DayFromYear (YearFromTime t) <= Day t < DayFromYear (YearFromTime t + 1).
Proof.
  unfold YearFromTime. cbv zeta.
  pose proof (year_estimate_low (Day t)) as Hlo.
  pose proof (year_estimate_high (Day t)) as Hhi.
  set (y := 1970 + 400 * Day t / 146097) in *.
  destruct (Z.ltb_spec (Day t) (DayFromYear y)) as [Hlt | Hge].
  - replace (y - 1 + 1) with y by lia. lia.
  - destruct (Z.leb_spec (DayFromYear (y + 1)) (Day t)) as [Hle | Hgt].
    + replace (y + 1 + 1) with (y + 2) by lia. lia.
    + lia.
Qed.

(** Setting the day of the month to "today's plus [k]" moves the day
    number by [k]. *)
Lemma MakeDay_shift (t k : Z) :
  MakeDay (YearFromTime t) (MonthFromTime t) (DateFromTime t + k) = Day t + k.
Proof.
  pose proof (MonthFromTime_range t) as Hm.
  unfold MakeDay, DateFromTime, DayWithinYear, InLeapYear.
  rewrite (Z.div_small (MonthFromTime t) 12) by lia.
  rewrite (Z.mod_small (MonthFromTime t) 12) by lia.
  rewrite Z.add_0_r. lia.
Qed.

Lemma setDate_getDate_shift (zone : TimeZone) (t k : Z) :
  setDate zone (Some t) (plus (getDate zone (Some t)) k)
  = TimeClip (UTC zone (LocalTime zone t + k * msPerDay)).
Proof.
  unfold setDate, getDate, plus. rewrite MakeDay_shift.
  unfold MakeDate, Day, TimeWithinDay. do 2 f_equal.
  pose proof (Z.div_mod (LocalTime zone t) msPerDay) as H.
  unfold msPerDay in *. lia.
Qed.

Lemma TimeClip_Some (t u : Z) : TimeClip t = Some u -> u = t.
Proof.
  unfold TimeClip. destruct (Z.abs t <=? maxTime); congruence.
Qed.

Lemma TimeClip_idem (t : Z) : ofValue (TimeClip t) = TimeClip t.
Proof.
  unfold ofValue. destruct (TimeClip t) as [u |] eqn:H; [| reflexivity].
  pose proof (TimeClip_Some _ H). subst u. exact H.
Qed.

(** Where the offset from UTC is the same at all times, local day
    arithmetic is arithmetic on the time value. *)
Lemma UTC_LocalTime_fixed (zone : TimeZone) (offset t k : Z) :
  (forall u b, zone u b = offset) ->
  UTC zone (LocalTime zone t + k) = t + k.
Proof.
  intros H. unfold UTC, LocalTime. rewrite !H. lia.
Qed.

End DateFacts.

(* ===================================================================== *)
(** * Subscription Lookup *)
(* ===================================================================== *)

(** C4. For every name that is empty once trimmed, [fetchSubscriptions]
    sets the subscribed set to the empty sequence within the call itself
    and issues no network call: nothing is added to the log and nothing is
    put in flight. *)
Theorem lookup_blank_name_clears (name : Js.str) (w : World) :
  Js.trim name = [] ->
  let w' := exec (fetchSubscriptions name) w in
  outcome (fetchSubscriptions name) w = Return tt
  /\ subscriptions (ui w') = []
  /\ log w' = log w
  /\ inflight w' = inflight w.
Proof.
  intros Hblank. unfold fetchSubscriptions, exec, outcome.
  rewrite Hblank. cbn. repeat split.
Qed.

Lemma lookup_blank_name_clears_witness :
  Js.trim (Js.lit "   ") = []
  /\ subscriptions (ui ashaSubscribed) <> []
  /\ subscriptions (ui (exec (fetchSubscriptions (Js.lit "   ")) ashaSubscribed)) = []
  /\ log (exec (fetchSubscriptions (Js.lit "   ")) ashaSubscribed) = [].
Proof.
  split; [reflexivity |].
  split; [discriminate |].
  pose proof (lookup_blank_name_clears (Js.lit "   ") ashaSubscribed eq_refl) as H.
  split; [exact (proj1 (proj2 H)) | exact (proj1 (proj2 (proj2 H)))].
Defined.

Lemma or_else_shown (error : AxiosError) (fallback : Js.str) :
  or_else (response_message (OfAxios error)) fallback = shown error fallback.
Proof. destruct error as [| [[| c m] |]]; reflexivity. Qed.

Lemma added_app (w w' : World) (l : list Event) :
  log w' = log w ++ l -> added w w' = l.
Proof.
  intros H. unfold added. rewrite H, skipn_app, skipn_all, Nat.sub_diag.
  reflexivity.
Qed.

(** Records and dates are built, not computed, while a handler is run
    symbolically. *)
Arguments count : simpl never.
Arguments paymentAt : simpl never.
Arguments paymentIn : simpl never.
Arguments Payment.to_json : simpl never.
Arguments JsDate.isoString : simpl never.
Arguments JsDate.TimeClip : simpl never.
Arguments dueDateAt : simpl never.
Arguments JsNumber.toNumber : simpl never.
Arguments JsNumber.toString : simpl never.

(** Unfolding the plumbing of [M], so that a handler computes. *)
Ltac unfold_js :=
  unfold exec, outcome, send, emit, modify, gets, await,
    setPublications, setSubscriptions, setSelectedPub, setShowModal,
    setCustomerNameInput, setPaymentMethod, setLoading,
    try_finally, try_catch, bind, ret, throw in *.

Lemma fetchSubscriptions_settled_rejected (error : AxiosError) (w : World) :
  fetchSubscriptions_settled (Rejected error) w
  = (Return tt,
     with_log
       (log w ++
        [ console_error (Js.lit "Error fetching subscriptions:") (OfAxios error);
          toast_error (shown error (Js.lit "Failed to fetch subscriptions")) ])
       w).
Proof.
  rewrite <- or_else_shown.
  unfold fetchSubscriptions_settled, fetchSubscriptions_catch. unfold_js. cbn.
  rewrite <- app_assoc. reflexivity.
Qed.

(** C7. A lookup for a name that is not empty once trimmed leaves the
    subscribed set alone when it is sent, and when its fetch fails the
    failure is logged, one error notification is shown, and the component
    state, the subscribed set with it, is exactly what it was. *)
Theorem failed_lookup_keeps_subscribed_set
    (name : Js.str) (w : World) (error : AxiosError) (w1 : World) :
  Js.trim name <> [] ->
  let sent := exec (fetchSubscriptions name) w in
  let w2 := exec (fetchSubscriptions_settled (Rejected error)) w1 in
  subscriptions (ui sent) = subscriptions (ui w)
  /\ outcome (fetchSubscriptions_settled (Rejected error)) w1 = Return tt
  /\ added w1 w2 =
       [ console_error (Js.lit "Error fetching subscriptions:") (OfAxios error);
         toast_error (shown error (Js.lit "Failed to fetch subscriptions")) ]
  /\ subscriptions (ui w2) = subscriptions (ui w1)
  /\ ui w2 = ui w1.
Proof.
  intros Hname. cbv zeta. split.
  - unfold fetchSubscriptions, exec.
    destruct (Js.trim name) as [| c rest]; [congruence |]. cbn.
    unfold encodeURIComponent, try_catch, bind.
    destruct (Js.well_formed name); reflexivity.
  - unfold exec, outcome.
    rewrite fetchSubscriptions_settled_rejected. cbn [fst snd].
    repeat split. apply added_app. reflexivity.
Qed.

Lemma failed_lookup_keeps_subscribed_set_witness :
  let w2 := exec (fetchSubscriptions_settled (Rejected NoResponse)) ashaSubscribed in
  Js.trim asha <> []
  /\ subscriptions (ui w2) = subscriptions (ui ashaSubscribed)
  /\ subscriptions (ui w2) <> [].
Proof.
  cbv zeta.
  assert (Hname : Js.trim asha <> []) by (vm_compute; discriminate).
  pose proof (failed_lookup_keeps_subscribed_set
                asha ashaSubscribed NoResponse ashaSubscribed Hname) as H.
  split; [exact Hname |].
  split; [exact (proj1 (proj2 (proj2 (proj2 H)))) | vm_compute; discriminate].
Defined.

(** What a call of [fetchSubscriptions] comes to, case by case. *)
Lemma fetchSubscriptions_run (name : Js.str) (w : World) :
  fetchSubscriptions name w
  = (Return tt,
     if negb (Js.truthy (Js.trim name)) then with_ui (set_subscriptions []) w
     else if Js.well_formed name then
       with_inflight (inflight w ++ [LookupRequest])
         (with_log (log w ++ [get_subscriptions name]) w)
     else with_log (log w ++ lookup_events name) w).
Proof.
  unfold lookup_events, fetchSubscriptions, fetchSubscriptions_catch,
    encodeURIComponent.
  destruct (negb (Js.truthy (Js.trim name))); [reflexivity |].
  destruct (Js.well_formed name); unfold_js; cbn.
  - reflexivity.
  - rewrite <- app_assoc. reflexivity.
Qed.

Lemma fetchSubscriptions_log (name : Js.str) (w : World) :
  log (exec (fetchSubscriptions name) w) = log w ++ lookup_events name.
Proof.
  unfold exec. rewrite fetchSubscriptions_run. unfold lookup_events. cbn [snd].
  destruct (negb (Js.truthy (Js.trim name))); cbn.
  - now rewrite app_nil_r.
  - destruct (Js.well_formed name); reflexivity.
Qed.

Lemma fetchSubscriptions_payments (name : Js.str) (w : World) :
  payments (exec (fetchSubscriptions name) w) = payments w
  /\ storageFull (exec (fetchSubscriptions name) w) = storageFull w
  /\ reads (exec (fetchSubscriptions name) w) = reads w.
Proof.
  unfold exec. rewrite fetchSubscriptions_run. cbn [snd].
  destruct (negb (Js.truthy (Js.trim name))); [repeat split |].
  destruct (Js.well_formed name); repeat split.
Qed.

Lemma fetchSubscriptions_ui (name : Js.str) (w : World) :
  ui (exec (fetchSubscriptions name) w)
  = if negb (Js.truthy (Js.trim name)) then set_subscriptions [] (ui w)
    else ui w.
Proof.
  unfold exec. rewrite fetchSubscriptions_run. cbn [snd].
  destruct (negb (Js.truthy (Js.trim name))); [reflexivity |].
  destruct (Js.well_formed name); reflexivity.
Qed.

(* ===================================================================== *)
(** * Subscription Service *)
(* ===================================================================== *)

(** When the POST is rejected: the failure is logged, one error
    notification is shown, [loading] is reset, and nothing else moves. *)
Lemma handlePayNow_settled_rejected
    (pub : Publication.t) (input : Js.str) (error : AxiosError) (w : World) :
  handlePayNow_settled pub input (Rejected error) w
  = (Return tt,
     with_ui (set_loading false)
       (with_log
          (log w ++
           [ console_error (Js.lit "Subscription error:") (OfAxios error);
             toast_error (shown error (Js.lit "Subscription failed")) ])
          w)).
Proof.
  rewrite <- or_else_shown.
  unfold handlePayNow_settled, handlePayNow_catch. unfold_js. cbn.
  rewrite <- app_assoc. reflexivity.
Qed.

(** C2. When the POST of a subscribe invocation fails, the ledger cell is
    what it was, no "billsUpdated" event is dispatched, the dialog flag is
    what it was (an open dialog stays open), and the one notification
    shown is an error toast with the server's message when there is a
    non-empty one, else "Subscription failed". *)
Theorem failed_subscribe_leaves_ledger
    (pub : Publication.t) (input : Js.str) (error : AxiosError) (w : World) :
  let w' := exec (handlePayNow_settled pub input (Rejected error)) w in
  outcome (handlePayNow_settled pub input (Rejected error)) w = Return tt
  /\ payments w' = payments w
  /\ count (is_dispatch (Js.lit "billsUpdated")) (added w w') = 0%nat
  /\ showModal (ui w') = showModal (ui w)
  /\ added w w' =
       [ console_error (Js.lit "Subscription error:") (OfAxios error);
         toast_error
           match error with
           | ErrorResponse (Some (c :: message)) => c :: message
           | _ => Js.lit "Subscription failed"
           end ].
Proof.
  cbv zeta. unfold exec, outcome.
  rewrite handlePayNow_settled_rejected. cbn [fst snd].
  assert (Hadded :
    added w
      (with_ui (set_loading false)
         (with_log
            (log w ++
             [ console_error (Js.lit "Subscription error:") (OfAxios error);
               toast_error (shown error (Js.lit "Subscription failed")) ])
            w))
    = [ console_error (Js.lit "Subscription error:") (OfAxios error);
        toast_error (shown error (Js.lit "Subscription failed")) ])
    by (apply added_app; reflexivity).
  rewrite Hadded. repeat split.
  destruct error as [| [[| c m] |]]; reflexivity.
Qed.

(** Scenario C of the specification: the server answers "Already
    active". *)
Example scenarioC :
  let error := ErrorResponse (Some (Js.lit "Already active")) in
  let w := exec (handlePayNow_settled dailyTimes asha (Rejected error))
                ashaSubscribed in
  added ashaSubscribed w
  = [ console_error (Js.lit "Subscription error:") (OfAxios error);
      toast_error (Js.lit "Already active") ]
  /\ payments w = payments ashaSubscribed
  /\ showModal (ui w) = true.
Proof. vm_compute. repeat split. Qed.

Lemma dueDateAt_one_instant (zone : JsDate.TimeZone) (t : Z) :
  dueDateAt zone t t
  = match JsDate.TimeClip t with
    | Some _ =>
        JsDate.toISOString
          (JsDate.TimeClip
             (JsDate.UTC zone (JsDate.LocalTime zone t + 30 * JsDate.msPerDay)))
    | None => None
    end.
Proof.
  unfold dueDateAt. destruct (JsDate.TimeClip t) as [u |] eqn:H.
  - pose proof (TimeClip_Some _ H). subst u.
    now rewrite setDate_getDate_shift, TimeClip_idem.
  - reflexivity.
Qed.

(** With a clock that does not move, the record built is the one of the
    specification, when its dates are in the range of [Date]. *)
Lemma paymentAt_one_instant (zone : JsDate.TimeZone) (pub : Publication.t)
    (t : Z) (payment : Payment.t) :
  paymentAt zone pub t t t t = Some payment ->
  payment = paymentRecord zone pub t.
Proof.
  unfold paymentAt. rewrite dueDateAt_one_instant.
  destruct (JsDate.TimeClip t) as [u |] eqn:Ht; [| discriminate].
  pose proof (TimeClip_Some _ Ht). subst u.
  destruct (JsDate.TimeClip (JsDate.UTC zone _)) as [u |] eqn:Hdue;
    [| discriminate].
  pose proof (TimeClip_Some _ Hdue). subst u.
  cbn [JsDate.toISOString]. intros H. injection H as <-. reflexivity.
Qed.

Lemma paymentAt_in_range (zone : JsDate.TimeZone) (pub : Publication.t)
    (t : Z) :
  (Z.abs t <= JsDate.maxTime)%Z ->
  (Z.abs (JsDate.UTC zone (JsDate.LocalTime zone t + 30 * JsDate.msPerDay))
   <= JsDate.maxTime)%Z ->
  paymentAt zone pub t t t t = Some (paymentRecord zone pub t).
Proof.
  intros Ht Hdue. unfold paymentAt. rewrite dueDateAt_one_instant.
  unfold JsDate.TimeClip.
  destruct (Z.leb_spec (Z.abs t) JsDate.maxTime) as [_ | Hno]; [| lia].
  destruct (Z.leb_spec
              (Z.abs (JsDate.UTC zone
                        (JsDate.LocalTime zone t + 30 * JsDate.msPerDay)))
              JsDate.maxTime) as [_ | Hno]; [| lia].
  reflexivity.
Qed.

Lemma paymentIn_stopped_clock (w : World) (pub : Publication.t) (t : Z)
    (payment : Payment.t) :
  (forall k, (k < 4)%nat -> clock w (k + reads w) = t) ->
  paymentIn w pub = Some payment ->
  payment = paymentRecord (tz w) pub t.
Proof.
  intros H. unfold paymentIn.
  pose proof (H 0%nat ltac:(lia)) as H0. pose proof (H 1%nat ltac:(lia)) as H1.
  pose proof (H 2%nat ltac:(lia)) as H2. pose proof (H 3%nat ltac:(lia)) as H3.
  cbn [Nat.add] in *. rewrite H0, H1, H2, H3.
  apply paymentAt_one_instant.
Qed.

(** The record does not depend on the publication for whether it can be
    built. *)
Lemma paymentIn_dates (w : World) (pub : Publication.t) :
  if dates_in_range w
  then exists payment, paymentIn w pub = Some payment
  else paymentIn w pub = None.
Proof.
  unfold dates_in_range, paymentIn, paymentAt.
  destruct (dueDateAt _ _ _); [| reflexivity].
  destruct (JsDate.toISOString _); [eauto | reflexivity].
Qed.

Lemma paymentIn_in_range (w : World) (pub : Publication.t)
    (payment : Payment.t) :
  paymentIn w pub = Some payment -> dates_in_range w = true.
Proof.
  intros H. pose proof (paymentIn_dates w pub) as Hd.
  destruct (dates_in_range w); [reflexivity | congruence].
Qed.

Lemma paymentIn_fields (w : World) (pub : Publication.t)
    (payment : Payment.t) :
  paymentIn w pub = Some payment ->
  Payment.id payment = Js.of_Z (clock w (reads w))
  /\ Payment.subscriptionName payment = Publication.name pub
  /\ Payment.amount payment = Publication.monthlyPrice pub
  /\ Payment.status payment = Js.lit "paid".
Proof.
  unfold paymentIn, paymentAt.
  destruct (dueDateAt _ _ _); [| discriminate].
  destruct (JsDate.toISOString _); [| discriminate].
  intros H. injection H as <-. repeat split.
Qed.

(** Running a sequence whose first computation returns. *)
Lemma bind_return {A B} (c : M A) (k : A -> M B) (w w1 : World) (a : A) :
  c w = (Return a, w1) -> bind c k w = k a w1.
Proof. intros H. unfold bind. now rewrite H. Qed.

Arguments bind_return {A B c} k {w w1 a} _.

Lemma bind_throw {A B} (c : M A) (k : A -> M B) (w w1 : World) (e : JsError) :
  c w = (Throw e, w1) -> bind c k w = (Throw e, w1).
Proof. intros H. unfold bind. now rewrite H. Qed.

Arguments bind_throw {A B c} k {w w1 e} _.

Lemma newPayment_run (pub : Publication.t) (w : World) :
  newPayment pub w
  = match paymentIn w pub with
    | Some payment => (Return payment, with_reads (4 + reads w) w)
    | None => (Throw RangeError, with_reads (readings w + reads w) w)
    end.
Proof.
  unfold newPayment, new_Date, toISOString, now, gets, bind, ret, throw,
    paymentIn, paymentAt, readings, dueDateAt.
  cbn [clock reads tz with_reads Nat.add].
  destruct (JsDate.toISOString (JsDate.ofValue _)); [| reflexivity].
  destruct (JsDate.toISOString (JsDate.TimeClip _)); reflexivity.
Qed.

Lemma newPayment_returns (pub : Publication.t) (w : World)
    (payment : Payment.t) :
  paymentIn w pub = Some payment ->
  newPayment pub w = (Return payment, with_reads (4 + reads w) w).
Proof. intros H. now rewrite newPayment_run, H. Qed.

Lemma newPayment_throws (pub : Publication.t) (w : World) :
  dates_in_range w = false ->
  newPayment pub w
  = (Throw RangeError, with_reads (readings w + reads w) w).
Proof.
  intros H. pose proof (paymentIn_dates w pub) as Hd. rewrite H in Hd.
  now rewrite newPayment_run, Hd.
Qed.

Lemma readings_in_range (w : World) :
  dates_in_range w = true -> readings w = 4%nat.
Proof.
  unfold dates_in_range, readings.
  destruct (dueDateAt _ _ _); [reflexivity | discriminate].
Qed.

Lemma parse_payments_run (w : World) (items : list json) :
  ledger (payments w) = Some items ->
  parse_payments w = (Return (Json.Arr (map Json.parse items)), w).
Proof.
  unfold parse_payments, gets, bind, ret, ledger.
  destruct (payments w) as [| | | [| | | | l | |]]; intros H;
    try discriminate; now injection H as <-.
Qed.

Lemma store_payments_run (v : Json.value) (w : World) :
  storageFull w = false ->
  store_payments v w
  = (Return tt, with_payments (Holds (Json.stringify v)) w).
Proof.
  intros H. unfold store_payments, gets, bind, modify. now rewrite H.
Qed.

Lemma push_array (items : list Json.value) (x : Json.value) :
  push (Json.Arr items) x = ret (Json.Arr (items ++ [x])).
Proof. reflexivity. Qed.

(** The six keys of the record are not array indices: they are written in
    the order of the literal. *)
Lemma own_properties_payment {A} (a b c d e f : A) :
  Json.own_properties
    [ (Js.lit "id", a); (Js.lit "subscriptionName", b); (Js.lit "amount", c);
      (Js.lit "dueDate", d); (Js.lit "status", e); (Js.lit "paidDate", f) ]
  = [ (Js.lit "id", a); (Js.lit "subscriptionName", b); (Js.lit "amount", c);
      (Js.lit "dueDate", d); (Js.lit "status", e); (Js.lit "paidDate", f) ].
Proof. reflexivity. Qed.

Lemma stringify_payment (p : Payment.t) :
  Json.stringify (Payment.value p) = Payment.to_json p.
Proof.
  unfold Payment.value, Payment.to_json.
  cbn [Json.stringify map]. now rewrite own_properties_payment.
Qed.

(** What is written for the array read from [items] with the record
    pushed onto it. *)
Lemma stringify_ledger (items : list json) (p : Payment.t) :
  Json.stringify (Json.Arr (map Json.parse items ++ [Payment.value p]))
  = JArr (map Json.reread items ++ [Payment.to_json p]).
Proof.
  cbn [Json.stringify]. rewrite map_app, map_map. cbn [map].
  now rewrite stringify_payment.
Qed.

Lemma bind_ret {A B} (a : A) (k : A -> M B) (w : World) :
  bind (ret a) k w = k a w.
Proof. reflexivity. Qed.

Lemma emit_run (e : Event) (w : World) :
  emit e w = (Return tt, with_log (log w ++ [e]) w).
Proof. reflexivity. Qed.

Lemma setShowModal_run (v : bool) (w : World) :
  setShowModal v w = (Return tt, with_ui (set_showModal v) w).
Proof. reflexivity. Qed.

Lemma recorded_log (w : World) (pub : Publication.t) (payment : Payment.t)
    (items : list json) :
  recorded w pub payment items
  = with_ui (set_showModal false)
      (with_log
         ((log w ++ [dispatchEvent (Js.lit "billsUpdated")]) ++
          [ toast_success
              (Js.lit "Subscribed to " ++ Publication.name pub
                 ++ Js.lit " successfully!") ])
         (with_payments
            (Holds (JArr (map Json.reread items ++ [Payment.to_json payment])))
            (with_reads (4 + reads w) w))).
Proof. unfold recorded. now rewrite <- app_assoc. Qed.

(** The rest of the [try] block, when the record can be built, the cell
    holds a ledger and the store takes the write. *)
Lemma handlePayNow_confirmed_recorded
    (pub : Publication.t) (input : Js.str) (w : World)
    (payment : Payment.t) (items : list json) :
  paymentIn w pub = Some payment ->
  ledger (payments w) = Some items ->
  storageFull w = false ->
  handlePayNow_confirmed pub input w
  = (Return tt,
     with_log
       (log (exec (fetchSubscriptions input) (recorded w pub payment items))
          ++ [navigate (Js.lit "/payments")])
       (exec (fetchSubscriptions input) (recorded w pub payment items))).
Proof.
  intros Hpayment Hledger Hfull. unfold handlePayNow_confirmed.
  rewrite (bind_return _ (newPayment_returns pub w Hpayment)).
  rewrite (bind_return _
             (parse_payments_run (with_reads (4 + reads w) w) Hledger)).
  rewrite push_array, bind_ret.
  rewrite (bind_return _
             (store_payments_run _ (with_reads (4 + reads w) w) Hfull)).
  rewrite stringify_ledger.
  rewrite (bind_return _ (emit_run _ _)).
  rewrite (bind_return _ (emit_run _ _)).
  rewrite (bind_return _ (setShowModal_run _ _)).
  rewrite (bind_return _ (fetchSubscriptions_run _ _)).
  rewrite emit_run. unfold exec.
  rewrite recorded_log, fetchSubscriptions_run. reflexivity.
Qed.

(** The success path, when the local write is made. *)
Lemma handlePayNow_settled_recorded
    (pub : Publication.t) (input : Js.str) (w : World)
    (payment : Payment.t) (items : list json) :
  paymentIn w pub = Some payment ->
  ledger (payments w) = Some items ->
  storageFull w = false ->
  handlePayNow_settled pub input (Fulfilled tt) w
  = (Return tt,
     with_ui (set_loading false)
       (with_log
          (log (exec (fetchSubscriptions input) (recorded w pub payment items))
             ++ [navigate (Js.lit "/payments")])
          (exec (fetchSubscriptions input) (recorded w pub payment items)))).
Proof.
  intros Hpayment Hledger Hfull.
  unfold handlePayNow_settled, try_finally, try_catch, await.
  rewrite bind_ret.
  now rewrite (handlePayNow_confirmed_recorded pub input w
                 Hpayment Hledger Hfull).
Qed.

Lemma write_error_none (w : World) :
  write_error w = None ->
  dates_in_range w = true
  /\ exists items, ledger (payments w) = Some items /\ storageFull w = false.
Proof.
  unfold write_error, ledger.
  destruct (dates_in_range w); [cbn [negb] | discriminate].
  destruct (payments w) as [| | | [| | | | l | |]]; try discriminate;
    destruct (storageFull w); try discriminate; eauto.
Qed.

Lemma write_error_none_payment (w : World) (pub : Publication.t) :
  write_error w = None ->
  exists payment items,
    paymentIn w pub = Some payment
    /\ ledger (payments w) = Some items /\ storageFull w = false.
Proof.
  intros H. destruct (write_error_none w H) as (Hd & items & Hl & Hf).
  pose proof (paymentIn_dates w pub) as Hp. rewrite Hd in Hp.
  destruct Hp as (payment & Hp). eauto.
Qed.

Lemma write_error_message (w : World) (e : JsError) :
  write_error w = Some e -> response_message e = None.
Proof.
  unfold write_error.
  destruct (dates_in_range w); cbn [negb];
    [| intros H; now injection H as <-].
  destruct (payments w) as [| | | [| | | | l | |]];
    try (destruct (storageFull w); [| discriminate]);
    intros H; now injection H as <-.
Qed.

(** The rest of the [try] block, when the local write cannot be made:
    the first call that fails throws. *)
Lemma handlePayNow_confirmed_throws
    (pub : Publication.t) (input : Js.str) (w : World) (e : JsError) :
  write_error w = Some e ->
  handlePayNow_confirmed pub input w
  = (Throw e, with_reads (readings w + reads w) w).
Proof.
  unfold write_error. intros He. unfold handlePayNow_confirmed.
  destruct (dates_in_range w) eqn:Hd; cbn [negb] in He.
  - pose proof (paymentIn_dates w pub) as Hp. rewrite Hd in Hp.
    destruct Hp as (payment & Hp).
    rewrite (bind_return _ (newPayment_returns pub w Hp)).
    rewrite (readings_in_range w Hd).
    unfold parse_payments, push, store_payments, gets.
    change (payments w) with (payments (with_reads (4 + reads w) w)) in He.
    change (storageFull w)
      with (storageFull (with_reads (4 + reads w) w)) in He.
    generalize dependent (with_reads (4 + reads w) w). intros w1 He.
    unfold bind, ret, throw, modify.
    destruct (payments w1) as [| | | [| | | | l | |]];
      cbn [Json.parse];
      try (destruct (storageFull w1); [| discriminate]);
      now injection He as <-.
  - injection He as <-.
    now rewrite (bind_throw _ (newPayment_throws pub w Hd)).
Qed.

(** The success path, when the local write fails: the catch clause runs
    as for a rejected POST, with the generic message. *)
Lemma handlePayNow_settled_unrecorded
    (pub : Publication.t) (input : Js.str) (w : World) (e : JsError) :
  write_error w = Some e ->
  handlePayNow_settled pub input (Fulfilled tt) w
  = (Return tt,
     with_ui (set_loading false)
       (with_log
          (log w ++
           [ console_error (Js.lit "Subscription error:") e;
             toast_error (Js.lit "Subscription failed") ])
          (with_reads (readings w + reads w) w))).
Proof.
  intros He.
  pose proof (handlePayNow_confirmed_throws pub input w He) as Hthrown.
  pose proof (write_error_message w He) as Hmsg.
  unfold handlePayNow_settled, try_finally, try_catch, await.
  rewrite bind_ret, Hthrown. unfold handlePayNow_catch.
  rewrite (bind_return _ (emit_run _ _)), emit_run, Hmsg.
  unfold setLoading, modify, or_else.
  cbn [log with_log]. now rewrite <- app_assoc.
Qed.

(** C10 (as amended). When the cell "payments" holds a non-empty string
    that is not a JSON text, a subscribe attempt whose POST succeeded runs
    the catch clause: the error is logged (the [SyntaxError] of
    [JSON.parse], or the [RangeError] of a date out of range, which is
    thrown first), the one notification is the error toast "Subscription
    failed", the cell is what it was, no "billsUpdated" event is
    dispatched, the dialog flag is what it was, and [loading] is reset. *)
Theorem garbled_ledger_fails_confirmed_subscribe
    (pub : Publication.t) (input : Js.str) (w : World) :
  valid_json (payments w) = false ->
  payments w <> Absent ->
  payments w <> EmptyText ->
  let w' := exec (handlePayNow_settled pub input (Fulfilled tt)) w in
  outcome (handlePayNow_settled pub input (Fulfilled tt)) w = Return tt
  /\ added w w' =
       [ console_error (Js.lit "Subscription error:")
           (if dates_in_range w then SyntaxError else RangeError);
         toast_error (Js.lit "Subscription failed") ]
  /\ payments w' = payments w
  /\ count (is_dispatch (Js.lit "billsUpdated")) (added w w') = 0%nat
  /\ showModal (ui w') = showModal (ui w)
  /\ loading (ui w') = false.
Proof.
  intros Hinvalid Hpresent Hnonempty. cbv zeta.
  set (e := if dates_in_range w then SyntaxError else RangeError).
  assert (He : write_error w = Some e).
  { unfold write_error, e. destruct (dates_in_range w); [| reflexivity].
    cbn [negb]. destruct (payments w); try discriminate; congruence. }
  unfold exec, outcome.
  rewrite (handlePayNow_settled_unrecorded pub input w He). cbn [fst snd].
  assert (Hadded :
    added w
      (with_ui (set_loading false)
         (with_log
            (log w ++
             [ console_error (Js.lit "Subscription error:") e;
               toast_error (Js.lit "Subscription failed") ])
            (with_reads (readings w + reads w) w)))
    = [ console_error (Js.lit "Subscription error:") e;
        toast_error (Js.lit "Subscription failed") ])
    by (apply added_app; reflexivity).
  rewrite Hadded. repeat split.
Qed.

Lemma garbled_ledger_fails_confirmed_subscribe_witness :
  let w' := exec (handlePayNow_settled dailyTimes asha (Fulfilled tt))
                 garbledLedger in
  valid_json (payments garbledLedger) = false
  /\ payments w' = Garbled
  /\ showModal (ui w') = true
  /\ loading (ui w') = false.
Proof.
  cbv zeta.
  pose proof (garbled_ledger_fails_confirmed_subscribe dailyTimes asha
                garbledLedger eq_refl
                ltac:(discriminate) ltac:(discriminate)) as H.
  cbv zeta in H. destruct H as (_ & _ & Hcell & _ & Hmodal & Hloading).
  split; [reflexivity |]. split; [exact Hcell |].
  split; [exact Hmodal | exact Hloading].
Defined.

(** C10 as stated fails: the empty string is not a JSON text, yet with it
    in the cell the attempt succeeds, because [getItem(...) || "[]"]
    reads it as the empty ledger. *)
Lemma empty_text_ledger_takes_success_branch :
  let w := emptyLedgerText in
  let w' := exec (handlePayNow_settled dailyTimes asha (Fulfilled tt)) w in
  valid_json (payments w) = false
  /\ payments w <> Absent
  /\ added w w' =
       [ dispatchEvent (Js.lit "billsUpdated");
         toast_success (Js.lit "Subscribed to Daily Times successfully!");
         get_subscriptions asha;
         navigate (Js.lit "/payments") ]
  /\ payments w' =
       Holds (JArr [Payment.to_json
                      (paymentRecord utc dailyTimes 1705312800000)])
  /\ showModal (ui w') = false.
Proof.
  cbv zeta. split; [reflexivity |]. split; [discriminate |].
  vm_compute. repeat split.
Qed.

Lemma lookup_events_no_dispatch (name type : Js.str) :
  count (is_dispatch type) (lookup_events name) = 0%nat.
Proof.
  unfold lookup_events.
  destruct (negb (Js.truthy (Js.trim name))); [reflexivity |].
  destruct (Js.well_formed name); reflexivity.
Qed.

Lemma count_app {A} (p : A -> bool) (l1 l2 : list A) :
  count p (l1 ++ l2) = (count p l1 + count p l2)%nat.
Proof. unfold count. now rewrite filter_app, length_app. Qed.

(** The log after the success path. *)
Lemma handlePayNow_settled_recorded_log
    (pub : Publication.t) (input : Js.str) (w : World)
    (payment : Payment.t) (items : list json) :
  paymentIn w pub = Some payment ->
  ledger (payments w) = Some items ->
  storageFull w = false ->
  added w (exec (handlePayNow_settled pub input (Fulfilled tt)) w)
  = [ dispatchEvent (Js.lit "billsUpdated");
      toast_success
        (Js.lit "Subscribed to " ++ Publication.name pub
           ++ Js.lit " successfully!") ]
    ++ lookup_events input ++ [navigate (Js.lit "/payments")].
Proof.
  intros Hpayment Hledger Hfull. unfold exec at 1.
  rewrite (handlePayNow_settled_recorded pub input w Hpayment Hledger Hfull).
  cbn [snd]. apply added_app. cbn [log with_ui with_log].
  rewrite fetchSubscriptions_log. unfold recorded. cbn [log with_ui with_log].
  now rewrite <- !app_assoc.
Qed.

(** Entries that read and write as themselves are written back as they
    were. *)
Lemma map_reread_stable (items : list json) :
  Forall (fun entry => Json.reread entry = entry) items ->
  map Json.reread items = items.
Proof.
  induction 1 as [| entry rest Hentry _ IH]; [reflexivity |].
  cbn [map]. now rewrite Hentry, IH.
Qed.

(** C1 (as amended). For a subscribe invocation whose POST succeeds, when
    the cell "payments" holds a ledger (a JSON array, or nothing, or the
    empty string), the store takes the write and the dates of the record
    are within the range of [Date]: the cell afterwards holds the old
    entries, in their order, each as [JSON.stringify] writes what
    [JSON.parse] has read of it, followed by exactly one new record; the
    length grows by one; entries that read and write as themselves are
    not altered; exactly one "billsUpdated" event is dispatched; the
    record has [subscriptionName] the publication's name, [amount] its
    [monthlyPrice] and [status] "paid".  When the clock does not move
    while the record is built (its four readings are one instant [t], the
    creation time), [paidDate] is the creation time and [dueDate] is
    thirty local calendar days after it at the same local time of day,
    which is the creation time plus 30 x 24 h where the zone's offset is
    fixed. *)
Theorem confirmed_subscribe_appends_one_payment
    (pub : Publication.t) (input : Js.str) (w : World) (items : list json)
    (payment : Payment.t) :
  ledger (payments w) = Some items ->
  storageFull w = false ->
  paymentIn w pub = Some payment ->
  let w' := exec (handlePayNow_settled pub input (Fulfilled tt)) w in
  let written := map Json.reread items ++ [Payment.to_json payment] in
  outcome (handlePayNow_settled pub input (Fulfilled tt)) w = Return tt
  /\ ledger (payments w') = Some written
  /\ List.length written = S (List.length items)
  /\ firstn (List.length items) written = map Json.reread items
  /\ (Forall (fun entry => Json.reread entry = entry) items ->
      written = items ++ [Payment.to_json payment])
  /\ count (is_dispatch (Js.lit "billsUpdated")) (added w w') = 1%nat
  /\ Payment.subscriptionName payment = Publication.name pub
  /\ Payment.amount payment = Publication.monthlyPrice pub
  /\ Payment.status payment = Js.lit "paid"
  /\ forall t : Z,
       (forall k, (k < 4)%nat -> clock w (k + reads w) = t) ->
       payment = paymentRecord (tz w) pub t
       /\ Payment.paidDate payment = JsDate.isoString t
       /\ Payment.dueDate payment =
            JsDate.isoString
              (JsDate.UTC (tz w)
                 (JsDate.LocalTime (tz w) t + 30 * JsDate.msPerDay))
       /\ ((forall u b, tz w u b = tz w 0%Z true) ->
           Payment.dueDate payment
           = JsDate.isoString (t + 30 * JsDate.msPerDay)%Z).
Proof.
  intros Hledger Hfull Hpayment. cbv zeta.
  rewrite (handlePayNow_settled_recorded_log pub input w
             Hpayment Hledger Hfull).
  unfold exec at 1, outcome.
  rewrite (handlePayNow_settled_recorded pub input w Hpayment Hledger Hfull).
  cbn [fst snd payments with_ui with_log].
  destruct (fetchSubscriptions_payments input (recorded w pub payment items))
    as (Hcell & _ & _).
  rewrite Hcell. unfold recorded.
  cbn [payments with_ui with_log with_payments ledger].
  destruct (paymentIn_fields w pub Hpayment) as (_ & Hname & Hamount & Hstatus).
  split; [reflexivity |]. split; [reflexivity |].
  split; [rewrite length_app, length_map; cbn; lia |].
  split.
  { rewrite <- (length_map Json.reread items).
    rewrite firstn_app, firstn_all, Nat.sub_diag. cbn. apply app_nil_r. }
  split; [intros Hstable; now rewrite (map_reread_stable Hstable) |].
  split; [rewrite !count_app, lookup_events_no_dispatch; reflexivity |].
  split; [exact Hname |]. split; [exact Hamount |]. split; [exact Hstatus |].
  intros t Hstopped.
  pose proof (paymentIn_stopped_clock w pub Hstopped Hpayment) as ->.
  repeat split.
  intros Hfixed. cbn [Payment.dueDate paymentRecord].
  now rewrite (UTC_LocalTime_fixed (tz w) t _ Hfixed).
Qed.

Lemma confirmed_subscribe_appends_one_payment_witness :
  let w' := exec (handlePayNow_settled dailyTimes asha (Fulfilled tt))
                 oneOlderEntry in
  let payment := paymentRecord utc dailyTimes 1705312800000 in
  ledger (payments oneOlderEntry) = Some [JStr (Js.lit "older")]
  /\ storageFull oneOlderEntry = false
  /\ paymentIn oneOlderEntry dailyTimes = Some payment
  /\ ledger (payments w') =
       Some [JStr (Js.lit "older"); Payment.to_json payment]
  /\ count (is_dispatch (Js.lit "billsUpdated")) (added oneOlderEntry w') = 1%nat
  /\ Payment.dueDate payment = Js.lit "2024-02-14T10:00:00.000Z"
  /\ Payment.paidDate payment = Js.lit "2024-01-15T10:00:00.000Z".
Proof.
  cbv zeta.
  assert (Hpayment :
    paymentIn oneOlderEntry dailyTimes
    = Some (paymentRecord utc dailyTimes 1705312800000))
    by (vm_compute; reflexivity).
  pose proof (confirmed_subscribe_appends_one_payment dailyTimes asha
                oneOlderEntry (items := [JStr (Js.lit "older")])
                eq_refl eq_refl Hpayment) as H.
  cbv zeta in H. destruct H as (_ & Hledger & _ & _ & _ & Hone & _).
  split; [reflexivity |]. split; [reflexivity |].
  split; [exact Hpayment |].
  split; [exact Hledger |]. split; [exact Hone |].
  split; vm_compute; reflexivity.
Defined.

(** An entry that does not read and write as itself is rewritten by the
    append: a numeral that is not a double comes back as the nearest
    double, one beyond the doubles as [null], minus zero as zero. *)
Example append_rewrites_old_entries :
  let w' := exec (handlePayNow_settled dailyTimes asha (Fulfilled tt))
                 unevenEntries in
  ledger (payments unevenEntries)
  = Some [JNum 9007199254740993; JNum (inject_Z (10 ^ 400)); JNegZero]
  /\ ledger (payments w')
     = Some [ JNum 9007199254740992; JNull; JNum 0;
              Payment.to_json (paymentRecord utc dailyTimes 1705312800000) ].
Proof. cbv zeta. split; vm_compute; reflexivity. Qed.

(** A clock at the last day of [Date]: the due date is out of range,
    [toISOString] throws, and nothing is recorded. *)
Example append_at_the_end_of_time :
  let w' := exec (handlePayNow_settled dailyTimes asha (Fulfilled tt))
                 lastDay in
  dates_in_range lastDay = false
  /\ added lastDay w'
     = [ console_error (Js.lit "Subscription error:") RangeError;
         toast_error (Js.lit "Subscription failed") ]
  /\ payments w' = payments lastDay
  /\ reads w' = 3%nat.
Proof. cbv zeta. repeat split; vm_compute; reflexivity. Qed.

(** C1 as stated fails: with a cell that [JSON.parse] rejects, a
    subscribe invocation whose POST succeeds appends nothing and
    dispatches no "billsUpdated" event. *)
Lemma confirmed_subscribe_on_garbled_ledger_appends_nothing :
  let w := garbledLedger in
  let w' := exec (handlePayNow_settled dailyTimes asha (Fulfilled tt)) w in
  payments w' = payments w
  /\ count (is_dispatch (Js.lit "billsUpdated")) (added w w') = 0%nat
  /\ count (is_dispatch (Js.lit "billsUpdated")) (added w w') <> 1%nat.
Proof. vm_compute. repeat split. discriminate. Qed.

(** What the call of [handlePayNow] does when both preconditions hold. *)
Lemma handlePayNow_sends (w : World) (pub : Publication.t) :
  selectedPub (ui w) = Some pub ->
  Js.trim (customerNameInput (ui w)) <> [] ->
  handlePayNow w
  = (Return tt,
     with_inflight
       (inflight w ++ [SubscribeRequest pub (customerNameInput (ui w))])
       (with_log
          (log w ++
           [ post_subscribe
               {| SubscribeBody.customerName :=
                    Js.trim (customerNameInput (ui w));
                  SubscribeBody.publicationId := Publication._id pub;
                  SubscribeBody.amount := Publication.monthlyPrice pub |} ])
          (with_ui (set_loading true) w))).
Proof.
  intros Hpub Hname. unfold handlePayNow. unfold_js. cbn.
  rewrite Hpub.
  destruct (Js.trim (customerNameInput (ui w))) as [| c rest];
    [congruence | reflexivity].
Qed.

(** What it does when one of them fails. *)
Lemma handlePayNow_refuses (w : World) :
  Js.trim (customerNameInput (ui w)) = [] \/ selectedPub (ui w) = None ->
  handlePayNow w
  = (Return tt,
     with_log
       (log w ++
        if Js.truthy (Js.trim (customerNameInput (ui w))) then []
        else [toast_error (Js.lit "Please enter your name")])
       w).
Proof.
  intros H. unfold handlePayNow. unfold_js. cbn.
  assert (Hsame : forall l, l = log w ->
            w = with_log l w) by (intros l ->; destruct w; reflexivity).
  destruct (Js.trim (customerNameInput (ui w))) as [| c rest] eqn:Hname; cbn.
  - reflexivity.
  - destruct H as [H | H]; [discriminate |]. rewrite H.
    f_equal. apply Hsame. apply app_nil_r.
Qed.

(** C5. The subscribe invocation is the click on "Pay Now", which the
    dialog offers only while a publication is selected.  Every such click
    that violates a precondition (no publication selected, or the name
    empty once trimmed) fails locally: the validation message "Please
    enter your name" is shown, no request is sent or put in flight, and
    the component state and the ledger cell are what they were. *)
Theorem invalid_submission_fails_locally
    (w w' : World) (o : Outcome unit) :
  step ClickPayNow w = Some (o, w') ->
  selectedPub (ui w) = None \/ Js.trim (customerNameInput (ui w)) = [] ->
  o = Return tt
  /\ added w w' = [toast_error (Js.lit "Please enter your name")]
  /\ count is_toast_error (added w w') = 1%nat
  /\ count is_request (added w w') = 0%nat
  /\ inflight w' = inflight w
  /\ ui w' = ui w
  /\ payments w' = payments w.
Proof.
  intros Hstep Hviolated. unfold step, react in Hstep.
  destruct (payNowControl (ui w)) as [c |] eqn:Hcontrol; [| discriminate].
  destruct (disabled c); [discriminate |].
  assert (Hblank : Js.trim (customerNameInput (ui w)) = []).
  { destruct Hviolated as [Hnone | Hblank]; [| exact Hblank].
    unfold payNowControl, dialog in Hcontrol. rewrite Hnone in Hcontrol.
    destruct (showModal (ui w)); discriminate. }
  rewrite (handlePayNow_refuses w (or_introl Hblank)) in Hstep.
  rewrite Hblank in Hstep. cbn [Js.truthy] in Hstep.
  injection Hstep as <- <-.
  rewrite (@added_app w
             (with_log
                (log w ++ [toast_error (Js.lit "Please enter your name")]) w)
             [toast_error (Js.lit "Please enter your name")] eq_refl).
  repeat split.
Qed.

Lemma invalid_submission_fails_locally_witness :
  let w := typed (Js.lit "  ") in
  let w' := exec handlePayNow w in
  step ClickPayNow w = Some (Return tt, w')
  /\ Js.trim (customerNameInput (ui w)) = []
  /\ added w w' = [toast_error (Js.lit "Please enter your name")]
  /\ inflight w' = [].
Proof.
  cbv zeta.
  assert (Hstep :
    step ClickPayNow (typed (Js.lit "  "))
    = Some (Return tt, exec handlePayNow (typed (Js.lit "  "))))
    by reflexivity.
  assert (Hblank :
    Js.trim (customerNameInput (ui (typed (Js.lit "  ")))) = [])
    by reflexivity.
  pose proof (@invalid_submission_fails_locally _ _ _ Hstep
                (or_intror Hblank)) as H.
  destruct H as (_ & Hadded & _ & _ & Hflight & _).
  split; [exact Hstep |]. split; [exact Hblank |].
  split; [exact Hadded | exact Hflight].
Defined.

(** C6 (as amended). A subscribe submission POSTs exactly the body
    [{customerName; publicationId; amount}] with the trimmed name, the
    selected publication's [_id] and its [monthlyPrice], and keeps the
    name field as typed in its closure.  When the POST succeeds and the
    payment is recorded (the record can be built, the cell holds a ledger
    and takes the write), the lookup is re-run with the name as typed, not
    trimmed: the handler leaves the world that [fetchSubscriptions] on the
    typed name leaves, followed by the navigation, and for a well-formed
    name the request that goes out is the GET for the typed name.  When
    the payment is not recorded, the failure is reported and no lookup is
    made. *)
Theorem subscribe_posts_trimmed_looks_up_typed (w : World) (pub : Publication.t) :
  selectedPub (ui w) = Some pub ->
  Js.trim (customerNameInput (ui w)) <> [] ->
  let input := customerNameInput (ui w) in
  let sent := exec handlePayNow w in
  added w sent =
    [ post_subscribe
        {| SubscribeBody.customerName := Js.trim input;
           SubscribeBody.publicationId := Publication._id pub;
           SubscribeBody.amount := Publication.monthlyPrice pub |} ]
  /\ inflight sent = inflight w ++ [SubscribeRequest pub input]
  /\ (forall (w1 : World) (payment : Payment.t) (items : list json),
       paymentIn w1 pub = Some payment ->
       ledger (payments w1) = Some items ->
       storageFull w1 = false ->
       let w2 := exec (handlePayNow_settled pub input (Fulfilled tt)) w1 in
       let looked :=
         exec (fetchSubscriptions input) (recorded w1 pub payment items) in
       w2 = with_ui (set_loading false)
              (with_log (log looked ++ [navigate (Js.lit "/payments")]) looked)
       /\ added w1 w2 =
            [ dispatchEvent (Js.lit "billsUpdated");
              toast_success
                (Js.lit "Subscribed to " ++ Publication.name pub
                   ++ Js.lit " successfully!") ]
            ++ (if Js.well_formed input then [get_subscriptions input]
                else [ console_error (Js.lit "Error fetching subscriptions:")
                         URIError;
                       toast_error (Js.lit "Failed to fetch subscriptions") ])
            ++ [navigate (Js.lit "/payments")])
  /\ (forall (w1 : World) (e : JsError),
       write_error w1 = Some e ->
       let w2 := exec (handlePayNow_settled pub input (Fulfilled tt)) w1 in
       added w1 w2 =
         [ console_error (Js.lit "Subscription error:") e;
           toast_error (Js.lit "Subscription failed") ])
  /\ (forall w1 : World,
       write_error w1 = None <->
       exists payment items,
         paymentIn w1 pub = Some payment
         /\ ledger (payments w1) = Some items /\ storageFull w1 = false).
Proof.
  intros Hpub Hname. cbv zeta. unfold exec at 1 2.
  rewrite (handlePayNow_sends w Hpub Hname). cbn [snd].
  split; [apply added_app; reflexivity |].
  split; [reflexivity |].
  split; [| split].
  - intros w1 payment items Hpayment Hledger Hfull. split.
    + unfold exec at 1.
      now rewrite (handlePayNow_settled_recorded pub _ w1
                     Hpayment Hledger Hfull).
    + rewrite (handlePayNow_settled_recorded_log pub _ w1
                 Hpayment Hledger Hfull).
      unfold lookup_events.
      destruct (Js.trim (customerNameInput (ui w))) as [| c rest];
        [congruence | reflexivity].
  - intros w1 e He. unfold exec.
    rewrite (handlePayNow_settled_unrecorded pub _ w1 He). cbn [snd].
    apply added_app. reflexivity.
  - intros w1. split; [apply write_error_none_payment |].
    intros (payment & items & Hpayment & Hledger & Hfull).
    unfold write_error.
    rewrite (paymentIn_in_range w1 pub Hpayment), Hfull. cbn [negb].
    unfold ledger in Hledger.
    destruct (payments w1) as [| | | [| | | | l | |]];
      try discriminate; reflexivity.
Qed.

Lemma subscribe_posts_trimmed_looks_up_typed_witness :
  let w := typed asha in
  selectedPub (ui w) = Some dailyTimes
  /\ Js.trim (customerNameInput (ui w)) <> []
  /\ added w (exec handlePayNow w) =
       [ post_subscribe
           {| SubscribeBody.customerName := asha;
              SubscribeBody.publicationId := Js.lit "p1";
              SubscribeBody.amount := 100 |} ].
Proof.
  cbv zeta.
  assert (Hname : Js.trim (customerNameInput (ui (typed asha))) <> [])
    by (vm_compute; discriminate).
  pose proof (subscribe_posts_trimmed_looks_up_typed (typed asha)
                (pub := dailyTimes) eq_refl Hname) as H.
  cbv zeta in H. destruct H as (Hposted & _).
  split; [reflexivity |]. split; [exact Hname | exact Hposted].
Defined.

(** C6 as stated fails: with " Asha" typed, the name submitted to the
    server is "Asha" and the lookup that follows the success is for
    " Asha". *)
Lemma lookup_after_subscribe_uses_untrimmed_name :
  exists w',
    run [ClickPayNow; Settle 0 (SubscribeReply (Fulfilled tt))]
        (typed (Js.lit " Asha")) = Some w'
    /\ log w' =
         [ post_subscribe
             {| SubscribeBody.customerName := Js.lit "Asha";
                SubscribeBody.publicationId := Js.lit "p1";
                SubscribeBody.amount := 100 |};
           dispatchEvent (Js.lit "billsUpdated");
           toast_success (Js.lit "Subscribed to Daily Times successfully!");
           get_subscriptions (Js.lit " Asha");
           navigate (Js.lit "/payments") ]
    /\ Js.lit " Asha" <> Js.lit "Asha".
Proof.
  eexists. split; [vm_compute; reflexivity |].
  split; [vm_compute; reflexivity | vm_compute; discriminate].
Qed.

(* ===================================================================== *)
(** * Dedup Guard *)
(* ===================================================================== *)

Lemma str_eqb_eq (a b : Js.str) : Js.str_eqb a b = true <-> a = b.
Proof.
  unfold Js.str_eqb. destruct (Js.str_dec a b); split; congruence.
Qed.

(** C3 (as amended). [isSubscribed] holds of a publication identity
    exactly when some subscription of the current subscribed set refers to
    it.  Whenever it holds of the selected publication, the control of
    the dialog is disabled; its label is "Already Subscribed" unless a
    submission is in progress ([loading]), in which case it is
    "Processing...". *)
Theorem dedup_guard_disables (s : State) (pubId : Js.str) :
  (isSubscribed s pubId = true <->
   exists sub, In sub (subscriptions s)
               /\ PublicationRef._id (Subscription.publication sub) = pubId)
  /\ forall pub,
       dialog s = Some pub ->
       isSubscribed s (Publication._id pub) = true ->
       payNowControl s =
         Some {| disabled := true;
                 label := if loading s then Js.lit "Processing..."
                          else Js.lit "Already Subscribed" |}.
Proof.
  split.
  - unfold isSubscribed. rewrite existsb_exists.
    split; intros (sub & Hin & Heq); exists sub; split; trivial;
      now apply str_eqb_eq.
  - intros pub Hdialog Hsub. unfold payNowControl.
    rewrite Hdialog, Hsub, orb_true_r. reflexivity.
Qed.

Lemma dedup_guard_disables_witness :
  isSubscribed (ui ashaSubscribed) (Js.lit "p1") = true
  /\ dialog (ui ashaSubscribed) = Some dailyTimes
  /\ payNowControl (ui ashaSubscribed) =
       Some {| disabled := true; label := Js.lit "Already Subscribed" |}.
Proof.
  split; [reflexivity |]. split; [reflexivity |].
  exact (proj2 (dedup_guard_disables (ui ashaSubscribed) (Js.lit "p1"))
               dailyTimes eq_refl eq_refl).
Defined.

(** C3 as stated fails: while a submission is in flight the control of a
    publication the guard holds of is labelled "Processing...". *)
Lemma subscribed_while_loading_reads_processing :
  exists w,
    run lateLookup (world0 Absent) = Some w
    /\ dialog (ui w) = Some dailyTimes
    /\ isSubscribed (ui w) (Publication._id dailyTimes) = true
    /\ payNowControl (ui w) =
         Some {| disabled := true; label := Js.lit "Processing..." |}
    /\ Js.lit "Processing..." <> Js.lit "Already Subscribed".
Proof.
  eexists. split; [vm_compute; reflexivity |].
  repeat split; try (vm_compute; reflexivity). vm_compute. discriminate.
Qed.

(* ===================================================================== *)
(** * The flow as a whole *)
(* ===================================================================== *)

(** ** What each handler leaves alone *)

Lemma fetchSubscriptions_frames (name : Js.str) (w : World) :
  outcome (fetchSubscriptions name) w = Return tt
  /\ (frames w (exec (fetchSubscriptions name) w) []
      \/ frames w (exec (fetchSubscriptions name) w) [LookupRequest]).
Proof.
  unfold exec, outcome. rewrite fetchSubscriptions_run. cbn [fst snd].
  split; [reflexivity |]. unfold frames.
  destruct (negb (Js.truthy (Js.trim name)));
    [| destruct (Js.well_formed name)]; cbn;
    rewrite ?app_nil_r; auto.
Qed.

Lemma fetchSubscriptions_settled_run
    (r : Settled (option (list Subscription.t))) (w : World) :
  fetchSubscriptions_settled r w
  = (Return tt,
     match r with
     | Fulfilled data => with_ui (set_subscriptions (or_empty data)) w
     | Rejected error =>
         with_log
           (log w ++
            [ console_error (Js.lit "Error fetching subscriptions:")
                (OfAxios error);
              toast_error
                (shown error (Js.lit "Failed to fetch subscriptions")) ])
           w
     end).
Proof.
  destruct r as [data | error].
  - reflexivity.
  - apply fetchSubscriptions_settled_rejected.
Qed.

Lemma fetchPublications_settled_run
    (r : Settled (option (list Publication.t))) (w : World) :
  fetchPublications_settled r w
  = (Return tt,
     match r with
     | Fulfilled data => with_ui (set_publications (or_empty data)) w
     | Rejected error =>
         with_log
           (log w ++
            [ console_error (Js.lit "Error fetching publications:")
                (OfAxios error);
              toast_error
                (shown error
                   (Js.lit "Failed to fetch available publications")) ])
           w
     end).
Proof.
  destruct r as [data | error].
  - reflexivity.
  - rewrite <- or_else_shown.
    unfold fetchPublications_settled, fetchPublications_catch.
    unfold_js. cbn. rewrite <- app_assoc. reflexivity.
Qed.

(** However the POST and the local write go, the continuation of
    [handlePayNow] returns, with [loading] reset. *)
Lemma handlePayNow_settled_frames
    (pub : Publication.t) (input : Js.str) (r : Settled unit) (w : World) :
  let w' := exec (handlePayNow_settled pub input r) w in
  outcome (handlePayNow_settled pub input r) w = Return tt
  /\ loading (ui w') = false
  /\ publications (ui w') = publications (ui w)
  /\ mounted w' = mounted w
  /\ (inflight w' = inflight w \/ inflight w' = inflight w ++ [LookupRequest]).
Proof.
  cbv zeta. unfold exec, outcome.
  destruct r as [[] | error].
  - destruct (write_error w) as [e |] eqn:He.
    + rewrite (handlePayNow_settled_unrecorded pub input w He).
      cbn. repeat split; auto.
    + destruct (write_error_none_payment w pub He)
        as (payment & items & Hpayment & Hledger & Hfull).
      rewrite (handlePayNow_settled_recorded pub input w
                 Hpayment Hledger Hfull).
      cbn [fst snd].
      destruct (fetchSubscriptions_frames input
                  (recorded w pub payment items))
        as (_ & [(Hl & Hp & Hm & Hf) | (Hl & Hp & Hm & Hf)]);
        cbn [ui with_ui with_log loading publications set_loading mounted
               inflight];
        rewrite Hp, Hm, Hf; cbn; rewrite ?app_nil_r; repeat split; auto.
  - rewrite handlePayNow_settled_rejected. cbn. repeat split; auto.
Qed.

(** ** Counting the requests in flight *)

Lemma count_snoc {A} (p : A -> bool) (l : list A) (x : A) :
  count p (l ++ [x]) = (count p l + if p x then 1 else 0)%nat.
Proof. rewrite count_app. unfold count. cbn. now destruct (p x). Qed.

Lemma count_remove_at {A} (p : A -> bool) (l : list A) (i : nat) (x : A) :
  nth_error l i = Some x ->
  count p l = (count p (remove_at i l) + if p x then 1 else 0)%nat.
Proof.
  revert i. induction l as [| y l IH]; intros [| i] H; try discriminate.
  - injection H as ->. unfold count. cbn. destruct (p x); cbn; lia.
  - cbn in H. specialize (IH i H). unfold count in *. cbn.
    destruct (p y); cbn; lia.
Qed.

(** ** The invariant of the flow *)

Lemma Inv_fresh (w : World) : fresh w -> Inv w.
Proof.
  intros (Hui & _ & Hflight & Hmounted).
  constructor; rewrite ?Hui, ?Hflight, ?Hmounted; cbn; auto.
Qed.

Lemma Inv_frames (w w' : World) (extra : list Request) :
  frames w w' extra ->
  count is_subscribe extra = 0%nat ->
  count is_catalog extra = 0%nat ->
  Inv w -> Inv w'.
Proof.
  intros (Hl & Hp & Hm & Hf) Hs Hc [I1 I2 I3].
  constructor; rewrite ?Hl, ?Hp, ?Hm, ?Hf, ?count_app, ?Hs, ?Hc, ?Nat.add_0_r;
    auto.
Qed.

(** A step runs its handler on the world, a reply first leaving the
    requests in flight. *)
Lemma step_Settle (i : nat) (reply : Reply) (w : World) (req : Request)
    (k : M unit) :
  nth_error (inflight w) i = Some req ->
  continuation req reply = Some k ->
  step (Settle i reply) w
  = Some (k (with_inflight (remove_at i (inflight w)) w)).
Proof.
  intros Hreq Hk. unfold step. cbn [react]. rewrite Hreq, Hk. reflexivity.
Qed.

Lemma step_Settle_inv (i : nat) (reply : Reply) (w : World)
    (res : Outcome unit * World) :
  step (Settle i reply) w = Some res ->
  exists req k,
    nth_error (inflight w) i = Some req
    /\ continuation req reply = Some k
    /\ res = k (with_inflight (remove_at i (inflight w)) w).
Proof.
  unfold step. cbn [react].
  destruct (nth_error (inflight w) i) as [req |] eqn:Hreq; [| discriminate].
  destruct (continuation req reply) as [k |] eqn:Hk; [| discriminate].
  intros H. injection H as <-. exists req, k. repeat split; assumption.
Qed.

(** A control that can be clicked is not loading. *)
Lemma enabled_not_loading (s : State) (c : Control) :
  payNowControl s = Some c -> disabled c = false -> loading s = false.
Proof.
  unfold payNowControl. destruct (dialog s); [| discriminate].
  intros H. injection H as <-. cbn [disabled].
  intros Hor. now apply orb_false_elim in Hor.
Qed.

Lemma handlePayNow_cases (w : World) :
  (Js.trim (customerNameInput (ui w)) = [] \/ selectedPub (ui w) = None)
  \/ exists pub, selectedPub (ui w) = Some pub
                 /\ Js.trim (customerNameInput (ui w)) <> [].
Proof.
  destruct (selectedPub (ui w)) as [pub |]; [| auto].
  destruct (Js.trim (customerNameInput (ui w))) as [| c rest]; [auto |].
  right. exists pub. split; [reflexivity | discriminate].
Qed.

(** Every step keeps the invariant, and no handler throws. *)
Lemma step_Inv (a : Action) (w : World) (o : Outcome unit) (w' : World) :
  Inv w -> step a w = Some (o, w') -> o = Return tt /\ Inv w'.
Proof.
  intros HI Hstep. destruct a as [| i | | value | m | | i reply | c full].
  - (* Mount *)
    unfold step in Hstep. cbn in Hstep.
    destruct (mounted w) eqn:Hm; [discriminate |].
    injection Hstep as <- <-. split; [reflexivity |].
    destruct HI as [I1 I2 I3]. rewrite Hm in I2.
    constructor; cbn; rewrite ?count_snoc; cbn.
    + now rewrite Nat.add_0_r.
    + lia.
    + intros _. apply I3. now left.
  - (* ClickSubscribe *)
    unfold step in Hstep. cbn in Hstep.
    destruct (nth_error (publications (ui w)) i) as [pub |]; [| discriminate].
    injection Hstep as <- <-. split; [reflexivity |].
    apply (@Inv_frames w _ []); trivial.
    unfold frames. cbn. now rewrite app_nil_r.
  - (* CloseDialog *)
    unfold step in Hstep. cbn in Hstep.
    destruct (dialog (ui w)); [| discriminate].
    injection Hstep as <- <-. split; [reflexivity |].
    apply (@Inv_frames w _ []); trivial.
    unfold frames. cbn. now rewrite app_nil_r.
  - (* ChangeName *)
    unfold step in Hstep. cbn in Hstep.
    destruct (dialog (ui w)); [| discriminate].
    injection Hstep as Hstep. unfold_js. cbn in Hstep.
    set (w1 := with_ui (set_customerNameInput value) w) in *.
    destruct (fetchSubscriptions_frames value w1) as (Ho & Hf).
    unfold exec, outcome in Ho, Hf. rewrite Hstep in Ho, Hf. cbn in Ho, Hf.
    split; [exact Ho |].
    assert (HI1 : Inv w1).
    { apply (@Inv_frames w _ []); trivial.
      unfold frames. cbn. now rewrite app_nil_r. }
    destruct Hf as [Hf | Hf]; eapply Inv_frames; eauto.
  - (* ChoosePayment *)
    unfold step in Hstep. cbn in Hstep.
    destruct (dialog (ui w)); [| discriminate].
    injection Hstep as <- <-. split; [reflexivity |].
    apply (@Inv_frames w _ []); trivial.
    unfold frames. cbn. now rewrite app_nil_r.
  - (* ClickPayNow *)
    unfold step in Hstep. cbn in Hstep.
    destruct (payNowControl (ui w)) as [c |] eqn:Hc; [| discriminate].
    destruct (disabled c) eqn:Hd; [discriminate |].
    pose proof (enabled_not_loading _ Hc Hd) as Hloading.
    injection Hstep as Hstep.
    destruct (handlePayNow_cases w) as [Hno | (pub & Hpub & Hname)].
    + rewrite (handlePayNow_refuses w Hno) in Hstep.
      injection Hstep as <- <-. split; [reflexivity |].
      apply (@Inv_frames w _ []); trivial.
      unfold frames. cbn. now rewrite app_nil_r.
    + rewrite (handlePayNow_sends w Hpub Hname) in Hstep.
      injection Hstep as <- <-. split; [reflexivity |].
      destruct HI as [I1 I2 I3]. rewrite Hloading in I1.
      constructor; cbn; rewrite ?count_snoc; cbn; rewrite ?Nat.add_0_r; auto.
      now rewrite I1.
  - (* Settle *)
    apply step_Settle_inv in Hstep.
    destruct Hstep as (req & k & Hreq & Hk & Hres).
    destruct HI as [I1 I2 I3].
    pose proof (count_remove_at is_subscribe _ _ Hreq) as Hs.
    pose proof (count_remove_at is_catalog _ _ Hreq) as Hc.
    set (w0 := with_inflight (remove_at i (inflight w)) w) in *.
    destruct req as [| | pub input], reply as [r | r | r];
      try discriminate; injection Hk as <-; cbn in Hs, Hc.
    + rewrite fetchPublications_settled_run in Hres.
      injection Hres as -> ->. split; [reflexivity |].
      assert (Hm : mounted w = true)
        by (destruct (mounted w); [reflexivity | lia]).
      rewrite Hm in I2.
      constructor; destruct r; cbn; rewrite ?Hm; try lia.
      all: intros [? | ?]; [discriminate | lia].
    + rewrite fetchSubscriptions_settled_run in Hres.
      injection Hres as -> ->. split; [reflexivity |].
      constructor; destruct r; cbn; try lia.
      all: intros [? | ?]; apply I3; [now left | right; lia].
    + destruct (handlePayNow_settled_frames pub input r w0)
        as (Ho & Hl & Hp & Hm & Hf).
      unfold exec, outcome in *. rewrite <- Hres in *. cbn in Ho, Hl, Hp, Hm, Hf.
      split; [exact Ho |].
      assert (Hzero : count is_subscribe (remove_at i (inflight w)) = 0%nat)
        by (destruct (loading (ui w)); lia).
      constructor; rewrite ?Hl, ?Hp, ?Hm.
      * destruct Hf as [-> | ->]; rewrite ?count_snoc; cbn; lia.
      * destruct Hf as [-> | ->]; rewrite ?count_snoc; cbn; lia.
      * intros [H | H]; apply I3; [now left | right].
        destruct Hf as [Hf | Hf]; rewrite Hf in H;
          rewrite ?count_snoc in H; cbn in H; lia.
  - (* StorageChanged *)
    unfold step in Hstep. cbn in Hstep.
    injection Hstep as <- <-. split; [reflexivity |].
    apply (@Inv_frames w _ []); trivial.
    unfold frames. cbn. now rewrite app_nil_r.
Qed.

Lemma reachable_Inv (w : World) : reachable w -> Inv w.
Proof.
  induction 1 as [w Hfresh | w a o w' _ IH Hstep].
  - now apply Inv_fresh.
  - exact (proj2 (step_Inv a IH Hstep)).
Qed.

Lemma run_reachable (actions : list Action) (w w' : World) :
  reachable w -> run actions w = Some w' -> reachable w'.
Proof.
  revert w. induction actions as [| a rest IH]; intros w Hw Hrun; cbn in Hrun.
  - now injection Hrun as <-.
  - destruct (step a w) as [[[[] | e] w1] |] eqn:Hstep; try discriminate.
    apply (IH w1); [| exact Hrun].
    eapply reachable_step; eassumption.
Qed.

Lemma fresh_world0 (c : Cell) : fresh (world0 c).
Proof. repeat split. Qed.

(** C9. In every reachable world at most one subscribe submission is in
    flight.  While one is, [loading] is true, the control of the dialog is
    disabled and clicking it is not a possible step, so no second
    submission can start.  When the submission settles, with either
    outcome of the POST, its continuation returns, [loading] is false, and
    no submission is in flight any more. *)
Theorem one_submission_at_a_time (w : World) :
  reachable w ->
  (count is_subscribe (inflight w) <= 1)%nat
  /\ (count is_subscribe (inflight w) = 1%nat ->
      loading (ui w) = true
      /\ step ClickPayNow w = None
      /\ forall c, payNowControl (ui w) = Some c -> disabled c = true)
  /\ (forall i pub input r,
        nth_error (inflight w) i = Some (SubscribeRequest pub input) ->
        count is_subscribe (inflight w) = 1%nat
        /\ exists w',
             step (Settle i (SubscribeReply r)) w = Some (Return tt, w')
             /\ loading (ui w') = false
             /\ count is_subscribe (inflight w') = 0%nat).
Proof.
  intros Hreach. pose proof (reachable_Inv Hreach) as HI.
  pose proof (inv_loading HI) as I1.
  split; [destruct (loading (ui w)); lia |].
  split.
  - intros Hone.
    assert (Hl : loading (ui w) = true)
      by (destruct (loading (ui w)); [reflexivity | lia]).
    assert (Hdisabled :
      forall c, payNowControl (ui w) = Some c -> disabled c = true).
    { unfold payNowControl. intros c. destruct (dialog (ui w)); [| discriminate].
      intros H. injection H as <-. cbn. now rewrite Hl. }
    split; [exact Hl |]. split; [| exact Hdisabled].
    unfold step. cbn.
    destruct (payNowControl (ui w)) as [c |] eqn:Hc; [| reflexivity].
    now rewrite (Hdisabled c eq_refl).
  - intros i pub input r Hreq.
    pose proof (count_remove_at is_subscribe _ _ Hreq) as Hs. cbn in Hs.
    assert (Hone : count is_subscribe (inflight w) = 1%nat)
      by (destruct (loading (ui w)); lia).
    split; [exact Hone |].
    set (w0 := with_inflight (remove_at i (inflight w)) w).
    destruct (handlePayNow_settled_frames pub input r w0)
      as (Ho & Hl & _ & _ & Hf).
    exists (exec (handlePayNow_settled pub input r) w0).
    split; [| split; [exact Hl |]].
    + rewrite (@step_Settle i (SubscribeReply r) w _
                 (handlePayNow_settled pub input r) Hreq eq_refl).
      fold w0. unfold exec, outcome in *.
      destruct (handlePayNow_settled pub input r w0) as [o w1].
      cbn in Ho. now rewrite Ho.
    + destruct Hf as [-> | ->]; rewrite ?count_snoc; cbn; lia.
Qed.

Lemma one_submission_at_a_time_witness :
  exists w,
    run submitting (world0 Absent) = Some w
    /\ reachable w
    /\ count is_subscribe (inflight w) = 1%nat
    /\ loading (ui w) = true
    /\ step ClickPayNow w = None.
Proof.
  destruct (run submitting (world0 Absent)) as [w |] eqn:Hrun;
    [| vm_compute in Hrun; discriminate].
  exists w.
  assert (Hreach : reachable w)
    by (exact (run_reachable submitting
                 (reachable_fresh (fresh_world0 Absent)) Hrun)).
  assert (Hone : count is_subscribe (inflight w) = 1%nat).
  { vm_compute in Hrun. injection Hrun as <-. reflexivity. }
  destruct (one_submission_at_a_time Hreach) as (_ & Hbusy & _).
  destruct (Hbusy Hone) as (Hl & Hclick & _).
  repeat split; assumption.
Defined.

(** No handler of the flow throws, whatever the world and the reply. *)
Lemma react_returns (a : Action) (w : World) (handler : M unit) :
  react a w = Some handler -> outcome handler w = Return tt.
Proof.
  intros Hreact. unfold outcome.
  destruct a as [| i | | value | m | | i reply | c full]; cbn in Hreact.
  - destruct (mounted w); [discriminate |]. now injection Hreact as <-.
  - destruct (nth_error (publications (ui w)) i); [| discriminate].
    now injection Hreact as <-.
  - destruct (dialog (ui w)); [| discriminate]. now injection Hreact as <-.
  - destruct (dialog (ui w)); [| discriminate]. injection Hreact as <-.
    unfold_js. cbn. now rewrite fetchSubscriptions_run.
  - destruct (dialog (ui w)); [| discriminate]. now injection Hreact as <-.
  - destruct (payNowControl (ui w)) as [c |]; [| discriminate].
    destruct (disabled c); [discriminate |]. injection Hreact as <-.
    destruct (handlePayNow_cases w) as [Hno | (pub & Hpub & Hname)].
    + now rewrite (handlePayNow_refuses w Hno).
    + now rewrite (handlePayNow_sends w Hpub Hname).
  - destruct (nth_error (inflight w) i) as [req |]; [| discriminate].
    destruct (continuation req reply) as [k |] eqn:Hk; [| discriminate].
    injection Hreact as <-. unfold_js. cbn.
    set (w0 := with_inflight (remove_at i (inflight w)) w).
    destruct req as [| | pub input], reply as [r | r | r];
      try discriminate; injection Hk as <-.
    + now rewrite fetchPublications_settled_run.
    + now rewrite fetchSubscriptions_settled_run.
    + exact (proj1 (handlePayNow_settled_frames pub input r w0)).
  - now injection Hreact as <-.
Qed.

(** The control after a settled submission: what is left of its disabling
    is the guard. *)
Lemma control_when_idle (s : State) (pub : Publication.t) :
  loading s = false ->
  dialog s = Some pub ->
  payNowControl s =
    Some {| disabled := isSubscribed s (Publication._id pub);
            label := if isSubscribed s (Publication._id pub)
                     then Js.lit "Already Subscribed"
                     else Js.lit "Pay Now" |}.
Proof.
  intros Hl Hd. unfold payNowControl. rewrite Hd, Hl. reflexivity.
Qed.

(** C8 (as amended). No handler of the flow throws: whatever action is
    possible in a world, its handler returns.  An error of any of the
    three calls is logged and turned into one error notification, and
    the state falls back: after a failed catalog fetch the publication
    list is empty (the component state is untouched); a failed lookup,
    or one that cannot be sent, leaves the component state, so the
    subscribed set, as it was; after a failed submission, or one whose
    local write fails, [loading] is false, so that the control of the
    dialog is enabled again and reads "Pay Now" unless the guard holds of
    the selected publication, in which case it stays disabled. *)
Theorem no_handler_throws_errors_fall_back :
  (forall a w handler,
     react a w = Some handler -> outcome handler w = Return tt)
  /\ (forall w i error o w',
        reachable w ->
        nth_error (inflight w) i = Some CatalogRequest ->
        step (Settle i (CatalogReply (Rejected error))) w = Some (o, w') ->
        added w w' =
          [ console_error (Js.lit "Error fetching publications:")
              (OfAxios error);
            toast_error
              (shown error (Js.lit "Failed to fetch available publications")) ]
        /\ ui w' = ui w
        /\ publications (ui w') = [])
  /\ (forall w i error o w',
        nth_error (inflight w) i = Some LookupRequest ->
        step (Settle i (LookupReply (Rejected error))) w = Some (o, w') ->
        added w w' =
          [ console_error (Js.lit "Error fetching subscriptions:")
              (OfAxios error);
            toast_error (shown error (Js.lit "Failed to fetch subscriptions")) ]
        /\ ui w' = ui w)
  /\ (forall name w,
        Js.trim name <> [] ->
        Js.well_formed name = false ->
        added w (exec (fetchSubscriptions name) w) =
          [ console_error (Js.lit "Error fetching subscriptions:") URIError;
            toast_error (Js.lit "Failed to fetch subscriptions") ]
        /\ ui (exec (fetchSubscriptions name) w) = ui w)
  /\ (forall w i pub input r o w',
        nth_error (inflight w) i = Some (SubscribeRequest pub input) ->
        step (Settle i (SubscribeReply r)) w = Some (o, w') ->
        (forall error, r = Rejected error ->
           added w w' =
             [ console_error (Js.lit "Subscription error:") (OfAxios error);
               toast_error (shown error (Js.lit "Subscription failed")) ])
        /\ (forall e, r = Fulfilled tt -> write_error w = Some e ->
              added w w' =
                [ console_error (Js.lit "Subscription error:") e;
                  toast_error (Js.lit "Subscription failed") ])
        /\ loading (ui w') = false
        /\ forall selected,
             dialog (ui w') = Some selected ->
             payNowControl (ui w') =
               Some {| disabled := isSubscribed (ui w') (Publication._id selected);
                       label := if isSubscribed (ui w') (Publication._id selected)
                                then Js.lit "Already Subscribed"
                                else Js.lit "Pay Now" |}).
Proof.
  split; [exact react_returns |].
  split.
  { intros w i error o w' Hreach Hreq Hstep.
    rewrite (@step_Settle i (CatalogReply (Rejected error)) w _ _ Hreq eq_refl)
      in Hstep.
    rewrite fetchPublications_settled_run in Hstep.
    injection Hstep as <- <-.
    split; [apply added_app; reflexivity |]. split; [reflexivity |].
    cbn. apply (inv_empty (reachable_Inv Hreach)). right.
    pose proof (inv_catalog (reachable_Inv Hreach)) as I2.
    pose proof (count_remove_at is_catalog _ _ Hreq) as Hc. cbn in Hc.
    destruct (mounted w); lia. }
  split.
  { intros w i error o w' Hreq Hstep.
    rewrite (@step_Settle i (LookupReply (Rejected error)) w _ _ Hreq eq_refl)
      in Hstep.
    rewrite fetchSubscriptions_settled_run in Hstep.
    injection Hstep as <- <-.
    split; [apply added_app; reflexivity | reflexivity]. }
  split.
  { intros name w Hname Hbad. split.
    - apply added_app. rewrite fetchSubscriptions_log. unfold lookup_events.
      rewrite Hbad.
      destruct (Js.trim name); [congruence | reflexivity].
    - rewrite fetchSubscriptions_ui.
      destruct (Js.trim name); [congruence | reflexivity]. }
  intros w i pub input r o w' Hreq Hstep.
  rewrite (@step_Settle i (SubscribeReply r) w _ _ Hreq eq_refl) in Hstep.
  set (w0 := with_inflight (remove_at i (inflight w)) w) in *.
  assert (Hlog0 : log w0 = log w) by reflexivity.
  assert (Hl : loading (ui w') = false).
  { pose proof (handlePayNow_settled_frames pub input r w0) as H.
    cbv zeta in H. unfold exec in H.
    destruct (handlePayNow_settled pub input r w0) as [o1 w1].
    injection Hstep as _ <-. exact (proj1 (proj2 H)). }
  repeat split.
  - intros error ->. rewrite handlePayNow_settled_rejected in Hstep.
    injection Hstep as _ <-. apply added_app. reflexivity.
  - intros e -> He.
    rewrite (@handlePayNow_settled_unrecorded pub input w0 e He) in Hstep.
    injection Hstep as _ <-. apply added_app. reflexivity.
  - exact Hl.
  - intros selected Hd. now apply control_when_idle.
Qed.

Lemma no_handler_throws_errors_fall_back_witness :
  let error := ErrorResponse (Some (Js.lit "Already active")) in
  let w' := exec (handlePayNow_settled dailyTimes asha (Rejected error))
                 (with_inflight [] submitted) in
  react ClickPayNow (typed asha) = Some handlePayNow
  /\ outcome handlePayNow (typed asha) = Return tt
  /\ nth_error (inflight submitted) 0 = Some (SubscribeRequest dailyTimes asha)
  /\ step (Settle 0 (SubscribeReply (Rejected error))) submitted
     = Some (Return tt, w')
  /\ added submitted w' =
       [ console_error (Js.lit "Subscription error:") (OfAxios error);
         toast_error (Js.lit "Already active") ]
  /\ loading (ui w') = false
  /\ payNowControl (ui w') =
       Some {| disabled := false; label := Js.lit "Pay Now" |}.
Proof.
  cbv zeta.
  destruct no_handler_throws_errors_fall_back as (Hreturns & _ & _ & _ & Hsub).
  split; [reflexivity |].
  split; [exact (Hreturns ClickPayNow (typed asha) handlePayNow eq_refl) |].
  split; [reflexivity |].
  split; [reflexivity |].
  destruct (Hsub submitted 0%nat dailyTimes asha
              (Rejected (ErrorResponse (Some (Js.lit "Already active"))))
              _ _ eq_refl eq_refl)
    as (Hrejected & _ & Hloading & Hcontrol).
  split; [exact (Hrejected _ eq_refl) |].
  split; [exact Hloading |].
  exact (Hcontrol dailyTimes eq_refl).
Defined.

(** C8 as stated fails: after this failed submission the control is not
    enabled again; the guard keeps it disabled. *)
Lemma control_stays_disabled_after_refusal :
  exists w,
    run refusedAfterLateLookup (world0 Absent) = Some w
    /\ count is_toast_error (log w) = 1%nat
    /\ loading (ui w) = false
    /\ payNowControl (ui w) =
         Some {| disabled := true; label := Js.lit "Already Subscribed" |}.
Proof.
  eexists. split; [vm_compute; reflexivity |].
  repeat split; vm_compute; reflexivity.
Qed.


(* ===================================================================== *)
(** * The steps of the flow, one by one *)
(* ===================================================================== *)

Lemma modify_run (f : World -> World) (w : World) :
  modify f w = (Return tt, f w).
Proof. reflexivity. Qed.

Lemma dialog_selected (s : State) (pub : Publication.t) :
  dialog s = Some pub -> selectedPub s = Some pub /\ showModal s = true.
Proof.
  unfold dialog. destruct (showModal s); [auto | discriminate].
Qed.

Lemma control_enabled (s : State) (c : Control) :
  payNowControl s = Some c -> disabled c = false ->
  exists pub, dialog s = Some pub
              /\ loading s = false
              /\ isSubscribed s (Publication._id pub) = false.
Proof.
  unfold payNowControl. destruct (dialog s) as [pub |]; [| discriminate].
  intros H. injection H as <-. cbn [disabled]. intros Hor.
  apply orb_false_elim in Hor. exists pub. tauto.
Qed.

(** Every possible step is one of the ways listed in [leaves], and its
    handler returns. *)
Lemma step_leaves (a : Action) (w : World) (o : Outcome unit) (w' : World) :
  step a w = Some (o, w') -> o = Return tt /\ leaves w a w'.
Proof.
  intros Hstep. destruct a as [| i | | value | m | | i reply | c full].
  - unfold step in Hstep. cbn [react] in Hstep.
    destruct (mounted w) eqn:Hm; [discriminate |].
    injection Hstep as <- <-. split; [reflexivity |].
    now apply leaves_mount.
  - unfold step in Hstep. cbn [react] in Hstep.
    destruct (nth_error (publications (ui w)) i) as [pub |] eqn:Hi;
      [| discriminate].
    injection Hstep as <- <-. split; [reflexivity |].
    now apply leaves_select.
  - unfold step in Hstep. cbn [react] in Hstep.
    destruct (dialog (ui w)) as [pub |] eqn:Hd; [| discriminate].
    injection Hstep as <- <-. split; [reflexivity |].
    now apply leaves_close with pub.
  - unfold step in Hstep. cbn [react] in Hstep.
    destruct (dialog (ui w)) as [pub |] eqn:Hd; [| discriminate].
    injection Hstep as Hstep.
    unfold setCustomerNameInput in Hstep.
    rewrite (bind_return _ (modify_run _ w)) in Hstep.
    rewrite fetchSubscriptions_run in Hstep. injection Hstep as <- <-.
    split; [reflexivity |].
    replace (if negb (Js.truthy (Js.trim value)) then _ else _)
      with (exec (fetchSubscriptions value)
                 (with_ui (set_customerNameInput value) w))
      by (unfold exec; now rewrite fetchSubscriptions_run).
    now apply leaves_name with pub.
  - unfold step in Hstep. cbn [react] in Hstep.
    destruct (dialog (ui w)) as [pub |] eqn:Hd; [| discriminate].
    injection Hstep as <- <-. split; [reflexivity |].
    now apply leaves_method with pub.
  - unfold step in Hstep. cbn [react] in Hstep.
    destruct (payNowControl (ui w)) as [c |] eqn:Hc; [| discriminate].
    destruct (disabled c) eqn:Hdis; [discriminate |].
    injection Hstep as Hstep.
    destruct (control_enabled _ Hc Hdis) as (pub & Hd & Hl & Hs).
    destruct (dialog_selected _ Hd) as (Hsel & _).
    destruct (Js.trim (customerNameInput (ui w))) as [| ch rest] eqn:Hname.
    + rewrite (handlePayNow_refuses w (or_introl Hname)) in Hstep.
      rewrite Hname in Hstep. injection Hstep as <- <-.
      split; [reflexivity |]. now apply leaves_refused with pub.
    + assert (Hne : Js.trim (customerNameInput (ui w)) <> [])
        by (rewrite Hname; discriminate).
      rewrite (handlePayNow_sends w Hsel Hne) in Hstep.
      injection Hstep as <- <-. split; [reflexivity |].
      now apply leaves_posted.
  - apply step_Settle_inv in Hstep.
    destruct Hstep as (req & k & Hreq & Hk & Hres).
    set (w0 := with_inflight (remove_at i (inflight w)) w) in *.
    destruct req as [| | pub input], reply as [r | r | r];
      try discriminate; injection Hk as <-.
    + rewrite fetchPublications_settled_run in Hres.
      injection Hres as -> ->. split; [reflexivity |].
      destruct r; [now apply leaves_catalog | now apply leaves_catalog_failed].
    + rewrite fetchSubscriptions_settled_run in Hres.
      injection Hres as -> ->. split; [reflexivity |].
      destruct r; [now apply leaves_lookup | now apply leaves_lookup_failed].
    + destruct r as [[] | error].
      * destruct (write_error w) as [e |] eqn:He.
        -- rewrite (@handlePayNow_settled_unrecorded pub input w0 e He) in Hres.
           injection Hres as -> ->. split; [reflexivity |].
           change (readings w0) with (readings w).
           now apply leaves_unrecorded with pub input.
        -- destruct (write_error_none_payment w pub He)
             as (payment & items & Hpayment & Hledger & Hfull).
           rewrite (@handlePayNow_settled_recorded pub input w0 payment items
                      Hpayment Hledger Hfull) in Hres.
           injection Hres as -> ->. split; [reflexivity |].
           now apply leaves_recorded.
      * rewrite handlePayNow_settled_rejected in Hres.
        injection Hres as -> ->. split; [reflexivity |].
        now apply leaves_rejected with pub input.
  - unfold step in Hstep. cbn [react] in Hstep.
    injection Hstep as <- <-. split; [reflexivity |]. apply leaves_storage.
Qed.

(* ===================================================================== *)
(** * Trimmed names and record identities *)
(* ===================================================================== *)

Lemma trimStart_head (s : Js.str) (c : N) (rest : Js.str) :
  Js.trimStart s = c :: rest -> Js.is_space c = false.
Proof.
  induction s as [| d s IH]; cbn [Js.trimStart]; [discriminate |].
  destruct (Js.is_space d) eqn:Hd; [exact IH |].
  intros H. injection H as <- _. exact Hd.
Qed.

Lemma trimStart_suffix (s : Js.str) : exists front, s = front ++ Js.trimStart s.
Proof.
  induction s as [| d s (front & IH)]; [now exists [] |].
  cbn [Js.trimStart]. destruct (Js.is_space d).
  - exists (d :: front). cbn. now f_equal.
  - now exists [].
Qed.

(** What [trim] returns has no white space at either end. *)
Lemma trim_outer_space_free (s : Js.str) :
  Js.trim s <> [] -> outer_space_free (Js.trim s) = true.
Proof.
  unfold Js.trim, Js.trimEnd.
  set (u := Js.trimStart s). set (v := Js.trimStart (rev u)).
  intros Hne.
  destruct v as [| c rest] eqn:Hv; [now destruct Hne |].
  pose proof (trimStart_head (rev u) Hv) as Hc.
  destruct (trimStart_suffix (rev u)) as (front & Hfront).
  fold v in Hfront. rewrite Hv in Hfront.
  assert (Hu : u = rev rest ++ c :: rev front).
  { rewrite <- (rev_involutive u), Hfront, rev_app_distr. cbn [rev].
    now rewrite <- app_assoc. }
  cbn [rev]. unfold outer_space_free.
  destruct (rev rest ++ [c]) as [| h t] eqn:Hrev;
    [now destruct (rev rest) |].
  assert (Hlast : last (h :: t) h = c)
    by (rewrite <- Hrev; apply last_last).
  rewrite Hlast, Hc.
  assert (Hh : Js.is_space h = false).
  { destruct (rev rest) as [| h' t'] eqn:Hrest.
    - cbn in Hrev. injection Hrev as <- _. exact Hc.
    - cbn in Hrev. injection Hrev as -> _.
      apply (@trimStart_head s h (t' ++ c :: rev front)).
      fold u. rewrite Hu. reflexivity. }
  now rewrite Hh.
Qed.

Lemma lit_inj (a b : string) : Js.lit a = Js.lit b -> a = b.
Proof.
  unfold Js.lit. intros H.
  rewrite <- (string_of_list_ascii_of_string a),
          <- (string_of_list_ascii_of_string b).
  f_equal.
  revert H. generalize (list_ascii_of_string a), (list_ascii_of_string b).
  induction l as [| x l IH]; intros [| y l']; cbn; try discriminate; trivial.
  intros H. injection H as Hxy Hl. f_equal; [| now apply IH].
  now rewrite <- (ascii_N_embedding x), <- (ascii_N_embedding y), Hxy.
Qed.

(** [toString] tells integers apart. *)
Lemma of_Z_inj (a b : Z) : Js.of_Z a = Js.of_Z b -> a = b.
Proof.
  unfold Js.of_Z. intros H. apply lit_inj in H.
  apply DecimalZ.to_int_inj.
  assert (Hparse : forall z,
    DecimalString.NilZero.int_of_string
      (DecimalString.NilZero.string_of_int (Z.to_int z)) = Some (Z.to_int z)).
  { intros z. apply DecimalString.NilZero.isi; destruct z; cbn; try discriminate.
    - intros E. injection E as E. now apply DecimalPos.Unsigned.to_uint_nonnil in E.
    - intros E. injection E as E. now apply DecimalPos.Unsigned.to_uint_nonnil in E. }
  pose proof (Hparse a) as Ha. rewrite H, Hparse in Ha. now injection Ha.
Qed.

(* ===================================================================== *)
(** * The books of the flow *)
(* ===================================================================== *)

Lemma lookup_events_counts (name : Js.str) :
  count is_post (lookup_events name) = 0%nat
  /\ count is_navigate (lookup_events name) = 0%nat
  /\ count is_toast_success (lookup_events name) = 0%nat
  /\ count is_get_publications (lookup_events name) = 0%nat.
Proof.
  unfold lookup_events.
  destruct (negb (Js.truthy (Js.trim name))); [repeat split |].
  destruct (Js.well_formed name); repeat split.
Qed.

Lemma lookup_events_sound (pubs : list Publication.t) (name : Js.str) :
  Forall (sound_request pubs) (lookup_events name).
Proof.
  unfold lookup_events.
  destruct (Js.trim name) as [| c rest] eqn:Hname; cbn; [constructor |].
  destruct (Js.well_formed name) eqn:Hwf.
  - constructor; [| constructor]. cbn. rewrite Hname. split; [discriminate | exact Hwf].
  - repeat constructor.
Qed.

Lemma In_remove_at {A} (x : A) (i : nat) (l : list A) :
  In x (remove_at i l) -> In x l.
Proof.
  revert i. induction l as [| y l IH]; intros [| i]; cbn; auto.
  intros [-> | H]; [now left | right; eauto].
Qed.

Lemma sound_request_no_posts (pubs : list Publication.t) (l : list Event) :
  Forall (sound_request []) l -> Forall (sound_request pubs) l.
Proof.
  intros H. eapply Forall_impl; [| exact H].
  intros [] Hs; cbn in *; trivial.
  destruct Hs as (_ & p & [] & _).
Qed.

(** Where a step only adds [l] to the log, the books are kept under
    these conditions on what it adds and on what it leaves in flight. *)
Lemma Books_step (w w' : World) (l : list Event) :
  Books w ->
  log w' = log w ++ l ->
  (count is_get_publications l + (if mounted w then 1 else 0)
   = if mounted w' then 1 else 0)%nat ->
  count is_toast_success l = count (is_dispatch (Js.lit "billsUpdated")) l ->
  count is_navigate l = count (is_dispatch (Js.lit "billsUpdated")) l ->
  (count (is_dispatch (Js.lit "billsUpdated")) l
   + count is_subscribe (inflight w')
   <= count is_subscribe (inflight w) + count is_post l)%nat ->
  Forall (sound_request (publications (ui w'))) l ->
  (publications (ui w') = publications (ui w) \/ publications (ui w) = []) ->
  (forall p, selectedPub (ui w') = Some p -> In p (publications (ui w'))) ->
  (forall p input,
     In (SubscribeRequest p input) (inflight w') ->
     In (SubscribeRequest p input) (inflight w) \/ Js.trim input <> []) ->
  Books w'.
Proof.
  intros [K1 [K2 K2'] K3 K4 K5 K6] Hlog Hcat Hts Hnav Hposts Hsound Hpubs
         Hsel Hflight.
  constructor; rewrite ?Hlog, ?count_app.
  - lia.
  - lia.
  - lia.
  - apply Forall_app. split; [| exact Hsound].
    destruct Hpubs as [-> | Hnil]; [exact K4 |].
    apply sound_request_no_posts. now rewrite <- Hnil.
  - exact Hsel.
  - intros p input Hin. destruct (Hflight p input Hin); eauto.
Qed.

Lemma Books_fresh (w : World) : fresh w -> Books w.
Proof.
  intros (Hui & Hlog & Hflight & Hmounted).
  constructor; rewrite ?Hui, ?Hlog, ?Hflight, ?Hmounted; cbn;
    try reflexivity; try (constructor; fail); try easy.
Qed.

(** What a call of [fetchSubscriptions] changes of what the books look
    at. *)
Lemma fetchSubscriptions_books (name : Js.str) (w : World) :
  let w' := exec (fetchSubscriptions name) w in
  log w' = log w ++ lookup_events name
  /\ mounted w' = mounted w
  /\ publications (ui w') = publications (ui w)
  /\ selectedPub (ui w') = selectedPub (ui w)
  /\ (inflight w' = inflight w \/ inflight w' = inflight w ++ [LookupRequest]).
Proof.
  cbv zeta. split; [apply fetchSubscriptions_log |].
  unfold exec. rewrite fetchSubscriptions_run. cbn [snd].
  destruct (negb (Js.truthy (Js.trim name))); [repeat split; auto |].
  destruct (Js.well_formed name); repeat split; auto.
Qed.

Lemma In_snoc_lookup (p : Publication.t) (input : Js.str) (l : list Request) :
  In (SubscribeRequest p input) (l ++ [LookupRequest]) ->
  In (SubscribeRequest p input) l.
Proof.
  intros H. apply in_app_or in H. destruct H as [H | [H | []]];
    [exact H | discriminate].
Qed.

Lemma count_cons {A} (p : A -> bool) (x : A) (l : list A) :
  count p (x :: l) = ((if p x then 1 else 0) + count p l)%nat.
Proof. unfold count. cbn. now destruct (p x). Qed.

Lemma count_nil {A} (p : A -> bool) : count p [] = 0%nat.
Proof. reflexivity. Qed.

Lemma is_dispatch_same (type : Js.str) :
  is_dispatch type (dispatchEvent type) = true.
Proof. cbn. now apply str_eqb_eq. Qed.

(** Counting the events of a list that is written out. *)
Ltac tally :=
  rewrite ?count_app, ?count_cons, ?count_nil, ?is_dispatch_same;
  cbn [is_post is_navigate is_toast_success is_get_publications is_dispatch
         is_subscribe is_catalog is_request is_toast_error].

(** The side conditions of [Books_step] that go by themselves. *)
Ltac books_side :=
  cbn [mounted with_inflight with_log with_ui with_reads with_mounted
         with_storage with_payments ui inflight log publications selectedPub
         set_loading set_showModal set_selectedPub set_customerNameInput
         set_paymentMethod set_subscriptions set_publications];
  first [ reflexivity
        | assumption
        | solve [rewrite ?app_nil_r; reflexivity]
        | solve [tally; lia]
        | solve [repeat constructor]
        | solve [left; reflexivity]
        | solve [intros ? ? Hin; left; eauto using In_remove_at]
        | idtac ].

(** Every step keeps the books. *)
Lemma leaves_Books (w : World) (a : Action) (w' : World) :
  Inv w -> Books w -> leaves w a w' -> Books w'.
Proof.
  intros HI HB Hleaves.
  pose proof (books_selected HB) as K5.
  pose proof (books_inflight HB) as K6.
  destruct Hleaves as
    [ Hm | i pub Hi | pub Hd | pub value Hd | pub m Hd
    | pub Hd Hl Hs Hname | pub Hd Hl Hs Hname
    | i data Hreq | i error Hreq | i data Hreq | i error Hreq
    | i pub input error Hreq | i pub input e Hreq He
    | i pub input payment items Hreq Hpayment Hledger Hfull | c full ].
  - (* mount *)
    apply (@Books_step w _ [get_publications] HB); books_side.
    + rewrite Hm. reflexivity.
    + intros p input Hin. apply in_app_or in Hin.
      destruct Hin as [Hin | [Hin | []]]; [auto | discriminate].
  - (* select *)
    apply (@Books_step w _ [] HB); books_side.
    intros p Hp. injection Hp as <-. eapply nth_error_In; eassumption.
  - (* close *)
    apply (@Books_step w _ [] HB); books_side.
  - (* name *)
    destruct (fetchSubscriptions_books value
                (with_ui (set_customerNameInput value) w))
      as (Hlog & Hmounted & Hpubs & Hsel & Hflight).
    destruct (lookup_events_counts value) as (Hp & Hn & Ht & Hg).
    apply (@Books_step w _ (lookup_events value) HB);
      rewrite ?Hmounted, ?Hpubs, ?Hsel, ?Hp, ?Hn, ?Ht, ?Hg,
              ?lookup_events_no_dispatch;
      books_side.
    + destruct Hflight as [-> | ->]; books_side.
    + apply lookup_events_sound.
    + intros p input Hin. left.
      destruct Hflight as [Hf | Hf]; rewrite Hf in Hin;
        [exact Hin | now apply In_snoc_lookup in Hin].
  - (* payment method *)
    apply (@Books_step w _ [] HB); books_side.
  - (* refused *)
    apply (@Books_step w _ [toast_error (Js.lit "Please enter your name")] HB);
      books_side.
  - (* posted *)
    destruct (dialog_selected _ Hd) as (Hsel & _).
    eapply (@Books_step w _ [post_subscribe _] HB); books_side.
    + constructor; [| constructor]. cbn. split.
      * now apply trim_outer_space_free.
      * exists pub. auto.
    + intros p input Hin. apply in_app_or in Hin.
      destruct Hin as [Hin | [Hin | []]]; [auto |].
      injection Hin as <- <-. now right.
  - (* catalog *)
    pose proof (count_remove_at is_subscribe _ _ Hreq) as Hsub.
    pose proof (count_remove_at is_catalog _ _ Hreq) as Hcat.
    cbn in Hsub, Hcat.
    assert (Hempty : publications (ui w) = []).
    { apply (inv_empty HI). right.
      pose proof (inv_catalog HI). destruct (mounted w); lia. }
    apply (@Books_step w _ [] HB); books_side.
    + now right.
    + intros p Hp. apply K5 in Hp. now rewrite Hempty in Hp.
  - (* catalog failed *)
    pose proof (count_remove_at is_subscribe _ _ Hreq) as Hsub.
    cbn in Hsub.
    eapply (@Books_step w _ [_; _] HB); books_side.
  - (* lookup *)
    pose proof (count_remove_at is_subscribe _ _ Hreq) as Hsub.
    cbn in Hsub.
    apply (@Books_step w _ [] HB); books_side.
  - (* lookup failed *)
    pose proof (count_remove_at is_subscribe _ _ Hreq) as Hsub.
    cbn in Hsub.
    eapply (@Books_step w _ [_; _] HB); books_side.
  - (* rejected *)
    pose proof (count_remove_at is_subscribe _ _ Hreq) as Hsub.
    cbn in Hsub.
    eapply (@Books_step w _ [_; _] HB); books_side.
  - (* unrecorded *)
    pose proof (count_remove_at is_subscribe _ _ Hreq) as Hsub.
    cbn in Hsub.
    eapply (@Books_step w _ [_; _] HB); books_side.
  - (* recorded *)
    pose proof (count_remove_at is_subscribe _ _ Hreq) as Hsub.
    cbn in Hsub.
    set (w0 := with_inflight (remove_at i (inflight w)) w) in *.
    destruct (fetchSubscriptions_books input (recorded w0 pub payment items))
      as (Hlog & Hmounted & Hpubs & Hsel & Hflight).
    destruct (lookup_events_counts input) as (Hp & Hn & Ht & Hg).
    pose proof (lookup_events_no_dispatch input (Js.lit "billsUpdated")) as Hd0.
    set (looked := exec (fetchSubscriptions input) (recorded w0 pub payment items)) in *.
    assert (Hnew : log looked ++ [navigate (Js.lit "/payments")]
                   = log w ++
                     ([ dispatchEvent (Js.lit "billsUpdated");
                        toast_success
                          (Js.lit "Subscribed to " ++ Publication.name pub
                             ++ Js.lit " successfully!") ]
                      ++ lookup_events input ++ [navigate (Js.lit "/payments")])).
    { rewrite Hlog. unfold recorded. cbn [log with_ui with_log].
      now rewrite <- !app_assoc. }
    eapply (@Books_step w _ _ HB);
      [ cbn [log with_ui with_log]; exact Hnew | .. ];
      cbn [mounted with_ui with_log ui inflight publications selectedPub
             set_loading];
      rewrite ?Hmounted, ?Hpubs, ?Hsel; unfold recorded, w0;
      books_side.
    + destruct Hflight as [Hf | Hf]; rewrite Hf; unfold recorded, w0;
        cbn [inflight with_ui with_log with_payments with_reads with_inflight];
        tally; lia.
    + apply Forall_app. split; [repeat constructor |].
      apply Forall_app. split; [apply lookup_events_sound | repeat constructor].
    + intros p input' Hin. left.
      destruct Hflight as [Hf | Hf]; rewrite Hf in Hin;
        [| apply In_snoc_lookup in Hin];
        eapply In_remove_at; exact Hin.
  - (* storage *)
    apply (@Books_step w _ [] HB); books_side.
Qed.

Lemma reachable_Books (w : World) : reachable w -> Books w.
Proof.
  induction 1 as [w Hfresh | w a o w' Hreach IH Hstep].
  - now apply Books_fresh.
  - apply (@leaves_Books w a w'); trivial.
    + now apply reachable_Inv.
    + exact (proj2 (step_leaves a w Hstep)).
Qed.

Lemma afterScenarioA_reachable : reachable afterScenarioA.
Proof.
  apply (@run_reachable scenarioA (world0 Absent));
    [apply reachable_fresh, fresh_world0 | vm_compute; reflexivity].
Qed.

(** X1. The catalog is asked for exactly once, when the component is
    mounted: the log of a reachable world holds one catalog request once
    mounted, none before, whatever the user does and whatever the replies
    are (a failed fetch is not repeated). *)
Theorem catalog_requested_once (w : World) :
  reachable w ->
  count is_get_publications (log w) = if mounted w then 1%nat else 0%nat.
Proof. intros H. exact (books_catalog (reachable_Books H)). Qed.

Lemma catalog_requested_once_witness :
  reachable afterScenarioA
  /\ count is_request (log afterScenarioA) = 4%nat
  /\ count is_get_publications (log afterScenarioA) = 1%nat.
Proof.
  split; [exact afterScenarioA_reachable |].
  split; [reflexivity |].
  exact (catalog_requested_once afterScenarioA_reachable).
Defined.

(** X2. In every reachable world the "billsUpdated" events, the success
    notifications and the navigations to the payments view are equally
    many, and each of them stands for a subscribe POST that has settled:
    the events counted together with the POSTs still in flight never
    exceed the POSTs sent. *)
Theorem record_events_follow_posts (w : World) :
  reachable w ->
  count is_toast_success (log w)
  = count (is_dispatch (Js.lit "billsUpdated")) (log w)
  /\ count is_navigate (log w)
     = count (is_dispatch (Js.lit "billsUpdated")) (log w)
  /\ (count (is_dispatch (Js.lit "billsUpdated")) (log w)
      + count is_subscribe (inflight w)
      <= count is_post (log w))%nat.
Proof.
  intros H. pose proof (reachable_Books H) as [_ [K2 K2'] K3 _ _ _].
  auto.
Qed.

Lemma record_events_follow_posts_witness :
  reachable afterScenarioA
  /\ count is_post (log afterScenarioA) = 1%nat
  /\ count is_navigate (log afterScenarioA)
     = count (is_dispatch (Js.lit "billsUpdated")) (log afterScenarioA)
  /\ (count (is_dispatch (Js.lit "billsUpdated")) (log afterScenarioA) <= 1)%nat.
Proof.
  split; [exact afterScenarioA_reachable |].
  split; [reflexivity |].
  destruct (record_events_follow_posts afterScenarioA_reachable)
    as (_ & Hnav & Hposts).
  split; [exact Hnav |].
  change (count is_post (log afterScenarioA)) with 1%nat in Hposts. lia.
Defined.

(** X3. Every subscribe POST a reachable world has sent carries a
    customer name that is not empty and has no white space at either end,
    and the identity and the price of one of the publications of the
    list. *)
Theorem posts_are_listed_and_trimmed (w : World) (body : SubscribeBody.t) :
  reachable w ->
  In (post_subscribe body) (log w) ->
  outer_space_free (SubscribeBody.customerName body) = true
  /\ listed (publications (ui w)) body.
Proof.
  intros H Hin.
  pose proof (books_requests (reachable_Books H)) as K4.
  rewrite Forall_forall in K4. exact (K4 _ Hin).
Qed.

Lemma posts_are_listed_and_trimmed_witness :
  let body := {| SubscribeBody.customerName := asha;
                 SubscribeBody.publicationId := Js.lit "p1";
                 SubscribeBody.amount := 100 |} in
  reachable afterScenarioA
  /\ In (post_subscribe body) (log afterScenarioA)
  /\ outer_space_free (SubscribeBody.customerName body) = true
  /\ listed (publications (ui afterScenarioA)) body.
Proof.
  cbv zeta.
  assert (Hin : In (post_subscribe
                      {| SubscribeBody.customerName := asha;
                         SubscribeBody.publicationId := Js.lit "p1";
                         SubscribeBody.amount := 100 |})
                   (log afterScenarioA))
    by (right; right; left; reflexivity).
  split; [exact afterScenarioA_reachable |]. split; [exact Hin |].
  exact (@posts_are_listed_and_trimmed _ _ afterScenarioA_reachable Hin).
Defined.

(** X4. Every lookup request a reachable world has sent is for a name
    that is not empty once trimmed and that [encodeURIComponent] accepts;
    this holds of the lookup re-run after a subscription too, whose name
    is the one the POST was sent for. *)
Theorem lookups_are_never_blank (w : World) (name : Js.str) :
  reachable w ->
  In (get_subscriptions name) (log w) ->
  Js.trim name <> [] /\ Js.well_formed name = true.
Proof.
  intros H Hin.
  pose proof (books_requests (reachable_Books H)) as K4.
  rewrite Forall_forall in K4. exact (K4 _ Hin).
Qed.

Lemma lookups_are_never_blank_witness :
  reachable afterScenarioA
  /\ count is_request (log afterScenarioA) = 4%nat
  /\ In (get_subscriptions asha) (log afterScenarioA)
  /\ Js.trim asha <> [].
Proof.
  assert (Hin : In (get_subscriptions asha) (log afterScenarioA))
    by (right; left; reflexivity).
  split; [exact afterScenarioA_reachable |]. split; [reflexivity |].
  split; [exact Hin |].
  exact (proj1 (@lookups_are_never_blank _ _ afterScenarioA_reachable Hin)).
Defined.

(** X5. The publication the dialog is open on is always one of the list:
    the list changes only by the one catalog reply, and no dialog can be
    open before it. *)
Theorem dialog_shows_a_listed_publication (w : World) (p : Publication.t) :
  reachable w ->
  dialog (ui w) = Some p ->
  In p (publications (ui w)).
Proof.
  intros H Hd. apply (books_selected (reachable_Books H)).
  exact (proj1 (dialog_selected _ Hd)).
Qed.

Lemma dialog_shows_a_listed_publication_witness :
  exists w,
    run (firstn 5 scenarioA) (world0 Absent) = Some w
    /\ dialog (ui w) = Some dailyTimes
    /\ In dailyTimes (publications (ui w)).
Proof.
  destruct (run (firstn 5 scenarioA) (world0 Absent)) as [w |] eqn:Hrun;
    [| discriminate].
  exists w.
  assert (Hreach : reachable w)
    by (exact (run_reachable _ (reachable_fresh (fresh_world0 Absent)) Hrun)).
  assert (Hd : dialog (ui w) = Some dailyTimes)
    by (vm_compute in Hrun; injection Hrun as <-; reflexivity).
  split; [reflexivity |]. split; [exact Hd |].
  exact (@dialog_shows_a_listed_publication _ _ Hreach Hd).
Defined.

(* ===================================================================== *)
(** * The ledger over the steps of the flow *)
(* ===================================================================== *)

(** What a step of the component does to the storage and to the log. *)
Lemma leaves_ledger (w : World) (a : Action) (w' : World) :
  leaves w a w' ->
  by_component a = true ->
  storageFull w' = storageFull w
  /\ exists l,
       log w' = log w ++ l
       /\ ((payments w' = payments w
            /\ count (is_dispatch (Js.lit "billsUpdated")) l = 0%nat)
           \/ (confirms a = true
               /\ exists items x,
                    ledger (payments w) = Some items
                    /\ payments w'
                       = Holds (JArr (map Json.reread items ++ [x]))
                    /\ count (is_dispatch (Js.lit "billsUpdated")) l = 1%nat)).
Proof.
  intros Hleaves Hcomp.
  destruct Hleaves as
    [ Hm | i pub Hi | pub Hd | pub value Hd | pub m Hd
    | pub Hd Hl Hs Hname | pub Hd Hl Hs Hname
    | i data Hreq | i error Hreq | i data Hreq | i error Hreq
    | i pub input error Hreq | i pub input e Hreq He
    | i pub input payment items Hreq Hpayment Hledger Hfull | c full ];
    try discriminate.
  - split; [reflexivity |]. exists [get_publications].
    split; [reflexivity |]. left. split; [reflexivity | tally; reflexivity].
  - split; [reflexivity |]. exists [].
    split; [cbn; now rewrite app_nil_r |]. left. split; reflexivity.
  - split; [reflexivity |]. exists [].
    split; [cbn; now rewrite app_nil_r |]. left. split; reflexivity.
  - destruct (fetchSubscriptions_payments value
                (with_ui (set_customerNameInput value) w)) as (Hp & Hf & _).
    split; [exact Hf |]. exists (lookup_events value).
    split;
      [exact (fetchSubscriptions_log value
                (with_ui (set_customerNameInput value) w)) |].
    left. split; [exact Hp | apply lookup_events_no_dispatch].
  - split; [reflexivity |]. exists [].
    split; [cbn; now rewrite app_nil_r |]. left. split; reflexivity.
  - split; [reflexivity |]. eexists.
    split; [reflexivity |]. left. split; [reflexivity | tally; reflexivity].
  - split; [reflexivity |]. eexists.
    split; [reflexivity |]. left. split; [reflexivity | tally; reflexivity].
  - split; [reflexivity |]. exists [].
    split; [cbn; now rewrite app_nil_r |]. left. split; reflexivity.
  - split; [reflexivity |]. eexists.
    split; [reflexivity |]. left. split; [reflexivity | tally; reflexivity].
  - split; [reflexivity |]. exists [].
    split; [cbn; now rewrite app_nil_r |]. left. split; reflexivity.
  - split; [reflexivity |]. eexists.
    split; [reflexivity |]. left. split; [reflexivity | tally; reflexivity].
  - split; [reflexivity |]. eexists.
    split; [reflexivity |]. left. split; [reflexivity | tally; reflexivity].
  - split; [reflexivity |]. eexists.
    split; [reflexivity |]. left. split; [reflexivity | tally; reflexivity].
  - set (w0 := with_inflight (remove_at i (inflight w)) w) in *.
    destruct (fetchSubscriptions_payments input (recorded w0 pub payment items))
      as (Hp & Hf & _).
    cbn [storageFull payments with_ui with_log log].
    split; [exact Hf |].
    exists ([ dispatchEvent (Js.lit "billsUpdated");
              toast_success
                (Js.lit "Subscribed to " ++ Publication.name pub
                   ++ Js.lit " successfully!") ]
            ++ lookup_events input ++ [navigate (Js.lit "/payments")]).
    split.
    { rewrite fetchSubscriptions_log. unfold recorded, w0.
      cbn [log with_ui with_log with_inflight]. now rewrite <- !app_assoc. }
    right. split; [reflexivity |].
    exists items, (Payment.to_json payment).
    split; [exact Hledger |]. split; [exact Hp |].
    tally. rewrite lookup_events_no_dispatch. reflexivity.
Qed.

Lemma leaves_log (w : World) (a : Action) (w' : World) :
  leaves w a w' -> exists l, log w' = log w ++ l.
Proof.
  intros Hleaves. destruct (by_component a) eqn:Hcomp.
  - destruct (leaves_ledger Hleaves Hcomp) as (_ & l & Hl & _). eauto.
  - destruct Hleaves; try discriminate. exists []. cbn. now rewrite app_nil_r.
Qed.

Lemma run_log (actions : list Action) (w w' : World) :
  run actions w = Some w' -> exists l, log w' = log w ++ l.
Proof.
  revert w. induction actions as [| a rest IH]; intros w Hrun; cbn in Hrun.
  - injection Hrun as <-. exists []. now rewrite app_nil_r.
  - destruct (step a w) as [[[[] | e] w1] |] eqn:Hstep; try discriminate.
    destruct (leaves_log (proj2 (step_leaves a w Hstep))) as (l1 & H1).
    destruct (IH w1 Hrun) as (l2 & H2).
    exists (l1 ++ l2). now rewrite H2, H1, app_assoc.
Qed.

Lemma added_trans (w w1 w' : World) (l1 l2 : list Event) :
  log w1 = log w ++ l1 -> log w' = log w1 ++ l2 ->
  added w w' = l1 ++ added w1 w'.
Proof.
  intros H1 H2. rewrite (@added_app w1 w' l2 H2).
  apply added_app. now rewrite H2, H1, app_assoc.
Qed.

(** X6. Only the reply that confirms a submission makes the component
    write the ledger: any other step of the component (mounting, a click,
    a keystroke, a catalog or lookup reply, a refused submission) leaves
    the cell "payments" as it is and dispatches no "billsUpdated"
    event. *)
Theorem only_a_confirmation_writes_the_ledger
    (a : Action) (w : World) (o : Outcome unit) (w' : World) :
  step a w = Some (o, w') ->
  by_component a = true ->
  confirms a = false ->
  payments w' = payments w
  /\ storageFull w' = storageFull w
  /\ count (is_dispatch (Js.lit "billsUpdated")) (added w w') = 0%nat.
Proof.
  intros Hstep Hcomp Hconf.
  destruct (leaves_ledger (proj2 (step_leaves a w Hstep)) Hcomp)
    as (Hfull & l & Hlog & [(Hp & Hd) | (Hyes & _)]).
  - rewrite (@added_app w w' l Hlog). auto.
  - congruence.
Qed.

Lemma only_a_confirmation_writes_the_ledger_witness :
  let reply := SubscribeReply (Rejected NoResponse) in
  exists o w',
    step (Settle 0 reply) (with_payments (Holds (JArr [])) submitted)
    = Some (o, w')
    /\ payments w' = Holds (JArr []).
Proof.
  cbv zeta.
  destruct (step (Settle 0 (SubscribeReply (Rejected NoResponse)))
                 (with_payments (Holds (JArr [])) submitted))
    as [[o w'] |] eqn:Hstep; [| discriminate].
  exists o, w'. split; [reflexivity |].
  exact (proj1 (only_a_confirmation_writes_the_ledger _ _ Hstep
                  eq_refl eq_refl)).
Defined.

Lemma map_iter_reread (n : nat) (items : list json) :
  map (Nat.iter n Json.reread) (map Json.reread items)
  = map (Nat.iter (S n) Json.reread) items.
Proof.
  rewrite map_map. apply map_ext. intros entry.
  symmetry. apply Nat.iter_succ_r.
Qed.

Lemma map_iter_reread_stable (n : nat) (items : list json) :
  Forall (fun entry => Json.reread entry = entry) items ->
  map (Nat.iter n Json.reread) items = items.
Proof.
  intros Hstable. induction n as [| n IH].
  - apply map_id.
  - rewrite <- map_iter_reread, (map_reread_stable Hstable). exact IH.
Qed.

(** X7. Over any sequence of steps of the component the ledger only
    grows at its end: the entries it had stay at their places, each
    written back once per append as [JSON.stringify] writes what
    [JSON.parse] has read of it, hence as they were when they read and
    write as themselves; the new entries follow them, and they are as
    many as the "billsUpdated" events dispatched on the way. *)
Theorem ledger_only_grows
    (actions : list Action) (w w' : World) (items : list json) :
  forallb by_component actions = true ->
  run actions w = Some w' ->
  ledger (payments w) = Some items ->
  let appends := count (is_dispatch (Js.lit "billsUpdated")) (added w w') in
  exists extra,
    ledger (payments w')
    = Some (map (Nat.iter appends Json.reread) items ++ extra)
    /\ List.length extra = appends
    /\ (Forall (fun entry => Json.reread entry = entry) items ->
        ledger (payments w') = Some (items ++ extra)).
Proof.
  cbv zeta.
  assert (Hgrows :
    forallb by_component actions = true ->
    run actions w = Some w' ->
    ledger (payments w) = Some items ->
    exists extra,
      ledger (payments w')
      = Some (map (Nat.iter
                     (count (is_dispatch (Js.lit "billsUpdated")) (added w w'))
                     Json.reread) items ++ extra)
      /\ List.length extra
         = count (is_dispatch (Js.lit "billsUpdated")) (added w w')).
  { revert w items.
    induction actions as [| a rest IH]; intros w items Hcomp Hrun Hledger;
      cbn in Hrun, Hcomp.
    - injection Hrun as <-. exists [].
      rewrite (@added_app w w [] (eq_sym (app_nil_r _))).
      cbn [count filter List.length Nat.iter nat_rect].
      change (count (is_dispatch (Js.lit "billsUpdated")) []) with 0%nat.
      cbn [Nat.iter nat_rect]. rewrite map_id, app_nil_r.
      split; [exact Hledger | reflexivity].
    - apply andb_prop in Hcomp. destruct Hcomp as (Ha & Hrest).
      destruct (step a w) as [[[[] | e] w1] |] eqn:Hstep; try discriminate.
      destruct (leaves_ledger (proj2 (step_leaves a w Hstep)) Ha)
        as (_ & l & Hlog & Hcases).
      destruct (run_log rest w1 Hrun) as (l2 & Hlog2).
      rewrite (@added_trans _ _ _ _ _ Hlog Hlog2), count_app.
      destruct Hcases as [(Hp & Hd) | (_ & items0 & x & H0 & Hp & Hd)].
      + rewrite <- Hp in Hledger.
        destruct (IH w1 items Hrest Hrun Hledger) as (extra & He & Hn).
        exists extra. rewrite Hd. cbn [Nat.add]. split; assumption.
      + assert (items0 = items) by congruence. subst items0.
        assert (Hledger1 :
          ledger (payments w1) = Some (map Json.reread items ++ [x]))
          by now rewrite Hp.
        destruct (IH w1 _ Hrest Hrun Hledger1) as (extra & He & Hn).
        exists (Nat.iter
                  (count (is_dispatch (Js.lit "billsUpdated")) (added w1 w'))
                  Json.reread x :: extra).
        rewrite Hd. cbn [Nat.add].
        rewrite He, map_app, map_iter_reread, <- app_assoc.
        cbn [map app List.length]. split; [reflexivity | now rewrite Hn]. }
  intros Hcomp Hrun Hledger.
  destruct (Hgrows Hcomp Hrun Hledger) as (extra & Hextra & Hlength).
  exists extra. split; [exact Hextra |]. split; [exact Hlength |].
  intros Hstable. now rewrite Hextra, (map_iter_reread_stable _ Hstable).
Qed.

(** Scenario A on a ledger whose one entry is not a double. *)
Lemma ledger_only_grows_witness :
  exists w' extra,
    forallb by_component scenarioA = true
    /\ run scenarioA (world0 (Holds (JArr [JNum 9007199254740993]))) = Some w'
    /\ ledger (payments w') = Some (JNum 9007199254740992 :: extra)
    /\ List.length extra = 1%nat.
Proof.
  destruct (run scenarioA (world0 (Holds (JArr [JNum 9007199254740993]))))
    as [w' |] eqn:Hrun; [| vm_compute in Hrun; discriminate].
  destruct (@ledger_only_grows scenarioA
              (world0 (Holds (JArr [JNum 9007199254740993]))) w'
              [JNum 9007199254740993] eq_refl Hrun eq_refl)
    as (extra & He & Hn & _).
  exists w', extra. split; [reflexivity |]. split; [reflexivity |].
  assert (Hone :
    count (is_dispatch (Js.lit "billsUpdated"))
      (added (world0 (Holds (JArr [JNum 9007199254740993]))) w') = 1%nat).
  { vm_compute in Hrun. injection Hrun as <-. vm_compute. reflexivity. }
  rewrite Hone in He, Hn. split; [exact He | exact Hn].
Defined.

(* ===================================================================== *)
(** * More on the Subscription Service *)
(* ===================================================================== *)

(** X8. When the POST has succeeded but the local write cannot be made
    (a date of the record is out of the range of [Date], or the cell
    holds text that is no JSON, or JSON that is no array, or the store
    refuses the write), the continuation still returns: the error of the
    first call that fails is logged (the [RangeError] of [toISOString]
    comes before the [SyntaxError] of [JSON.parse] and the [TypeError] of
    [push], and these before a refused write), the one notification is
    "Subscription failed", the cell, the dialog and the requests in flight
    are what they were, [loading] is reset, there is no "billsUpdated"
    event, no lookup and no navigation. *)
Theorem local_write_failure_is_reported
    (pub : Publication.t) (input : Js.str) (w : World) :
  dates_in_range w = false
  \/ ledger (payments w) = None \/ storageFull w = true ->
  let w' := exec (handlePayNow_settled pub input (Fulfilled tt)) w in
  let e := if dates_in_range w then
             match payments w with
             | Garbled => SyntaxError
             | Holds (JArr _) | Absent | EmptyText => QuotaExceededError
             | Holds _ => TypeError
             end
           else RangeError in
  outcome (handlePayNow_settled pub input (Fulfilled tt)) w = Return tt
  /\ added w w' =
       [ console_error (Js.lit "Subscription error:") e;
         toast_error (Js.lit "Subscription failed") ]
  /\ payments w' = payments w
  /\ showModal (ui w') = showModal (ui w)
  /\ inflight w' = inflight w
  /\ loading (ui w') = false.
Proof.
  intros Hbad. cbv zeta.
  assert (He : write_error w
               = Some (if dates_in_range w then
                         match payments w with
                         | Garbled => SyntaxError
                         | Holds (JArr _) | Absent | EmptyText =>
                             QuotaExceededError
                         | Holds _ => TypeError
                         end
                       else RangeError)).
  { unfold write_error, ledger in *.
    destruct (dates_in_range w); cbn [negb]; [| reflexivity].
    destruct Hbad as [Hbad | Hbad]; [discriminate |].
    destruct (payments w) as [| | | [| | | | l | |]]; trivial;
      destruct Hbad as [H | ->]; trivial; discriminate. }
  unfold exec, outcome.
  rewrite (handlePayNow_settled_unrecorded pub input w He). cbn [fst snd].
  split; [reflexivity |].
  split; [apply added_app; reflexivity |].
  repeat split.
Qed.

(** The cell holds an object, not an array. *)
Lemma local_write_failure_is_reported_witness :
  let w := with_payments (Holds (JObj [])) garbledLedger in
  let w' := exec (handlePayNow_settled dailyTimes asha (Fulfilled tt)) w in
  ledger (payments w) = None
  /\ added w w' =
       [ console_error (Js.lit "Subscription error:") TypeError;
         toast_error (Js.lit "Subscription failed") ]
  /\ payments w' = Holds (JObj []).
Proof.
  cbv zeta.
  pose proof (local_write_failure_is_reported dailyTimes asha
                (with_payments (Holds (JObj [])) garbledLedger)
                (or_intror (or_introl eq_refl))) as H.
  cbv zeta in H. destruct H as (_ & Hadded & Hcell & _).
  split; [reflexivity |]. split; [exact Hadded | exact Hcell].
Defined.

(** X9. A click on the control that gets through finds the dialog open,
    no submission in progress and the selected publication not in the
    subscribed set; it then either shows the validation message, for a
    name that is empty once trimmed, or sends exactly one POST, for the
    selected publication, and nothing else. *)
Theorem pay_now_posts_only_unguarded
    (w : World) (o : Outcome unit) (w' : World) :
  step ClickPayNow w = Some (o, w') ->
  exists pub,
    dialog (ui w) = Some pub
    /\ loading (ui w) = false
    /\ isSubscribed (ui w) (Publication._id pub) = false
    /\ ((Js.trim (customerNameInput (ui w)) = []
         /\ added w w' = [toast_error (Js.lit "Please enter your name")]
         /\ inflight w' = inflight w)
        \/ (Js.trim (customerNameInput (ui w)) <> []
            /\ added w w' =
                 [ post_subscribe
                     {| SubscribeBody.customerName :=
                          Js.trim (customerNameInput (ui w));
                        SubscribeBody.publicationId := Publication._id pub;
                        SubscribeBody.amount := Publication.monthlyPrice pub |} ]
            /\ inflight w' =
                 inflight w ++ [SubscribeRequest pub (customerNameInput (ui w))])).
Proof.
  intros Hstep. destruct (step_leaves _ _ Hstep) as (_ & Hleaves).
  inversion Hleaves as
    [ | | | | | pub Hd Hl Hs Hname | pub Hd Hl Hs Hname | | | | | | | | ];
    subst; exists pub; repeat (split; [assumption |]).
  - left. split; [assumption |]. split; [apply added_app |]; reflexivity.
  - right. split; [assumption |]. split; [apply added_app |]; reflexivity.
Qed.

Lemma pay_now_posts_only_unguarded_witness :
  exists o w',
    step ClickPayNow (typed asha) = Some (o, w')
    /\ isSubscribed (ui (typed asha)) (Js.lit "p1") = false
    /\ count is_post (added (typed asha) w') = 1%nat.
Proof.
  destruct (step ClickPayNow (typed asha)) as [[o w'] |] eqn:Hstep;
    [| discriminate].
  exists o, w'. split; [reflexivity |]. split; [reflexivity |].
  destruct (pay_now_posts_only_unguarded _ Hstep)
    as (pub & _ & _ & _ & [(Hblank & _) | (_ & Hadded & _)]).
  - vm_compute in Hblank. discriminate.
  - rewrite Hadded. reflexivity.
Defined.

(** X10. The payment method chosen in the dialog is used for nothing:
    changing it commutes with the subscribe handler and with its
    continuation, so the POST body, the record written and everything
    else they do are the same for "qr" and "cod". *)
Theorem payment_method_is_not_used
    (m : PaymentMethod) (w : World) (pub : Publication.t) (input : Js.str)
    (r : Settled unit) :
  let chosen := with_ui (set_paymentMethod m) in
  handlePayNow (chosen w)
  = (outcome handlePayNow w, chosen (exec handlePayNow w))
  /\ handlePayNow_settled pub input r (chosen w)
     = (outcome (handlePayNow_settled pub input r) w,
        chosen (exec (handlePayNow_settled pub input r) w)).
Proof.
  cbv zeta. unfold exec, outcome. split.
  - destruct (handlePayNow_cases w) as [Hno | (p & Hpub & Hname)].
    + rewrite (handlePayNow_refuses w Hno).
      now rewrite (handlePayNow_refuses (with_ui (set_paymentMethod m) w) Hno).
    + rewrite (handlePayNow_sends w Hpub Hname).
      now rewrite (@handlePayNow_sends (with_ui (set_paymentMethod m) w) p
                     Hpub Hname).
  - destruct r as [[] | error].
    + destruct (write_error w) as [e |] eqn:He.
      * rewrite (handlePayNow_settled_unrecorded pub input w He).
        now rewrite (@handlePayNow_settled_unrecorded pub input
                       (with_ui (set_paymentMethod m) w) e He).
      * destruct (write_error_none_payment w pub He)
          as (payment & items & Hpayment & Hledger & Hfull).
        rewrite (handlePayNow_settled_recorded pub input w
                   Hpayment Hledger Hfull).
        rewrite (@handlePayNow_settled_recorded pub input
                   (with_ui (set_paymentMethod m) w) payment items
                   Hpayment Hledger Hfull).
        unfold exec. rewrite !fetchSubscriptions_run. cbn [fst snd].
        destruct (negb (Js.truthy (Js.trim input))); [reflexivity |].
        destruct (Js.well_formed input); reflexivity.
    + now rewrite !handlePayNow_settled_rejected.
Qed.

(** X11. The identity of a payment record is the first reading of the
    clock, in decimal: the records two calls of [newPayment] build have
    the same [id] exactly when that reading was the same, whatever the
    publications are. *)
Theorem payment_ids_follow_the_clock
    (w1 w2 w1' w2' : World) (pub1 pub2 : Publication.t) (p1 p2 : Payment.t) :
  newPayment pub1 w1 = (Return p1, w1') ->
  newPayment pub2 w2 = (Return p2, w2') ->
  (Payment.id p1 = Payment.id p2
   <-> clock w1 (reads w1) = clock w2 (reads w2)).
Proof.
  rewrite !newPayment_run. intros H1 H2.
  destruct (paymentIn w1 pub1) as [q1 |] eqn:Hq1; [| discriminate].
  destruct (paymentIn w2 pub2) as [q2 |] eqn:Hq2; [| discriminate].
  injection H1 as -> _. injection H2 as -> _.
  destruct (paymentIn_fields w1 pub1 Hq1) as (-> & _).
  destruct (paymentIn_fields w2 pub2 Hq2) as (-> & _).
  split.
  - apply of_Z_inj.
  - now intros ->.
Qed.

Lemma payment_ids_follow_the_clock_witness :
  let other := {| Publication._id := Js.lit "p2";
                  Publication.name := Js.lit "Evening Post";
                  Publication.language := Js.lit "en";
                  Publication.monthlyPrice := 80 |} in
  let p1 := paymentRecord utc dailyTimes 1705312800000 in
  let p2 := paymentRecord utc other 1705312800000 in
  newPayment dailyTimes (world0 Absent)
  = (Return p1, with_reads 4 (world0 Absent))
  /\ newPayment other (world0 Absent)
     = (Return p2, with_reads 4 (world0 Absent))
  /\ Payment.id p1 = Payment.id p2
  /\ Payment.subscriptionName p1 <> Payment.subscriptionName p2.
Proof.
  cbv zeta.
  assert (H1 :
    newPayment dailyTimes (world0 Absent)
    = (Return (paymentRecord utc dailyTimes 1705312800000),
       with_reads 4 (world0 Absent)))
    by (vm_compute; reflexivity).
  assert (H2 :
    newPayment
      {| Publication._id := Js.lit "p2";
         Publication.name := Js.lit "Evening Post";
         Publication.language := Js.lit "en";
         Publication.monthlyPrice := 80 |} (world0 Absent)
    = (Return (paymentRecord utc
                 {| Publication._id := Js.lit "p2";
                    Publication.name := Js.lit "Evening Post";
                    Publication.language := Js.lit "en";
                    Publication.monthlyPrice := 80 |} 1705312800000),
       with_reads 4 (world0 Absent)))
    by (vm_compute; reflexivity).
  split; [exact H1 |]. split; [exact H2 |]. split.
  - apply (@payment_ids_follow_the_clock _ _ _ _ _ _ _ _ H1 H2). reflexivity.
  - vm_compute. discriminate.
Defined.

(* ===================================================================== *)
(** * Subscription Lookup under reordering *)
(* ===================================================================== *)

Lemma nth_error_remove_at_later {A} (l : list A) (i j : nat) :
  (i < j)%nat -> nth_error (remove_at i l) (j - 1) = nth_error l j.
Proof.
  revert i j. induction l as [| x l IH]; intros i j H.
  - destruct i; cbn; destruct j; cbn; try lia; now destruct (j - 0)%nat.
  - destruct j as [| j]; [lia |].
    replace (S j - 1)%nat with j by lia.
    change (nth_error (x :: l) (S j)) with (nth_error l j).
    destruct i as [| i]; cbn [remove_at]; [reflexivity |].
    destruct j as [| j]; [lia |].
    change (nth_error (x :: remove_at i l) (S j))
      with (nth_error (remove_at i l) j).
    rewrite <- (IH i (S j)) by lia. f_equal. lia.
Qed.

Lemma nth_error_remove_at_earlier {A} (l : list A) (i j : nat) :
  (i < j)%nat -> nth_error (remove_at j l) i = nth_error l i.
Proof.
  revert i j. induction l as [| x l IH]; intros i j H.
  - now destruct j.
  - destruct j as [| j]; [lia |]. cbn [remove_at].
    destruct i as [| i]; [reflexivity |].
    change (nth_error (remove_at j l) i = nth_error l i). apply IH. lia.
Qed.

Lemma step_lookup_reply (w : World) (i : nat)
    (data : option (list Subscription.t)) :
  nth_error (inflight w) i = Some LookupRequest ->
  step (Settle i (LookupReply (Fulfilled data))) w
  = Some (Return tt,
          with_ui (set_subscriptions (or_empty data))
            (with_inflight (remove_at i (inflight w)) w)).
Proof.
  intros Hreq.
  rewrite (@step_Settle i (LookupReply (Fulfilled data)) w _ _ Hreq eq_refl).
  now rewrite fetchSubscriptions_settled_run.
Qed.

(** X12. With two lookups in flight, the subscribed set ends up being the
    data of whichever reply arrives last, whichever request was sent
    last: when the reply to the older request comes second, it
    overwrites the newer one. *)
Theorem last_lookup_reply_wins
    (w : World) (i j : nat) (older newer : option (list Subscription.t)) :
  (i < j)%nat ->
  nth_error (inflight w) i = Some LookupRequest ->
  nth_error (inflight w) j = Some LookupRequest ->
  (exists w',
     run [ Settle i (LookupReply (Fulfilled older));
           Settle (j - 1) (LookupReply (Fulfilled newer)) ] w = Some w'
     /\ subscriptions (ui w') = or_empty newer)
  /\ (exists w',
        run [ Settle j (LookupReply (Fulfilled newer));
              Settle i (LookupReply (Fulfilled older)) ] w = Some w'
        /\ subscriptions (ui w') = or_empty older).
Proof.
  intros Hij Hi Hj. split.
  - eexists. cbn [run]. rewrite (step_lookup_reply w i older Hi).
    rewrite step_lookup_reply
      by (cbn [inflight with_ui with_inflight];
          now rewrite nth_error_remove_at_later).
    split; reflexivity.
  - eexists. cbn [run]. rewrite (step_lookup_reply w j newer Hj).
    rewrite step_lookup_reply
      by (cbn [inflight with_ui with_inflight];
          now rewrite nth_error_remove_at_earlier).
    split; reflexivity.
Qed.

Lemma last_lookup_reply_wins_witness :
  exists w',
    (0 < 1)%nat
    /\ run [ Settle 1 (LookupReply (Fulfilled (Some [])));
             Settle 0 (LookupReply (Fulfilled (Some [subscribedToP1]))) ]
           twoLookups = Some w'
    /\ subscriptions (ui w') = [subscribedToP1].
Proof.
  destruct (@last_lookup_reply_wins twoLookups 0 1
              (Some [subscribedToP1]) (Some []) ltac:(lia) eq_refl eq_refl)
    as (_ & w' & Hrun & Hsubs).
  exists w'. split; [lia |]. split; [exact Hrun | exact Hsubs].
Defined.

(* ===================================================================== *)
(** * The interceptors of [axiosInstance] *)
(* ===================================================================== *)

Section Interceptors.
Import AxiosInstance.

Lemma put_same (k v : Js.str) (d : Dict) : put k v d k = Some v.
Proof. unfold put. now destruct (Js.str_dec k k). Qed.

Lemma put_other (k v : Js.str) (d : Dict) (k' : Js.str) :
  k' <> k -> put k v d k' = d k'.
Proof. unfold put. intros H. now destruct (Js.str_dec k' k). Qed.

Lemma del_same (k : Js.str) (d : Dict) : del k d k = None.
Proof. unfold del. now destruct (Js.str_dec k k). Qed.

Lemma del_other (k : Js.str) (d : Dict) (k' : Js.str) :
  k' <> k -> del k d k' = d k'.
Proof. unfold del. intros H. now destruct (Js.str_dec k' k). Qed.

(** Without a token in the store, or with an empty one, a request is sent
    as it was configured. *)
Lemma sent_without_token (config : Config) (b : Browser) :
  localStorage b (Js.lit "jwt_token") = None
  \/ localStorage b (Js.lit "jwt_token") = Some [] ->
  sent config b = config.
Proof.
  unfold sent, onRequest. now intros [-> | ->].
Qed.

(** What the error side of the response interceptor leaves after a
    401. *)
Lemma request_unauthorized
    (server : Config -> Promise Response) (config : Config) (b : Browser)
    (error : Error) :
  server (onRequest b config) = Reject error ->
  status error = Some 401%Z ->
  request server config b
  = ({| localStorage :=
          del (Js.lit "user_data") (del (Js.lit "jwt_token") (localStorage b));
        href := Js.lit "/login" |},
     Reject error).
Proof.
  intros Hserver H401. unfold request, onResponseError.
  now rewrite Hserver, H401.
Qed.

(** X13. A request that ends in a 401 ends the session: the promise is
    rejected with the error as it came, "jwt_token" and "user_data" are
    removed from the store, every other key (the ledger "payments" among
    them) keeps its value, and the location becomes "/login".  With any
    other error, or one without a response, the error is passed on and
    the browser is left as it is. *)
Theorem unauthorized_ends_the_session
    (server : Config -> Promise Response) (config : Config) (b : Browser)
    (error : Error) :
  server (sent config b) = Reject error ->
  let after := fst (request server config b) in
  snd (request server config b) = Reject error
  /\ (status error = Some 401%Z ->
      href after = Js.lit "/login"
      /\ localStorage after (Js.lit "jwt_token") = None
      /\ localStorage after (Js.lit "user_data") = None
      /\ forall k, k <> Js.lit "jwt_token" -> k <> Js.lit "user_data" ->
                   localStorage after k = localStorage b k)
  /\ (status error <> Some 401%Z -> after = b).
Proof.
  unfold sent. intros Hserver. cbv zeta. unfold request. rewrite Hserver.
  unfold onResponseError.
  destruct (status error) as [s |] eqn:Hs.
  - destruct (Z.eqb_spec s 401) as [-> | Hne]; cbn [fst snd].
    + split; [reflexivity |]. split; [| congruence]. intros _.
      cbn [href localStorage].
      split; [reflexivity |].
      split; [rewrite del_other by (vm_compute; discriminate); apply del_same |].
      split; [apply del_same |].
      intros k Hk1 Hk2. now rewrite !del_other.
    + split; [reflexivity |]. split; [| reflexivity].
      intros H. injection H as ->. now destruct Hne.
  - cbn [fst snd]. split; [reflexivity |]. split; [discriminate | reflexivity].
Qed.

Lemma unauthorized_ends_the_session_witness :
  let after := fst (request unauthorized (create (Js.lit "/customer/bills"))
                            loggedIn) in
  localStorage loggedIn (Js.lit "jwt_token") = Some (Js.lit "abc")
  /\ localStorage after (Js.lit "jwt_token") = None
  /\ localStorage after (Js.lit "user_data") = None
  /\ localStorage after (Js.lit "payments") = Some (Js.lit "[]")
  /\ href after = Js.lit "/login".
Proof.
  cbv zeta.
  destruct (@unauthorized_ends_the_session unauthorized
              (create (Js.lit "/customer/bills")) loggedIn _ eq_refl)
    as (_ & H401 & _).
  destruct (H401 eq_refl) as (Hhref & Htoken & Huser & Hrest).
  split; [reflexivity |]. split; [exact Htoken |]. split; [exact Huser |].
  split; [| exact Hhref].
  rewrite Hrest by (vm_compute; discriminate). reflexivity.
Defined.

(** X14. The Authorization header follows the session.  With a non-empty
    token in the store a request is sent with "Bearer " and the token as
    its Authorization header, whatever the caller had put there, and with
    the rest of its configuration untouched.  After a request has ended
    in a 401, the following requests are sent as they are configured,
    with no Authorization header added. *)
Theorem bearer_follows_the_session
    (config : Config) (b : Browser) :
  (forall token,
     localStorage b (Js.lit "jwt_token") = Some token ->
     token <> [] ->
     headers (sent config b) (Js.lit "Authorization")
     = Some (Js.lit "Bearer " ++ token)
     /\ (forall k, k <> Js.lit "Authorization" ->
                   headers (sent config b) k = headers config k)
     /\ baseURL (sent config b) = baseURL config
     /\ withCredentials (sent config b) = withCredentials config
     /\ url (sent config b) = url config)
  /\ (forall server error next,
        server (sent config b) = Reject error ->
        status error = Some 401%Z ->
        sent next (fst (request server config b)) = next).
Proof.
  split.
  - intros token Htoken Hne. unfold sent, onRequest. rewrite Htoken.
    destruct token as [| c rest]; [congruence |]. cbn [Js.truthy headers
      baseURL withCredentials url].
    split; [apply put_same |]. split; [| repeat split].
    intros k Hk. now apply put_other.
  - intros server error next Hserver H401.
    rewrite (request_unauthorized server config b Hserver H401).
    apply sent_without_token. left. cbn [fst localStorage].
    rewrite del_other by (vm_compute; discriminate). apply del_same.
Qed.

Lemma bearer_follows_the_session_witness :
  let config := create (Js.lit "/customer/bills") in
  headers (sent config loggedIn) (Js.lit "Authorization")
  = Some (Js.lit "Bearer abc")
  /\ headers (sent config loggedIn) (Js.lit "Content-Type")
     = Some (Js.lit "application/json")
  /\ headers (sent config (fst (request unauthorized config loggedIn)))
             (Js.lit "Authorization") = None.
Proof.
  cbv zeta.
  destruct (bearer_follows_the_session (create (Js.lit "/customer/bills"))
              loggedIn) as (Hbearer & Hafter).
  destruct (Hbearer (Js.lit "abc") eq_refl ltac:(discriminate))
    as (Hauth & Hrest & _).
  split; [exact Hauth |].
  split; [rewrite Hrest by (vm_compute; discriminate); reflexivity |].
  rewrite (Hafter unauthorized _ (create (Js.lit "/customer/bills"))
             eq_refl eq_refl).
  reflexivity.
Defined.

End Interceptors.

(* ===================================================================== *)
(** * The dialog and the list *)
(* ===================================================================== *)

(** X15. The list of publications is filled once, from empty: a step of a
    reachable world leaves it as it is, unless it is the catalog reply,
    which finds it empty and puts the reply's data there. *)
Theorem catalog_is_filled_once
    (a : Action) (w : World) (o : Outcome unit) (w' : World) :
  reachable w ->
  step a w = Some (o, w') ->
  publications (ui w') = publications (ui w)
  \/ (publications (ui w) = []
      /\ exists i data,
           a = Settle i (CatalogReply (Fulfilled data))
           /\ publications (ui w') = or_empty data).
Proof.
  intros Hreach Hstep. pose proof (reachable_Inv Hreach) as HI.
  destruct (step_leaves _ _ Hstep) as (_ & Hleaves).
  destruct Hleaves as
    [ Hm | i pub Hi | pub Hd | pub value Hd | pub m Hd
    | pub Hd Hl Hs Hname | pub Hd Hl Hs Hname
    | i data Hreq | i error Hreq | i data Hreq | i error Hreq
    | i pub input error Hreq | i pub input e Hreq He
    | i pub input payment items Hreq Hpayment Hledger Hfull | c full ];
    try (left; reflexivity).
  - left.
    destruct (fetchSubscriptions_books value
                (with_ui (set_customerNameInput value) w))
      as (_ & _ & Hpubs & _).
    exact Hpubs.
  - right. split.
    + apply (inv_empty HI). right.
      pose proof (inv_catalog HI) as I2.
      pose proof (count_remove_at is_catalog _ _ Hreq) as Hc. cbn in Hc.
      destruct (mounted w); lia.
    + exists i, data. split; reflexivity.
  - left. cbn [ui with_ui with_log publications set_loading].
    destruct (fetchSubscriptions_books input
                (recorded (with_inflight (remove_at i (inflight w)) w)
                          pub payment items))
      as (_ & _ & Hpubs & _).
    exact Hpubs.
Qed.

Lemma catalog_is_filled_once_witness :
  exists o w',
    reachable (exec fetchPublications (with_mounted true (world0 Absent)))
    /\ step (Settle 0 (CatalogReply (Fulfilled (Some [dailyTimes]))))
            (exec fetchPublications (with_mounted true (world0 Absent)))
       = Some (o, w')
    /\ publications (ui w') = [dailyTimes].
Proof.
  assert (Hreach :
    reachable (exec fetchPublications (with_mounted true (world0 Absent)))).
  { apply (@run_reachable [Mount] (world0 Absent));
      [apply reachable_fresh, fresh_world0 | reflexivity]. }
  destruct (step (Settle 0 (CatalogReply (Fulfilled (Some [dailyTimes]))))
                 (exec fetchPublications (with_mounted true (world0 Absent))))
    as [[o w'] |] eqn:Hstep; [| discriminate].
  exists o, w'. split; [exact Hreach |]. split; [reflexivity |].
  destruct (@catalog_is_filled_once _ _ _ _ Hreach Hstep)
    as [Hsame | (_ & i & data & Ha & Hfilled)].
  - vm_compute in Hstep. injection Hstep as _ <-. reflexivity.
  - injection Ha as _ <-. exact Hfilled.
Defined.

(** X16. Closing the dialog and opening it on another publication keeps
    the name typed and the subscribed set last looked up, and sends
    nothing: the control for the new publication is decided on that set,
    with no lookup of its own. *)
Theorem reopening_keeps_name_and_subscribed_set
    (w : World) (j : nat) (shown_before p : Publication.t) :
  dialog (ui w) = Some shown_before ->
  nth_error (publications (ui w)) j = Some p ->
  exists w',
    run [CloseDialog; ClickSubscribe j] w = Some w'
    /\ dialog (ui w') = Some p
    /\ customerNameInput (ui w') = customerNameInput (ui w)
    /\ subscriptions (ui w') = subscriptions (ui w)
    /\ log w' = log w
    /\ inflight w' = inflight w
    /\ payNowControl (ui w') =
         Some {| disabled :=
                   loading (ui w) || isSubscribed (ui w) (Publication._id p);
                 label :=
                   if loading (ui w) then Js.lit "Processing..."
                   else if isSubscribed (ui w) (Publication._id p)
                        then Js.lit "Already Subscribed"
                        else Js.lit "Pay Now" |}.
Proof.
  intros Hd Hj. eexists. split.
  - cbn [run]. unfold step at 1. cbn [react]. rewrite Hd.
    rewrite setShowModal_run.
    unfold step. cbn [react ui with_ui publications set_showModal].
    rewrite Hj. reflexivity.
  - repeat split.
Qed.

Lemma reopening_keeps_name_and_subscribed_set_witness :
  exists w',
    dialog (ui ashaSubscribed) = Some dailyTimes
    /\ run [CloseDialog; ClickSubscribe 0] ashaSubscribed = Some w'
    /\ customerNameInput (ui w') = asha
    /\ payNowControl (ui w') =
         Some {| disabled := true; label := Js.lit "Already Subscribed" |}.
Proof.
  destruct (@reopening_keeps_name_and_subscribed_set ashaSubscribed 0
              dailyTimes dailyTimes eq_refl eq_refl)
    as (w' & Hrun & _ & Hname & _ & _ & _ & Hcontrol).
  exists w'. split; [reflexivity |]. split; [exact Hrun |].
  split; [exact Hname | exact Hcontrol].
Defined.

Lemma last_any_default {A} (x : A) (l : list A) (d d' : A) :
  last (x :: l) d = last (d' :: x :: l) d.
Proof.
  change (last (d' :: x :: l) d) with (last (x :: l) d). reflexivity.
Qed.

Lemma last_default {A} (x : A) (l : list A) (d d' : A) :
  last (x :: l) d = last (x :: l) d'.
Proof.
  revert x. induction l as [| y l IH]; intros x; [reflexivity |].
  change (last (y :: l) d = last (y :: l) d'). apply IH.
Qed.

Lemma step_ChangeName (w : World) (shown_now : Publication.t) (value : Js.str) :
  dialog (ui w) = Some shown_now ->
  step (ChangeName value) w
  = Some (fetchSubscriptions value (with_ui (set_customerNameInput value) w)).
Proof.
  intros Hd. unfold step. cbn [react]. now rewrite Hd.
Qed.

(** X17. Every change of the name field to a name that is not blank and
    that [encodeURIComponent] accepts sends a lookup of its own, for the
    value as typed, and cancels none: after [n] such changes [n] more
    lookups are in flight, in the order typed, and the subscribed set is
    still what it was. *)
Theorem every_keystroke_sends_a_lookup
    (names : list Js.str) (w : World) (shown_now : Publication.t) :
  dialog (ui w) = Some shown_now ->
  Forall (fun name => Js.trim name <> [] /\ Js.well_formed name = true) names ->
  exists w',
    run (map ChangeName names) w = Some w'
    /\ added w w' = map get_subscriptions names
    /\ inflight w' = inflight w ++ repeat LookupRequest (List.length names)
    /\ subscriptions (ui w') = subscriptions (ui w)
    /\ customerNameInput (ui w') = last names (customerNameInput (ui w)).
Proof.
  revert w. induction names as [| name rest IH]; intros w Hd Hnames.
  - exists w. cbn. rewrite app_nil_r. repeat split.
    now apply added_app; rewrite app_nil_r.
  - inversion Hnames as [| ? ? (Hname & Hwf) Hrest]; subst.
    set (w1 := with_inflight (inflight w ++ [LookupRequest])
                 (with_log (log w ++ [get_subscriptions name])
                    (with_ui (set_customerNameInput name) w))).
    assert (Hstep : step (ChangeName name) w = Some (Return tt, w1)).
    { rewrite (step_ChangeName w name Hd), fetchSubscriptions_run, Hwf.
      destruct (Js.trim name); [congruence | reflexivity]. }
    destruct (IH w1 Hd Hrest) as (w' & Hrun & Hadded & Hflight & Hsubs & Hlast).
    exists w'. cbn [map run]. rewrite Hstep.
    split; [exact Hrun |].
    destruct (run_log _ _ Hrun) as (l2 & Hlog2).
    split; [| split; [| split]].
    + rewrite (@added_trans w w1 w' [get_subscriptions name] l2 eq_refl Hlog2).
      now rewrite Hadded.
    + rewrite Hflight. unfold w1. cbn [inflight with_inflight length repeat].
      now rewrite <- app_assoc.
    + exact Hsubs.
    + rewrite Hlast. unfold w1.
      cbn [ui with_ui with_log with_inflight customerNameInput
             set_customerNameInput].
      destruct rest as [| s rest]; [reflexivity |].
      rewrite <- (last_any_default s rest (customerNameInput (ui w)) name).
      apply last_default.
Qed.

Lemma every_keystroke_sends_a_lookup_witness :
  exists w',
    run (map ChangeName [Js.lit "A"; Js.lit "As"; asha]) (typed []) = Some w'
    /\ added (typed []) w' =
         [ get_subscriptions (Js.lit "A"); get_subscriptions (Js.lit "As");
           get_subscriptions asha ]
    /\ inflight w' = [LookupRequest; LookupRequest; LookupRequest].
Proof.
  assert (Hnames :
    Forall (fun name => Js.trim name <> [] /\ Js.well_formed name = true)
           [Js.lit "A"; Js.lit "As"; asha])
    by (repeat constructor; vm_compute; discriminate).
  destruct (@every_keystroke_sends_a_lookup _ (typed []) dailyTimes
              eq_refl Hnames)
    as (w' & Hrun & Hadded & Hflight & _).
  exists w'. split; [exact Hrun |]. split; [exact Hadded | exact Hflight].
Defined.

Lemma fetchSubscriptions_clock (name : Js.str) (w : World) :
  clock (exec (fetchSubscriptions name) w) = clock w
  /\ tz (exec (fetchSubscriptions name) w) = tz w.
Proof.
  unfold exec. rewrite fetchSubscriptions_run. cbn [snd].
  destruct (negb (Js.truthy (Js.trim name))); [split; reflexivity |].
  destruct (Js.well_formed name); split; reflexivity.
Qed.

(** What happens between a submission and its reply leaves the storage
    and the clock alone. *)
Lemma leaves_meanwhile (w : World) (a : Action) (w' : World) :
  leaves w a w' ->
  meanwhile a = true ->
  payments w' = payments w
  /\ storageFull w' = storageFull w
  /\ clock w' = clock w
  /\ reads w' = reads w
  /\ tz w' = tz w.
Proof.
  intros Hleaves Hquiet.
  destruct Hleaves as
    [ Hm | i pub Hi | pub Hd | pub value Hd | pub m Hd
    | pub Hd Hl Hs Hname | pub Hd Hl Hs Hname
    | i data Hreq | i error Hreq | i data Hreq | i error Hreq
    | i pub input error Hreq | i pub input e Hreq He
    | i pub input payment items Hreq Hpayment Hledger Hfull | c full ];
    try discriminate; try (repeat split; reflexivity).
  destruct (fetchSubscriptions_payments value
              (with_ui (set_customerNameInput value) w)) as (Hp & Hf & Hr).
  destruct (fetchSubscriptions_clock value
              (with_ui (set_customerNameInput value) w)) as (Hc & Hz).
  repeat split; assumption.
Qed.

Lemma run_meanwhile (actions : list Action) (w w' : World) :
  forallb meanwhile actions = true ->
  run actions w = Some w' ->
  payments w' = payments w
  /\ storageFull w' = storageFull w
  /\ clock w' = clock w
  /\ reads w' = reads w
  /\ tz w' = tz w.
Proof.
  revert w. induction actions as [| a rest IH]; intros w Hquiet Hrun;
    cbn in Hrun, Hquiet.
  - injection Hrun as <-. repeat split.
  - apply andb_prop in Hquiet. destruct Hquiet as (Ha & Hrest).
    destruct (step a w) as [[[[] | e] w1] |] eqn:Hstep; try discriminate.
    destruct (leaves_meanwhile (proj2 (step_leaves a w Hstep)) Ha)
      as (Hp & Hf & Hc & Hr & Hz).
    destruct (IH w1 Hrest Hrun) as (Hp' & Hf' & Hc' & Hr' & Hz').
    repeat split; congruence.
Qed.

(** X18. What a settled submission does is decided by what was
    submitted: whatever is clicked or typed, and whichever catalog or
    lookup reply comes, between the click on "Pay Now" and the reply to
    the POST, the continuation ends the same way, leaves the same ledger
    cell and adds the same events to the log (the notifications, the
    lookup for the submitted name, the navigation) as it would have done
    at once. *)
Theorem settled_submission_uses_what_was_submitted
    (pub : Publication.t) (input : Js.str) (r : Settled unit)
    (actions : list Action) (w v : World) :
  forallb meanwhile actions = true ->
  run actions w = Some v ->
  let k := handlePayNow_settled pub input r in
  outcome k v = outcome k w
  /\ payments (exec k v) = payments (exec k w)
  /\ added v (exec k v) = added w (exec k w).
Proof.
  intros Hquiet Hrun. cbv zeta.
  destruct (run_meanwhile actions w Hquiet Hrun) as (Hp & Hf & Hc & Hr & Hz).
  assert (Hpayment : paymentIn v pub = paymentIn w pub)
    by (unfold paymentIn; now rewrite Hc, Hr, Hz).
  assert (Herror : write_error v = write_error w)
    by (unfold write_error, dates_in_range; now rewrite Hc, Hr, Hz, Hp, Hf).
  destruct r as [[] | error].
  - destruct (write_error w) as [e |] eqn:He.
    + unfold exec, outcome.
      rewrite (handlePayNow_settled_unrecorded pub input w He).
      rewrite (handlePayNow_settled_unrecorded pub input v Herror).
      cbn [fst snd payments with_ui with_log with_reads].
      split; [reflexivity |]. split; [exact Hp |].
      etransitivity; [apply added_app; reflexivity |].
      symmetry. apply added_app. reflexivity.
    + destruct (write_error_none_payment w pub He)
        as (payment & items & Hpay & Hledger & Hfull).
      rewrite <- Hpayment in Hpay. rewrite <- Hp in Hledger.
      rewrite <- Hf in Hfull.
      rewrite (handlePayNow_settled_recorded_log pub input v
                 Hpay Hledger Hfull).
      rewrite Hpayment in Hpay. rewrite Hp in Hledger. rewrite Hf in Hfull.
      rewrite (handlePayNow_settled_recorded_log pub input w
                 Hpay Hledger Hfull).
      unfold exec, outcome.
      rewrite (handlePayNow_settled_recorded pub input w Hpay Hledger Hfull).
      rewrite <- Hpayment in Hpay. rewrite <- Hp in Hledger.
      rewrite <- Hf in Hfull.
      rewrite (handlePayNow_settled_recorded pub input v Hpay Hledger Hfull).
      cbn [fst snd payments with_ui with_log].
      destruct (fetchSubscriptions_payments input
                  (recorded v pub payment items)) as (Hv & _).
      destruct (fetchSubscriptions_payments input
                  (recorded w pub payment items)) as (Hw & _).
      rewrite Hv, Hw. repeat split.
  - unfold exec, outcome. rewrite !handlePayNow_settled_rejected.
    cbn [fst snd payments with_ui with_log].
    split; [reflexivity |]. split; [exact Hp |].
    etransitivity; [apply added_app; reflexivity |].
    symmetry. apply added_app. reflexivity.
Qed.

(** Another publication is selected and another name typed while the
    POST is in flight: the lookup is for the name submitted. *)
Lemma settled_submission_uses_what_was_submitted_witness :
  let k := handlePayNow_settled dailyTimes asha (Fulfilled tt) in
  exists v,
    run [ClickSubscribe 0; ChangeName (Js.lit "Bo")] submitted = Some v
    /\ customerNameInput (ui v) = Js.lit "Bo"
    /\ added v (exec k v) =
         [ dispatchEvent (Js.lit "billsUpdated");
           toast_success (Js.lit "Subscribed to Daily Times successfully!");
           get_subscriptions asha;
           navigate (Js.lit "/payments") ].
Proof.
  cbv zeta.
  destruct (run [ClickSubscribe 0; ChangeName (Js.lit "Bo")] submitted)
    as [v |] eqn:Hrun; [| vm_compute in Hrun; discriminate].
  exists v. split; [reflexivity |].
  destruct (@settled_submission_uses_what_was_submitted
              dailyTimes asha (Fulfilled tt)
              [ClickSubscribe 0; ChangeName (Js.lit "Bo")] submitted v
              eq_refl Hrun)
    as (_ & _ & Hadded).
  split.
  - vm_compute in Hrun. injection Hrun as <-. reflexivity.
  - rewrite Hadded. vm_compute. reflexivity.
Defined.
